(** * PDF tools (main.py): a shallow embedding and its verified properties

    The script drives PyMuPDF and Pillow.  The embedding keeps the script's
    own decisions: file names, thresholds, presets, ordering, control flow
    and exception handling.  What a library call answers is read from an
    environment; the calls that create or change a document, an image or a
    file, and the lines printed, are logged as the events of a trace.

    Conventions.
    - A Python [str] is a [string] of 8-bit characters (paths are byte
      strings, [os.path] is [posixpath]); [lower] and [upper] act on the
      ASCII letters.
    - A Python [int] is a [nat], an [N] or a [Z]; a Python [float] is an
      exact rational [Q] (the script only compares and divides them).
    - A call that raises is a [Raise]; [try]/[except Exception] is
      [try_except].
    - [print] is taken to succeed: in the script a line that stdout
      cannot encode raises, also inside a handler.  What is proved of a
      function that returns is proved of the runs in which every line
      could be printed.
    - The embedding is exact on ASCII text.  On other text Python's
      [\d], [int], [str.lower] and IGNORECASE know characters that
      [is_digit], [int], [lower] and [lit_prefix] do not (the decimal
      digits of other scripts, the Kelvin sign); what is proved of the
      names that match is proved of ASCII names. *)

From Stdlib Require Import ZArith NArith QArith Qminmax List String Ascii Bool.
From Stdlib Require Import Lia Lqa Permutation Sorted DecimalString DecimalN.
Import ListNotations.
Close Scope Q_scope.
Open Scope string_scope.
Open Scope list_scope.

Infix "+++" := String.append (right associativity, at level 60).

(** ** Python's string and path functions used by the script *)

Module Py.

Definition is_upper (c : ascii) : bool :=
  let n := N_of_ascii c in ((65 <=? n) && (n <=? 90))%N.

Definition is_lower (c : ascii) : bool :=
  let n := N_of_ascii c in ((97 <=? n) && (n <=? 122))%N.

Definition is_digit (c : ascii) : bool :=
  let n := N_of_ascii c in ((48 <=? n) && (n <=? 57))%N.

Definition lower_char (c : ascii) : ascii :=
  if is_upper c then ascii_of_N (N_of_ascii c + 32) else c.

Definition upper_char (c : ascii) : ascii :=
  if is_lower c then ascii_of_N (N_of_ascii c - 32) else c.

(** [s.lower()] and [s.upper()] *)
Fixpoint lower (s : string) : string :=
  match s with
  | EmptyString => EmptyString
  | String c s' => String (lower_char c) (lower s')
  end.

Fixpoint upper (s : string) : string :=
  match s with
  | EmptyString => EmptyString
  | String c s' => String (upper_char c) (upper s')
  end.

(** [s.endswith(suf)]: some suffix of [s] is [suf]. *)
Fixpoint endswith (s suf : string) : bool :=
  if String.eqb s suf then true
  else match s with
       | EmptyString => false
       | String _ s' => endswith s' suf
       end.

(** [s.startswith(pre)] *)
Fixpoint startswith (s pre : string) {struct pre} : bool :=
  match pre with
  | EmptyString => true
  | String a pre' =>
      match s with
      | String b s' => Ascii.eqb a b && startswith s' pre'
      | EmptyString => false
      end
  end.

(** [s[:k]] and [s[k:]] for [0 <= k]. *)
Fixpoint take (k : nat) (s : string) : string :=
  match k, s with
  | S k', String c s' => String c (take k' s')
  | _, _ => EmptyString
  end.

Fixpoint drop (k : nat) (s : string) : string :=
  match k, s with
  | S k', String _ s' => drop k' s'
  | _, _ => s
  end.

(** [s.rfind(c)] for a one-character [c]: the last index, or [-1]. *)
Fixpoint rfind (c : ascii) (s : string) : Z :=
  match s with
  | EmptyString => -1
  | String a s' =>
      let r := rfind c s' in
      if (0 <=? r)%Z then (r + 1)%Z
      else if Ascii.eqb a c then 0%Z else (-1)%Z
  end.

(** [s.rstrip(chars)] *)
Fixpoint rstrip (chars : list ascii) (s : string) : string :=
  match s with
  | EmptyString => EmptyString
  | String a s' =>
      match rstrip chars s' with
      | EmptyString =>
          if existsb (Ascii.eqb a) chars then EmptyString
          else String a EmptyString
      | r => String a r
      end
  end.

(** [posixpath.basename(p)]: [p[p.rfind('/') + 1:]] *)
Definition basename (p : string) : string :=
  drop (Z.to_nat (rfind "/" p + 1)) p.

(** The loop of [genericpath._splitext] that skips leading dots: is there
    a character other than ['.'] in [p[filenameIndex:dotIndex]]? *)
Fixpoint has_non_dot (p : string) (filenameIndex count : nat) : bool :=
  match count with
  | O => false
  | S count' =>
      match String.get filenameIndex p with
      | Some a =>
          if Ascii.eqb a "." then has_non_dot p (S filenameIndex) count'
          else true
      | None => true
      end
  end.

(** [posixpath.splitext(p)] *)
Definition splitext (p : string) : string * string :=
  let sepIndex := rfind "/" p in
  let dotIndex := rfind "." p in
  if (sepIndex <? dotIndex)%Z
  then
    let filenameIndex := Z.to_nat (sepIndex + 1) in
    if has_non_dot p filenameIndex (Z.to_nat dotIndex - filenameIndex)
    then (take (Z.to_nat dotIndex) p, drop (Z.to_nat dotIndex) p)
    else (p, EmptyString)
  else (p, EmptyString).

(** [posixpath.join(a, b)] *)
Definition join (a b : string) : string :=
  if startswith b "/" then b
  else if String.eqb a "" || endswith a "/" then a +++ b
  else a +++ "/" +++ b.

(** [str(n)] for a non-negative [int], as f-strings render it. *)
Definition str (n : N) : string := NilEmpty.string_of_uint (N.to_uint n).

Fixpoint all_digits (s : string) : bool :=
  match s with
  | EmptyString => true
  | String a s' => is_digit a && all_digits s'
  end.

(** [int(s)] on a non-empty run of the ASCII digits ([None] stands for
    [ValueError]; the script only calls it on what [\d+] matched, which
    on ASCII text is such a run). *)
Definition int (s : string) : option N :=
  match s with
  | EmptyString => None
  | _ => if all_digits s
         then option_map N.of_uint (NilEmpty.uint_of_string s)
         else None
  end.

(** [str(z)] for any [int] *)
Definition strZ (z : Z) : string := NilEmpty.string_of_int (Z.to_int z).

(** [c in s] for a one-character [c] *)
Fixpoint contains (c : ascii) (s : string) : bool :=
  match s with
  | EmptyString => false
  | String a s' => Ascii.eqb a c || contains c s'
  end.

(** [x in xs] for a list of strings *)
Definition str_in (x : string) (xs : list string) : bool :=
  existsb (String.eqb x) xs.

End Py.

(** ** The regular expressions of [re] that the page pattern uses

    [re.match] is a backtracking search: a greedy repetition first tries
    to take one more character and gives characters back one at a time
    when the rest of the pattern fails; an alternation tries its branches
    from left to right.  The matcher below is that search in
    continuation-passing style, for the constructs of [page_pattern]. *)

Module Re.

(** One-character patterns. *)
Inductive cclass :=
| CAny      (* [.], without DOTALL: anything but a line feed *)
| CDigit.   (* [\d], on ASCII text: one of 0-9 *)

Definition cmatch (c : cclass) (a : ascii) : bool :=
  match c with
  | CAny => negb (Ascii.eqb a "010")
  | CDigit => Py.is_digit a
  end.

Inductive atom :=
| Lit (text : string)            (* literal text, under IGNORECASE *)
| Star (c : cclass)              (* [c*], greedy *)
| GroupPlus (c : cclass)         (* [(c+)], greedy, capturing *)
| GroupAlt (alts : list string)  (* [(a|b|...)] of literals, capturing *)
| Eos.                           (* [$], without MULTILINE *)

(** Literal text under IGNORECASE: the matched text and what follows. *)
Fixpoint lit_prefix (text s : string) : option (string * string) :=
  match text with
  | EmptyString => Some (EmptyString, s)
  | String a text' =>
      match s with
      | String b s' =>
          if Ascii.eqb (Py.lower_char a) (Py.lower_char b)
          then match lit_prefix text' s' with
               | Some (m, r) => Some (String b m, r)
               | None => None
               end
          else None
      | EmptyString => None
      end
  end.

Section Search.
Context {A : Type}.

(** [c*] then [k]: take as many characters as possible, back off. *)
Fixpoint star (c : cclass) (k : string -> option A) (s : string)
  : option A :=
  match s with
  | String a s' =>
      if cmatch c a
      then match star c k s' with
           | Some r => Some r
           | None => k s
           end
      else k s
  | EmptyString => k s
  end.

(** [(c+)] then [k]: [acc] is the text the group has taken so far. *)
Fixpoint plus (c : cclass) (k : string -> string -> option A)
         (acc s : string) : option A :=
  match s with
  | String a s' =>
      if cmatch c a
      then let acc' := acc +++ String a EmptyString in
           match plus c k acc' s' with
           | Some r => Some r
           | None => k acc' s'
           end
      else None
  | EmptyString => None
  end.

(** [(a|b|...)] then [k]: the first branch whose continuation succeeds. *)
Fixpoint alt (alts : list string) (k : string -> string -> option A)
         (s : string) : option A :=
  match alts with
  | [] => None
  | text :: alts' =>
      match lit_prefix text s with
      | Some (m, r) =>
          match k m r with
          | Some x => Some x
          | None => alt alts' k s
          end
      | None => alt alts' k s
      end
  end.
End Search.

(** Every character of [s] is in the class [c]. *)
Fixpoint all_match (c : cclass) (s : string) : bool :=
  match s with
  | EmptyString => true
  | String a s' => cmatch c a && all_match c s'
  end.

(** [s] does not begin with a character of the class [c]. *)
Definition stops (c : cclass) (s : string) : bool :=
  match s with
  | EmptyString => true
  | String a _ => negb (cmatch c a)
  end.

(** The literal [text] matches at no position of [s]. *)
Fixpoint never_lit (text s : string) : bool :=
  match lit_prefix text s with
  | Some _ => false
  | None =>
      match s with
      | EmptyString => true
      | String _ s' => never_lit text s'
      end
  end.

(** [$]: at the end, or just before a line feed that ends the string. *)
Definition at_end (s : string) : bool :=
  String.eqb s "" || String.eqb s (String "010" "").

(** [run pat s groups]: match [pat] at the start of [s]; the result is
    the list of the groups' texts, in the order of their parentheses. *)
Fixpoint run (pat : list atom) (s : string) (groups : list string)
  : option (list string) :=
  match pat with
  | [] => Some groups
  | Lit text :: rest =>
      match lit_prefix text s with
      | Some (_, r) => run rest r groups
      | None => None
      end
  | Star c :: rest => star c (fun r => run rest r groups) s
  | GroupPlus c :: rest =>
      plus c (fun m r => run rest r (groups ++ [m])) "" s
  | GroupAlt alts :: rest =>
      alt alts (fun m r => run rest r (groups ++ [m])) s
  | Eos :: rest => if at_end s then run rest s groups else None
  end.

(** [pattern.match(s)] *)
Definition rmatch (pat : list atom) (s : string) : option (list string) :=
  run pat s [].

(** [m.group(i)] for [i >= 1] *)
Definition group (m : list string) (i : nat) : string :=
  nth (i - 1) m "".

End Re.

(** ** Results, exceptions and the trace of library calls *)

Inductive result (A : Type) :=
| Ok (a : A)
| Raise (e : string).
Arguments Ok {A} a.
Arguments Raise {A} e.

(** A keyword argument value. *)
Inductive PyVal :=
| VBool (b : bool)
| VInt (z : Z).

(** What the script prints. *)
Inductive Msg :=
| Text (s : string)                       (* the printed line *)
| SizeMB (label : string) (bytes : Z)     (* "{label}: {bytes/2^20:.2f} MB" *)
| Ratio (compressed original : Z)         (* "Compression ratio: ..." *)
| PageDone (i n : nat) (jpeg_bytes : Z).  (* "Processed page i/n - Size" *)

(** Pillow calls on the image of one page. *)
Inductive ImageOp :=
| ConvertRGB
| Quantize (colors : Z) (method : string)
| GaussianBlur (radius : Q)
| SaveJPEG (quality : Z) (optimize progressive : bool) (subsampling : Z)
| SavePNG.

Inductive Event :=
| Print (m : Msg)
| MakeDirs (path : string)
| OpenPdf (path : string)
| NewPdf
| ClosePdf
| GetPixmap (page : nat) (scale : Q)
| Pil (op : ImageOp)
| NewPage (width height : Q)
| InsertImage
| WritePixmap (path : string) (to_rgb : bool)
| WriteImage (path : string) (src : string) (angle : Z)
    (* [rotated_img.save(path)] is called on the rotation of [src] *)
| SavePdf (path : string) (kwargs : list (string * PyVal)).

Definition trace := list Event.

(** Computations that log events and may raise: a result together with
    the events logged on the way; what was logged before an exception
    stays logged. *)
Definition M (A : Type) : Type := result A * trace.

Definition ret {A} (a : A) : M A := (Ok a, []).
Definition raise {A} (e : string) : M A := (Raise e, []).
Definition emit (ev : Event) : M unit := (Ok tt, [ev]).
Definition lift {A} (r : result A) : M A := (r, []).

Definition bind {A B} (m : M A) (f : A -> M B) : M B :=
  match m with
  | (Ok a, t) => let (r, t') := f a in (r, t ++ t')
  | (Raise e, t) => (Raise e, t)
  end.

(** [try: m  except Exception as e: h e] *)
Definition try_except {A} (m : M A) (h : string -> M A) : M A :=
  match m with
  | (Ok a, t) => (Ok a, t)
  | (Raise e, t) => let (r, t') := h e in (r, t ++ t')
  end.

(** The events a computation logs, handed to what follows it. *)
Definition listen {A} (m : M A) : M (A * trace) :=
  match m with
  | (Ok a, t) => (Ok (a, t), t)
  | (Raise e, t) => (Raise e, t)
  end.

Notation "x <- m ;; f" := (bind m (fun x => f))
  (at level 61, m at next level, right associativity).
Notation "m ;;; f" := (bind m (fun _ => f))
  (at level 61, right associativity).

Definition print (s : string) : M unit := emit (Print (Text s)).

(** A library call that creates or changes something: it is logged when
    it returns; a call that raises is taken to leave nothing behind. *)
Definition call {A} (ev : Event) (answer : result A) : M A :=
  x <- lift answer ;; emit ev ;;; ret x.

(** A library call that opens its target for writing before it can fail
    (Pillow's [save]): it is logged when it is made, since a save that
    raises has already truncated a file that was there. *)
Definition attempt {A} (ev : Event) (answer : result A) : M A :=
  emit ev ;;; lift answer.

(** [for i, x in enumerate(xs, start)] with the loop's local variables
    threaded as [s]. *)
Fixpoint for_loop {X St} (start : nat) (xs : list X) (s : St)
         (body : nat -> X -> St -> M St) : M St :=
  match xs with
  | [] => ret s
  | x :: xs' => s' <- body start x s ;; for_loop (S start) xs' s' body
  end.

(** The image files [save] was called on, each with the image whose
    rotation was to be saved there: (target, source).  The target is
    written when the save returns and is damaged when it raises. *)
Fixpoint image_writes (t : trace) : list (string * string) :=
  match t with
  | [] => []
  | WriteImage path src _ :: t' => (path, src) :: image_writes t'
  | _ :: t' => image_writes t'
  end.

(** The paths [pix.save] wrote. *)
Fixpoint pixmap_writes (t : trace) : list string :=
  match t with
  | [] => []
  | WritePixmap path _ :: t' => path :: pixmap_writes t'
  | _ :: t' => pixmap_writes t'
  end.

(** The documents saved, with their keyword arguments. *)
Fixpoint pdf_saves (t : trace) : list (string * list (string * PyVal)) :=
  match t with
  | [] => []
  | SavePdf path kwargs :: t' => (path, kwargs) :: pdf_saves t'
  | _ :: t' => pdf_saves t'
  end.


(** The pages rendered, with the scale of each rendering. *)
Fixpoint renders (t : trace) : list (nat * Q) :=
  match t with
  | [] => []
  | GetPixmap page scale :: t' => (page, scale) :: renders t'
  | _ :: t' => renders t'
  end.

(** [doc.page_count] of a document that was new when [t] began. *)
Fixpoint page_count (t : trace) : nat :=
  match t with
  | [] => 0
  | NewPage _ _ :: t' => S (page_count t')
  | _ :: t' => page_count t'
  end.

Definition is_save (ev : Event) : bool :=
  match ev with SavePdf _ _ => true | _ => false end.

Definition is_new_page (ev : Event) : bool :=
  match ev with NewPage _ _ => true | _ => false end.

Definition is_render (ev : Event) : bool :=
  match ev with GetPixmap _ _ => true | _ => false end.

(** A computation that logs no event of the kind [bad]. *)
Definition avoiding (bad : Event -> bool) {A} (m : M A) : Prop :=
  existsb bad (snd m) = false.

(** A computation is [quiet] when it saves no document. *)
Definition quiet {A} (m : M A) : Prop := avoiding is_save m.

(** A Pillow image, as far as the script looks at it. *)
Record PilImage := { mode : string; img_width : Z; img_height : Z }.

(** The glob patterns of both image-handling commands. *)
Definition image_extensions : list string :=
  ["*.png"; "*.jpg"; "*.jpeg"; "*.gif"; "*.bmp"; "*.tiff"; "*.webp"].

(** The loop that fills [image_files]; [glob] is [glob.glob]. *)
Definition find_image_files (glob : string -> list string)
           (directory_path : string) : list string :=
  flat_map (fun extension =>
              glob (Py.join directory_path extension)
              ++ glob (Py.join directory_path (Py.upper extension)))
           image_extensions.

(** [if not output_pdf.lower().endswith('.pdf'): output_pdf += '.pdf'] *)
Definition ensure_pdf (output_pdf : string) : string :=
  if Py.endswith (Py.lower output_pdf) ".pdf" then output_pdf
  else output_pdf +++ ".pdf".

(** [pixels * 72 / 96] *)
Definition points (pixels : Z) : Q := (inject_Z pixels * 72 / 96)%Q.

(** ** extract_images_with_quality_filter *)

Module Extract.

Record Pixmap := { width : Z; height : Z; n : Z; alpha : Z }.

Record Env := {
  exists_ : string -> bool;            (* os.path.exists *)
  makedirs : string -> result unit;    (* os.makedirs *)
  (* fitz.open: for each page, for each entry of get_images, what
     fitz.Pixmap(doc, xref) gives *)
  open_pdf : string -> result (list (list (result Pixmap)));
  save_pixmap : string -> result unit  (* pix.save *)
}.

Definition img_filename (pdf_name : string) (page_num img_index : nat)
  : string :=
  pdf_name +++ "_page" +++ Py.str (N.of_nat (page_num + 1))
           +++ "_img" +++ Py.str (N.of_nat (img_index + 1)) +++ ".png".

Definition pdf_name (pdf_path : string) : string :=
  fst (Py.splitext (Py.basename pdf_path)).

(** The body of the loop over the images of a page. *)
Definition extract_image (env : Env) (output_folder pdf_name : string)
           (min_width min_height : Z) (page_num img_index : nat)
           (img : result Pixmap) (image_count : nat) : M nat :=
  pix <- lift img ;;
  if ((min_width <=? width pix) && (min_height <=? height pix))%Z
  then
    let to_rgb := (n pix - alpha pix =? 4)%Z in
    let img_filename := img_filename pdf_name page_num img_index in
    let img_path := Py.join output_folder img_filename in
    call (WritePixmap img_path to_rgb) (save_pixmap env img_path) ;;;
    print ("Extracted: " +++ img_filename +++ " ("
           +++ Py.strZ (width pix) +++ "x" +++ Py.strZ (height pix)
           +++ ")") ;;;
    ret (S image_count)
  else
    print ("Skipped small image: "
           +++ Py.strZ (width pix) +++ "x" +++ Py.strZ (height pix)
           +++ " (minimum: " +++ Py.strZ min_width +++ "x"
           +++ Py.strZ min_height +++ ")") ;;;
    ret image_count.

Definition extract_images_with_quality_filter (env : Env)
           (pdf_path output_folder : string) (min_width min_height : Z)
  : M nat :=
  (if exists_ env output_folder then ret tt
   else call (MakeDirs output_folder) (makedirs env output_folder)) ;;;
  pdf_document <- call (OpenPdf pdf_path) (open_pdf env pdf_path) ;;
  let pdf_name := pdf_name pdf_path in
  image_count <-
    for_loop 0 pdf_document 0 (fun page_num image_list image_count =>
      for_loop 0 image_list image_count (fun img_index img image_count =>
        extract_image env output_folder pdf_name min_width min_height
                      page_num img_index img image_count)) ;;
  emit ClosePdf ;;;
  ret image_count.

End Extract.

(** ** rotate_images_in_directory *)

Module Rotate.

Record Env := {
  exists_ : string -> bool;                  (* os.path.exists *)
  glob : string -> list string;              (* glob.glob *)
  open_rotate : string -> Z -> result unit;  (* Image.open, img.rotate *)
  save_image : string -> result unit         (* rotated_img.save *)
}.

(** The angle and the normalized direction text; [direction.lower()] as
    it is on ASCII text. *)
Definition parse_direction (direction : string) : option (Z * string) :=
  let d := Py.lower direction in
  if Py.str_in d ["clockwise"; "cw"]
  then Some ((-90)%Z, "clockwise")
  else if Py.str_in d ["anticlockwise"; "counterclockwise"; "acw"; "ccw"]
       then Some (90%Z, "anticlockwise")
       else None.

Definition new_path (image_path direction_text : string) : string :=
  let (name, ext) := Py.splitext image_path in
  name +++ "_rotated_" +++ direction_text +++ ext.

Definition rotate_one (env : Env) (angle : Z) (direction_text : string)
           (overwrite : bool) (image_path : string) (rotated_count : nat)
  : M nat :=
  try_except
    (lift (open_rotate env image_path angle) ;;;
     (if overwrite
      then
        attempt (WriteImage image_path image_path angle)
                (save_image env image_path) ;;;
        print ("Rotated " +++ direction_text +++ ": "
               +++ Py.basename image_path)
      else
        let new_path := new_path image_path direction_text in
        attempt (WriteImage new_path image_path angle)
                (save_image env new_path) ;;;
        print ("Rotated " +++ direction_text +++ " and saved as: "
               +++ Py.basename new_path)) ;;;
     ret (S rotated_count))
    (fun e =>
       print ("Error rotating " +++ Py.basename image_path +++ ": " +++ e) ;;;
       ret rotated_count).

Definition rotate_images_in_directory (env : Env)
           (directory_path direction : string) (overwrite : bool) : M nat :=
  if negb (exists_ env directory_path)
  then print ("Directory not found: " +++ directory_path) ;;; ret 0
  else
    match parse_direction direction with
    | None =>
        print ("Invalid direction: " +++ direction
               +++ ". Use 'clockwise' or 'anticlockwise'") ;;;
        ret 0
    | Some (angle, direction_text) =>
        let image_files := find_image_files (glob env) directory_path in
        match image_files with
        | [] =>
            print ("No image files found in: " +++ directory_path) ;;; ret 0
        | _ =>
            print ("Rotating " +++ Py.str (N.of_nat (List.length image_files))
                   +++ " images " +++ direction_text
                   +++ " by 90 degrees...") ;;;
            for_loop 0 image_files 0 (fun _ image_path rotated_count =>
              rotate_one env angle direction_text overwrite
                         image_path rotated_count)
        end
    end.

End Rotate.

(** ** create_pdf_from_images *)

Module CreatePdf.

Record Env := {
  exists_ : string -> bool;                (* os.path.exists *)
  glob : string -> list string;            (* glob.glob *)
  open_image : string -> result PilImage;  (* Image.open *)
  convert_rgb : string -> result unit;     (* img.convert('RGB') *)
  encode_png : string -> result unit;      (* img.save(img_bytes, 'PNG') *)
  new_pdf : result unit;                   (* fitz.open() *)
  new_page : string -> result unit;        (* pdf_document.new_page *)
  insert_image : string -> result unit;    (* page.insert_image *)
  save_pdf : string -> result unit         (* pdf_document.save *)
}.

(** [.*_page(\d+)_.*\.(png|jpg|jpeg|gif|bmp|tiff|webp)$], IGNORECASE *)
Definition page_pattern : list Re.atom :=
  [Re.Star Re.CAny; Re.Lit "_page"; Re.GroupPlus Re.CDigit; Re.Lit "_";
   Re.Star Re.CAny; Re.Lit ".";
   Re.GroupAlt ["png"; "jpg"; "jpeg"; "gif"; "bmp"; "tiff"; "webp"];
   Re.Eos].

(** The body of the loop that fills [page_images]. *)
Definition scan_one (image_path : string) (page_images : list (N * string))
  : M (list (N * string)) :=
  let filename := Py.basename image_path in
  match Re.rmatch page_pattern filename with
  | Some m =>
      match Py.int (Re.group m 1) with
      | Some page_num => ret (page_images ++ [(page_num, image_path)])
      | None => raise "invalid literal for int() with base 10"
      end
  | None =>
      print ("Warning: Skipping file (doesn't match page pattern): "
             +++ filename) ;;;
      ret page_images
  end.

Definition scan_pages (image_files : list string)
  : M (list (N * string)) :=
  for_loop 0 image_files [] (fun _ image_path page_images =>
    scan_one image_path page_images).

(** [list.sort(key=lambda x: x[0])]: the stable sort by page number.
    An element goes in front of the first sorted element whose key is
    not smaller, so that equal keys keep their order. *)
Fixpoint insert_page (x : N * string) (l : list (N * string))
  : list (N * string) :=
  match l with
  | [] => [x]
  | y :: l' =>
      if (fst x <=? fst y)%N then x :: l else y :: insert_page x l'
  end.

Fixpoint sort_pages (l : list (N * string)) : list (N * string) :=
  match l with
  | [] => []
  | x :: l' => insert_page x (sort_pages l')
  end.

Definition default_output (directory_path : string) : string :=
  let dir_name := Py.basename (Py.rstrip ["/"; "\"]%char directory_path) in
  dir_name +++ "_combined.pdf".

(** The body of the inner [try] for one image. *)
Definition add_page (env : Env) (page_num : N) (image_path : string)
  : M unit :=
  try_except
    (img <- lift (open_image env image_path) ;;
     (if Py.str_in (mode img) ["RGBA"; "LA"; "P"]
      then call (Pil ConvertRGB) (convert_rgb env image_path)
      else ret tt) ;;;
     call (Pil SavePNG) (encode_png env image_path) ;;;
     let page_width := points (img_width img) in
     let page_height := points (img_height img) in
     call (NewPage page_width page_height) (new_page env image_path) ;;;
     call InsertImage (insert_image env image_path) ;;;
     print ("Added page " +++ Py.str page_num +++ ": "
            +++ Py.basename image_path))
    (fun e =>
       print ("Error processing image " +++ Py.basename image_path
              +++ ": " +++ e)).

(** The outer [try] of create_pdf_from_images: a new document, one page
    per image, and the save unless the document stayed empty. *)
Definition assemble (env : Env) (page_images : list (N * string))
           (output_pdf : string) : M (option string) :=
  try_except
    (call NewPdf (new_pdf env) ;;;
     added <- listen
       (for_loop 0 page_images tt (fun _ page _ =>
          add_page env (fst page) (snd page))) ;;
     if Nat.eqb (page_count (snd added)) 0
     then
       print "No pages were successfully added to the PDF" ;;;
       emit ClosePdf ;;;
       ret None
     else
       call (SavePdf output_pdf []) (save_pdf env output_pdf) ;;;
       emit ClosePdf ;;;
       print (String "010" "PDF created successfully: " +++ output_pdf) ;;;
       print ("Total pages: "
              +++ Py.str (N.of_nat (List.length page_images))) ;;;
       ret (Some output_pdf))
    (fun e => print ("Error creating PDF: " +++ e) ;;; ret None).

Definition create_pdf_from_images (env : Env) (directory_path : string)
           (output_pdf : option string) : M (option string) :=
  if negb (exists_ env directory_path)
  then print ("Directory not found: " +++ directory_path) ;;; ret None
  else
    let image_files := find_image_files (glob env) directory_path in
    match image_files with
    | [] =>
        print ("No image files found in: " +++ directory_path) ;;;
        ret None
    | _ =>
        page_images <- scan_pages image_files ;;
        match page_images with
        | [] =>
            print ("No images found matching the page numbering pattern "
                   +++ "(*_page{N}_*.ext)") ;;;
            print ("Expected pattern: filename_page1_something.png, "
                   +++ "filename_page2_something.jpg, etc.") ;;;
            ret None
        | first :: _ =>
            let page_images := sort_pages page_images in
            let output_pdf :=
              match output_pdf with
              | None => default_output directory_path
              | Some o => o
              end in
            let output_pdf := ensure_pdf output_pdf in
            print ("Creating PDF from "
                   +++ Py.str (N.of_nat (List.length page_images))
                   +++ " images...") ;;;
            print ("Page range: "
                   +++ Py.str (fst (hd first page_images)) +++ " to "
                   +++ Py.str (fst (last page_images first))) ;;;
            assemble env page_images output_pdf
        end
    end.

End CreatePdf.

(** ** compress_pdf *)

Module Compress.

Record Env := {
  exists_ : string -> bool;        (* os.path.exists *)
  getsize : string -> result Z;    (* os.path.getsize *)
  open_pdf : string -> result unit;                          (* fitz.open *)
  save_pdf : string -> list (string * PyVal) -> result unit  (* doc.save *)
}.

(** The presets, as the dictionary literal lists them. *)
Definition compression_settings : list (string * list (string * PyVal)) :=
  [("low", [("garbage", VInt 1); ("clean", VBool true)]);
   ("medium", [("deflate", VBool true); ("garbage", VInt 2);
               ("clean", VBool true)]);
   ("high", [("deflate", VBool true); ("garbage", VInt 4);
             ("clean", VBool true); ("pretty", VBool true)])].

(** [d[k]], and [k in d] when it is not [None]. *)
Fixpoint lookup {V} (k : string) (d : list (string * V)) : option V :=
  match d with
  | [] => None
  | (k', v) :: d' => if String.eqb k k' then Some v else lookup k d'
  end.

(** The output name generated when none is given, before the suffix check. *)
Definition generated_name (input_pdf suffix : string) : string :=
  let (name, ext) := Py.splitext input_pdf in
  name +++ suffix +++ ext.

Definition output_path (input_pdf : string) (output_pdf : option string)
           (suffix : string) : string :=
  ensure_pdf (match output_pdf with
              | None => generated_name input_pdf suffix
              | Some o => o
              end).

(** [(1 - compressed_size / original_size) * 100] raises on an empty
    original. *)
Definition ratio (compressed_size original_size : Z) : M Msg :=
  if (original_size =? 0)%Z then raise "division by zero"
  else ret (Ratio compressed_size original_size).

Definition compress_pdf (env : Env) (input_pdf : string)
           (output_pdf : option string) (compression_level : string)
  : M (option string) :=
  if negb (exists_ env input_pdf)
  then print ("PDF file not found: " +++ input_pdf) ;;; ret None
  else
    let output_pdf := output_path input_pdf output_pdf "_compressed" in
    match lookup compression_level compression_settings with
    | None =>
        print ("Invalid compression level: " +++ compression_level
               +++ ". Use 'low', 'medium', or 'high'") ;;;
        ret None
    | Some settings =>
        try_except
          (original_size <- lift (getsize env input_pdf) ;;
           emit (Print (SizeMB "Original PDF size" original_size)) ;;;
           call (OpenPdf input_pdf) (open_pdf env input_pdf) ;;;
           print ("Compressing PDF with " +++ compression_level
                  +++ " compression...") ;;;
           call (SavePdf output_pdf settings)
                (save_pdf env output_pdf settings) ;;;
           emit ClosePdf ;;;
           compressed_size <- lift (getsize env output_pdf) ;;
           compression_ratio <- ratio compressed_size original_size ;;
           emit (Print (SizeMB "Compressed PDF size" compressed_size)) ;;;
           emit (Print compression_ratio) ;;;
           print ("Compressed PDF saved as: " +++ output_pdf) ;;;
           ret (Some output_pdf))
          (fun e => print ("Error compressing PDF: " +++ e) ;;; ret None)
    end.

End Compress.

(** ** compress_pdf_advanced *)

Module CompressAdv.

(** [page.rect], in the floats of the script. *)
Record PageRect := { rect_width : Q; rect_height : Q }.

Record Env := {
  exists_ : string -> bool;                     (* os.path.exists *)
  getsize : string -> result Z;                 (* os.path.getsize *)
  open_pdf : string -> result (list PageRect);  (* fitz.open(input_pdf) *)
  new_pdf : result unit;                        (* fitz.open() *)
  (* page.get_pixmap, pix.tobytes, Image.open, for a page and a scale *)
  get_pixmap : nat -> Q -> result PilImage;
  pil : nat -> ImageOp -> result unit;  (* a Pillow call on a page's image *)
  jpeg_size : nat -> Z;                 (* len(img_bytes.getvalue()) *)
  new_page : nat -> result unit;        (* new_pdf.new_page *)
  insert_image : nat -> result unit;    (* new_page.insert_image *)
  save_pdf : string -> result unit      (* new_pdf.save *)
}.

(** [a > b] and [a < b] on numbers *)
Definition gt (a b : Q) : bool := negb (Qle_bool a b).
Definition lt (a b : Q) : bool := gt b a.

(** [a / b]: true division *)
Definition div (a b : Q) : M Q :=
  if Qeq_bool b 0 then raise "float division by zero" else ret (a / b)%Q.

(** [min(a, b, c)]: the first of the smallest arguments *)
Definition min3 (a b c : Q) : Q :=
  let m := if lt b a then b else a in
  if lt c m then c else m.

(** Lines 449-451: the render scale of a page. *)
Definition scale_factor (max_width max_height : Z)
           (page_width page_height : Q) : M Q :=
  scale_x <- (if gt page_width (inject_Z max_width)
              then div (inject_Z max_width) page_width
              else ret 1%Q) ;;
  scale_y <- (if gt page_height (inject_Z max_height)
              then div (inject_Z max_height) page_height
              else ret 1%Q) ;;
  ret (min3 scale_x scale_y 2).

Definition pil_call (env : Env) (page_num : nat) (op : ImageOp) : M unit :=
  call (Pil op) (pil env page_num op).

(** The body of the page loop. *)
Definition process_page (env : Env) (image_quality max_width max_height : Z)
           (page_total page_num : nat) (page : PageRect) : M unit :=
  let page_width := rect_width page in
  let page_height := rect_height page in
  scale <- scale_factor max_width max_height page_width page_height ;;
  pil_image <- call (GetPixmap page_num scale)
                    (get_pixmap env page_num scale) ;;
  (if Py.str_in (mode pil_image) ["RGBA"; "LA"; "P"]
   then pil_call env page_num ConvertRGB
   else ret tt) ;;;
  (if (image_quality <? 50)%Z
   then pil_call env page_num (Quantize 256 "MEDIANCUT") ;;;
        pil_call env page_num ConvertRGB
   else ret tt) ;;;
  (if (image_quality <? 40)%Z
   then pil_call env page_num (GaussianBlur 0.5)
   else ret tt) ;;;
  pil_call env page_num
           (SaveJPEG image_quality true true
                     (if (image_quality <? 50)%Z then 2 else 0)%Z) ;;;
  let new_width := points (img_width pil_image) in
  let new_height := points (img_height pil_image) in
  call (NewPage new_width new_height) (new_page env page_num) ;;;
  call InsertImage (insert_image env page_num) ;;;
  emit (Print (PageDone (page_num + 1) page_total (jpeg_size env page_num))).

Definition high_flags : list (string * PyVal) :=
  [("deflate", VBool true); ("garbage", VInt 4);
   ("clean", VBool true); ("pretty", VBool true)].

Definition compress_pdf_advanced (env : Env) (input_pdf : string)
           (output_pdf : option string)
           (image_quality max_width max_height : Z) : M (option string) :=
  if negb (exists_ env input_pdf)
  then print ("PDF file not found: " +++ input_pdf) ;;; ret None
  else
    let output_pdf :=
      Compress.output_path input_pdf output_pdf "_advanced_compressed" in
    try_except
      (original_size <- lift (getsize env input_pdf) ;;
       emit (Print (SizeMB "Original PDF size" original_size)) ;;;
       print ("Advanced compression settings: Quality="
              +++ Py.strZ image_quality +++ "%, Max size="
              +++ Py.strZ max_width +++ "x" +++ Py.strZ max_height) ;;;
       pdf_document <- call (OpenPdf input_pdf) (open_pdf env input_pdf) ;;
       call NewPdf (new_pdf env) ;;;
       print "Rendering pages as compressed images..." ;;;
       for_loop 0 pdf_document tt (fun page_num page _ =>
         process_page env image_quality max_width max_height
                      (List.length pdf_document) page_num page) ;;;
       call (SavePdf output_pdf high_flags) (save_pdf env output_pdf) ;;;
       emit ClosePdf ;;;
       emit ClosePdf ;;;
       compressed_size <- lift (getsize env output_pdf) ;;
       compression_ratio <- Compress.ratio compressed_size original_size ;;
       emit (Print (SizeMB "Compressed PDF size" compressed_size)) ;;;
       emit (Print compression_ratio) ;;;
       print ("Advanced compressed PDF saved as: " +++ output_pdf) ;;;
       ret (Some output_pdf))
      (fun e =>
         print ("Error in advanced compression: " +++ e) ;;; ret None).

End CompressAdv.

(** ** Reference definitions

    What the properties below compare the code with: the formulas of the
    specification, and the lists and predicates the statements speak of. *)

Module Spec.

(** The render scale as a single minimum with the cap 2.0. *)
Definition claimed_scale (max_width max_height : Z)
           (page_width page_height : Q) : Q :=
  Qmin (Qmin (inject_Z max_width / page_width)
             (inject_Z max_height / page_height)) 2.


(** Every library call of a run of compress_pdf returns. *)
Definition cooperative (env : Compress.Env) (input_pdf out : string)
           (kw : list (string * PyVal)) : Prop :=
  Compress.exists_ env input_pdf = true
  /\ (exists size, Compress.getsize env input_pdf = Ok size /\ size <> 0%Z)
  /\ Compress.open_pdf env input_pdf = Ok tt
  /\ Compress.save_pdf env out kw = Ok tt
  /\ (exists size, Compress.getsize env out = Ok size).

(** A run of compress_pdf saves at most once, with the keyword arguments
    [kw], and does save with them when every library call returns. *)
Definition saved_with (env : Compress.Env) (input_pdf : string)
           (output_pdf : option string) (level : string)
           (kw : list (string * PyVal)) : Prop :=
  let r := Compress.compress_pdf env input_pdf output_pdf level in
  let out := Compress.output_path input_pdf output_pdf "_compressed" in
  (pdf_saves (snd r) = [] \/ pdf_saves (snd r) = [(out, kw)])
  /\ (cooperative env input_pdf out kw ->
      fst r = Ok (Some out) /\ pdf_saves (snd r) = [(out, kw)]).

(** The page number the page pattern reads off a path, if it matches. *)
Definition page_number (image_path : string) : option N :=
  match Re.rmatch CreatePdf.page_pattern (Py.basename image_path) with
  | Some m => Py.int (Re.group m 1)
  | None => None
  end.

(** The (page number, path) pairs of the matching files, in file order. *)
Definition page_list (image_files : list string) : list (N * string) :=
  flat_map (fun image_path =>
              match page_number image_path with
              | Some page_num => [(page_num, image_path)]
              | None => []
              end) image_files.

(** Ascending page numbers. *)
Definition page_le (x y : N * string) : Prop := (fst x <= fst y)%N.

(** The pairs with page number [k], in their order of appearance. *)
Definition with_page (k : N) (l : list (N * string)) : list (N * string) :=
  filter (fun x => N.eqb (fst x) k) l.

(** The lines "Added page N: name" of a trace. *)
Fixpoint added_pages (t : trace) : list string :=
  match t with
  | [] => []
  | Print (Text s) :: t' =>
      if Py.startswith s "Added page " then s :: added_pages t'
      else added_pages t'
  | _ :: t' => added_pages t'
  end.

(** The size test of the extraction. *)
Definition large_enough (min_width min_height : Z) (pix : Extract.Pixmap)
  : bool :=
  ((min_width <=? Extract.width pix)
   && (min_height <=? Extract.height pix))%Z.

(** The (page index, image index) pairs of the images that pass the size
    test, in document order; [i] and [p] are the indices of the first
    image and of the first page of the lists. *)
Fixpoint page_indices (min_width min_height : Z) (p i : nat)
         (images : list Extract.Pixmap) : list (nat * nat) :=
  match images with
  | [] => []
  | pix :: images' =>
      (if large_enough min_width min_height pix then [(p, i)] else [])
      ++ page_indices min_width min_height p (S i) images'
  end.

Fixpoint doc_indices (min_width min_height : Z) (p : nat)
         (pages : list (list Extract.Pixmap)) : list (nat * nat) :=
  match pages with
  | [] => []
  | images :: pages' =>
      page_indices min_width min_height p 0 images
      ++ doc_indices min_width min_height (S p) pages'
  end.

(** The path extraction writes for the image [pi] of a PDF. *)
Definition written_path (pdf_path output_folder : string) (pi : nat * nat)
  : string :=
  Py.join output_folder
          (Extract.img_filename (Extract.pdf_name pdf_path) (fst pi) (snd pi)).

(** Did the call return? *)
Definition returned {A} (r : result A) : bool :=
  match r with Ok _ => true | Raise _ => false end.

End Spec.

(** ** Sample inputs

    Small concrete environments on which the properties are exercised. *)

Module Sample.

Definition image : PilImage :=
  {| mode := "RGB"; img_width := 1200; img_height := 1600 |}.

(** A US Letter page, in points. *)
Definition letter : CompressAdv.PageRect :=
  {| CompressAdv.rect_width := 612; CompressAdv.rect_height := 792 |}.

(** A large drawing, 22 x 34 inches, in points. *)
Definition tabloid : CompressAdv.PageRect :=
  {| CompressAdv.rect_width := 1584; CompressAdv.rect_height := 2448 |}.

(** An environment of [compress_pdf_advanced] in which every library
    call returns. *)
Definition adv_env (pages : list CompressAdv.PageRect) : CompressAdv.Env :=
  {| CompressAdv.exists_ := fun _ => true;
     CompressAdv.getsize := fun _ => Ok 4096%Z;
     CompressAdv.open_pdf := fun _ => Ok pages;
     CompressAdv.new_pdf := Ok tt;
     CompressAdv.get_pixmap := fun _ _ => Ok image;
     CompressAdv.pil := fun _ _ => Ok tt;
     CompressAdv.jpeg_size := fun _ => 1024%Z;
     CompressAdv.new_page := fun _ => Ok tt;
     CompressAdv.insert_image := fun _ => Ok tt;
     CompressAdv.save_pdf := fun _ => Ok tt |}.

(** The same over three pages, where rendering the second page raises. *)
Definition adv_env_page2_fails : CompressAdv.Env :=
  {| CompressAdv.exists_ := fun _ => true;
     CompressAdv.getsize := fun _ => Ok 4096%Z;
     CompressAdv.open_pdf := fun _ => Ok [letter; letter; letter];
     CompressAdv.new_pdf := Ok tt;
     CompressAdv.get_pixmap := fun page_num _ =>
       if Nat.eqb page_num 1 then Raise "cannot render page" else Ok image;
     CompressAdv.pil := fun _ _ => Ok tt;
     CompressAdv.jpeg_size := fun _ => 1024%Z;
     CompressAdv.new_page := fun _ => Ok tt;
     CompressAdv.insert_image := fun _ => Ok tt;
     CompressAdv.save_pdf := fun _ => Ok tt |}.

(** An environment of [compress_pdf] in which every library call
    returns. *)
Definition compress_env : Compress.Env :=
  {| Compress.exists_ := fun _ => true;
     Compress.getsize := fun _ => Ok 4096%Z;
     Compress.open_pdf := fun _ => Ok tt;
     Compress.save_pdf := fun _ _ => Ok tt |}.

(** A base name of two lines. *)
Definition two_lines : string := "a" +++ String "010" "b".

(** A directory listing with three page images, out of order. *)
Definition scan_files : list string :=
  ["scans/a_page2_x.png"; "scans/a_page1_x.png"; "scans/a_page10_x.png"].

Definition scan_glob (pattern : string) : list string :=
  if String.eqb pattern "scans/*.png" then scan_files else [].

(** An environment of [create_pdf_from_images] in which every library
    call returns. *)
Definition create_env : CreatePdf.Env :=
  {| CreatePdf.exists_ := fun _ => true;
     CreatePdf.glob := scan_glob;
     CreatePdf.open_image := fun _ => Ok image;
     CreatePdf.convert_rgb := fun _ => Ok tt;
     CreatePdf.encode_png := fun _ => Ok tt;
     CreatePdf.new_pdf := Ok tt;
     CreatePdf.new_page := fun _ => Ok tt;
     CreatePdf.insert_image := fun _ => Ok tt;
     CreatePdf.save_pdf := fun _ => Ok tt |}.

(** The same directory when no file can be decoded. *)
Definition create_env_corrupt : CreatePdf.Env :=
  {| CreatePdf.exists_ := fun _ => true;
     CreatePdf.glob := scan_glob;
     CreatePdf.open_image := fun _ => Raise "cannot identify image file";
     CreatePdf.convert_rgb := fun _ => Ok tt;
     CreatePdf.encode_png := fun _ => Ok tt;
     CreatePdf.new_pdf := Ok tt;
     CreatePdf.new_page := fun _ => Ok tt;
     CreatePdf.insert_image := fun _ => Ok tt;
     CreatePdf.save_pdf := fun _ => Ok tt |}.

Definition big : Extract.Pixmap :=
  {| Extract.width := 640; Extract.height := 480;
     Extract.n := 3; Extract.alpha := 0 |}.

Definition icon : Extract.Pixmap :=
  {| Extract.width := 640; Extract.height := 16;
     Extract.n := 3; Extract.alpha := 0 |}.

(** A PDF of two pages: a large image and an icon, then a large image. *)
Definition extract_pages : list (list Extract.Pixmap) :=
  [[big; icon]; [big]].

Definition extract_env : Extract.Env :=
  {| Extract.exists_ := fun _ => false;
     Extract.makedirs := fun _ => Ok tt;
     Extract.open_pdf := fun _ => Ok (map (map Ok) extract_pages);
     Extract.save_pixmap := fun _ => Ok tt |}.

(** A directory on which the command has been run before: an image and
    its rotated sibling. *)
Definition rerun_glob (pattern : string) : list string :=
  if String.eqb pattern "pics/*.png"
  then ["pics/a.png"; "pics/a_rotated_clockwise.png"]
  else [].

Definition rotate_env : Rotate.Env :=
  {| Rotate.exists_ := fun _ => true;
     Rotate.glob := rerun_glob;
     Rotate.open_rotate := fun _ _ => Ok tt;
     Rotate.save_image := fun _ => Ok tt |}.

End Sample.

(** ** extract_images_from_pdf *)

Module ExtractAll.

(** The body of the loop over the images of a page. *)
Definition extract_image (env : Extract.Env) (output_folder pdf_name : string)
           (page_num img_index : nat) (img : result Extract.Pixmap)
           (image_count : nat) : M nat :=
  pix <- lift img ;;
  if (Extract.n pix - Extract.alpha pix <? 4)%Z
  then
    let img_filename := Extract.img_filename pdf_name page_num img_index in
    let img_path := Py.join output_folder img_filename in
    (if (Extract.n pix - Extract.alpha pix =? 1)%Z
     then call (WritePixmap img_path false) (Extract.save_pixmap env img_path)
     else call (WritePixmap img_path false)
               (Extract.save_pixmap env img_path)) ;;;
    print ("Extracted: " +++ img_filename) ;;;
    ret (S image_count)
  else
    let to_rgb := (Extract.n pix =? 5)%Z in
    let img_filename := Extract.img_filename pdf_name page_num img_index in
    let img_path := Py.join output_folder img_filename in
    call (WritePixmap img_path to_rgb) (Extract.save_pixmap env img_path) ;;;
    print ("Extracted: " +++ img_filename) ;;;
    ret (S image_count).

Definition extract_images_from_pdf (env : Extract.Env)
           (pdf_path output_folder : string) : M nat :=
  (if Extract.exists_ env output_folder then ret tt
   else call (MakeDirs output_folder)
             (Extract.makedirs env output_folder)) ;;;
  pdf_document <- call (OpenPdf pdf_path) (Extract.open_pdf env pdf_path) ;;
  let pdf_name := Extract.pdf_name pdf_path in
  image_count <-
    for_loop 0 pdf_document 0 (fun page_num image_list image_count =>
      for_loop 0 image_list image_count (fun img_index img image_count =>
        extract_image env output_folder pdf_name
                      page_num img_index img image_count)) ;;
  emit ClosePdf ;;;
  ret image_count.

End ExtractAll.

(** The files [pix.save] wrote, each with whether the pixmap was first
    converted to RGB. *)
Fixpoint pixmap_saves (t : trace) : list (string * bool) :=
  match t with
  | [] => []
  | WritePixmap path to_rgb :: t' => (path, to_rgb) :: pixmap_saves t'
  | _ :: t' => pixmap_saves t'
  end.

(** The folders created. *)
Fixpoint made_dirs (t : trace) : list string :=
  match t with
  | [] => []
  | MakeDirs path :: t' => path :: made_dirs t'
  | _ :: t' => made_dirs t'
  end.

(** The pages added to new documents: their widths and heights. *)
Fixpoint page_sizes (t : trace) : list (Q * Q) :=
  match t with
  | [] => []
  | NewPage w h :: t' => (w, h) :: page_sizes t'
  | _ :: t' => page_sizes t'
  end.

(** Every event a computation logs satisfies [P]. *)
Definition every (P : Event -> Prop) {A} (m : M A) : Prop :=
  Forall P (snd m).

(** ** main: the dispatch on the parsed command line *)

Module Main.

(** The namespace [parser.parse_args()] returns. *)
Record Args := {
  command : string;
  path : option string;        (* nargs="?": [None] when left out *)
  direction : string;
  no_overwrite : bool;
  output : option string;
  compression : string;
  quality : Z;
  max_width : Z;
  max_height : Z;
  min_width : Z;
  min_height : Z
}.

(** The [choices] of the parser. *)
Definition command_choices : list string :=
  ["extract"; "rotate"; "create_pdf"; "compress"; "compress_adv"; "help"].
Definition direction_choices : list string :=
  ["clockwise"; "anticlockwise"; "cw"; "acw"].
Definition compression_choices : list string := ["low"; "medium"; "high"].

(** The commands that work on a path. *)
Definition operations : list string :=
  ["extract"; "rotate"; "create_pdf"; "compress"; "compress_adv"].

(** What [parse_args] guarantees of the namespace it returns. *)
Definition parsed (args : Args) : Prop :=
  In (command args) command_choices
  /\ In (direction args) direction_choices
  /\ In (compression args) compression_choices.

(** The namespace of a command line with a command, a path and no option. *)
Definition defaults (cmd : string) (p : option string) : Args :=
  {| command := cmd; path := p; direction := "anticlockwise";
     no_overwrite := false; output := None; compression := "medium";
     quality := 30; max_width := 1200; max_height := 1600;
     min_width := 50; min_height := 50 |}.

Record World := {
  exists_ : string -> bool;   (* os.path.exists, as main asks it *)
  help_text : string;         (* the text of show_help *)
  extract_env : Extract.Env;
  rotate_env : Rotate.Env;
  create_env : CreatePdf.Env;
  compress_env : Compress.Env;
  adv_env : CompressAdv.Env
}.

Definition show_help (w : World) : M unit := print (help_text w).

(** [os.path.exists(args.path)]: [os.stat(None)] raises a TypeError,
    which [exists] does not catch. *)
Definition path_exists (w : World) (p : option string) : M bool :=
  match p with
  | Some s => ret (exists_ w s)
  | None =>
      raise ("stat: path should be string, bytes, os.PathLike or integer, "
             +++ "not NoneType")
  end.

(** [f"{p}"] of [args.path] *)
Definition show_path (p : option string) : string :=
  match p with Some s => s | None => "None" end.

(** [if x:] on what an operation returns *)
Definition truthy (r : option string) : bool :=
  match r with
  | Some s => negb (String.eqb s "")
  | None => false
  end.

Definition newline : string := String "010" "".

(** [x] of a path that [os.path.exists] has accepted *)
Definition the_path (p : option string) : string :=
  match p with Some s => s | None => "" end.

Definition main (w : World) (args : Args) : M unit :=
  if String.eqb (command args) "extract" then
    let pdf_file := path args in
    found <- path_exists w pdf_file ;;
    if negb found
    then print ("PDF file not found: " +++ show_path pdf_file)
    else
      let pdf_file := the_path pdf_file in
      let pdf_name := fst (Py.splitext (Py.basename pdf_file)) in
      let output_dir := pdf_name +++ "_images" in
      print ("Extracting images from: " +++ pdf_file) ;;;
      print ("Output folder: " +++ output_dir) ;;;
      extracted_count <-
        Extract.extract_images_with_quality_filter
          (extract_env w) pdf_file output_dir
          (min_width args) (min_height args) ;;
      print (newline +++ "Extraction complete! "
             +++ Py.str (N.of_nat extracted_count) +++ " images extracted.")
  else if String.eqb (command args) "rotate" then
    let directory_path := path args in
    found <- path_exists w directory_path ;;
    if negb found
    then print ("Directory not found: " +++ show_path directory_path)
    else
      let directory_path := the_path directory_path in
      rotated_count <-
        Rotate.rotate_images_in_directory
          (rotate_env w) directory_path (direction args)
          (negb (no_overwrite args)) ;;
      print (newline +++ "Rotation complete! "
             +++ Py.str (N.of_nat rotated_count) +++ " images rotated.")
  else if String.eqb (command args) "create_pdf" then
    let directory_path := path args in
    found <- path_exists w directory_path ;;
    if negb found
    then print ("Directory not found: " +++ show_path directory_path)
    else
      let directory_path := the_path directory_path in
      output_pdf <-
        CreatePdf.create_pdf_from_images
          (create_env w) directory_path (output args) ;;
      if truthy output_pdf
      then print (newline +++ "PDF creation complete! Created: "
                  +++ show_path output_pdf)
      else print (newline +++ "PDF creation failed!")
  else if String.eqb (command args) "compress" then
    let pdf_file := path args in
    found <- path_exists w pdf_file ;;
    if negb found
    then print ("PDF file not found: " +++ show_path pdf_file)
    else
      let pdf_file := the_path pdf_file in
      compressed_pdf <-
        Compress.compress_pdf
          (compress_env w) pdf_file (output args) (compression args) ;;
      if truthy compressed_pdf
      then print (newline +++ "PDF compression complete! Created: "
                  +++ show_path compressed_pdf)
      else print (newline +++ "PDF compression failed!")
  else if String.eqb (command args) "compress_adv" then
    let pdf_file := path args in
    found <- path_exists w pdf_file ;;
    if negb found
    then print ("PDF file not found: " +++ show_path pdf_file)
    else
      let pdf_file := the_path pdf_file in
      if negb ((1 <=? quality args) && (quality args <=? 100))%Z
      then print "Quality must be between 1 and 100"
      else if ((max_width args <? 200) || (max_height args <? 200))%Z
      then print "Maximum width and height must be at least 200 pixels"
      else
        compressed_pdf <-
          CompressAdv.compress_pdf_advanced
            (adv_env w) pdf_file (output args)
            (quality args) (max_width args) (max_height args) ;;
        if truthy compressed_pdf
        then print (newline +++ "Advanced PDF compression complete! Created: "
                    +++ show_path compressed_pdf)
        else print (newline +++ "Advanced PDF compression failed!")
  else if String.eqb (command args) "help" then
    show_help w
  else ret tt.

(** The script: [argv] is [sys.argv], [args] what [parse_args] returns
    for it. *)
Definition script (w : World) (argv : list string) (args : Args) : M unit :=
  if Nat.eqb (List.length argv) 1 then show_help w else main w args.

End Main.

(** ** Reference definitions for the further properties *)

Module Ref.

(** Where rotate_images_in_directory saves the rotation of an image. *)
Definition target (overwrite : bool) (direction_text image_path : string)
  : string :=
  if overwrite then image_path
  else Rotate.new_path image_path direction_text.

(** The images that open and rotate: those [save] is called for. *)
Definition opened (env : Rotate.Env) (angle : Z)
           (image_files : list string) : list string :=
  filter (fun image_path =>
            Spec.returned (Rotate.open_rotate env image_path angle))
         image_files.

(** The images that open, rotate and whose save returns, in either mode:
    those counted. *)
Definition rotated (env : Rotate.Env) (angle : Z) (direction_text : string)
           (overwrite : bool) (image_files : list string) : list string :=
  filter (fun image_path =>
            Spec.returned (Rotate.open_rotate env image_path angle)
            && Spec.returned
                 (Rotate.save_image
                    env (target overwrite direction_text image_path)))
         image_files.

(** The images of a page with their (page index, image index), in
    document order; [i] and [p] are the indices of the first image and of
    the first page of the lists. *)
Fixpoint page_entries (p i : nat) (images : list Extract.Pixmap)
  : list ((nat * nat) * Extract.Pixmap) :=
  match images with
  | [] => []
  | pix :: images' => ((p, i), pix) :: page_entries p (S i) images'
  end.

Fixpoint doc_entries (p : nat) (pages : list (list Extract.Pixmap))
  : list ((nat * nat) * Extract.Pixmap) :=
  match pages with
  | [] => []
  | images :: pages' => page_entries p 0 images ++ doc_entries (S p) pages'
  end.

(** The images that pass the size test. *)
Definition kept (min_width min_height : Z)
           (entries : list ((nat * nat) * Extract.Pixmap))
  : list ((nat * nat) * Extract.Pixmap) :=
  filter (fun e => Spec.large_enough min_width min_height (snd e)) entries.

(** CMYK, with or without alpha: what the filtered extraction converts. *)
Definition cmyk (pix : Extract.Pixmap) : bool :=
  (Extract.n pix - Extract.alpha pix =? 4)%Z.

(** What extract_images_from_pdf converts: five components, of which at
    least four are colorants. *)
Definition five_components (pix : Extract.Pixmap) : bool :=
  (4 <=? Extract.n pix - Extract.alpha pix)%Z && (Extract.n pix =? 5)%Z.

(** The save of an image: its path and whether it is converted first. *)
Definition save_of (converted : Extract.Pixmap -> bool)
           (pdf_path output_folder : string)
           (e : (nat * nat) * Extract.Pixmap) : string * bool :=
  (Spec.written_path pdf_path output_folder (fst e), converted (snd e)).

(** A document whose first failing image is image [length first] of page
    [length before]. *)
Definition fails_at (before : list (list Extract.Pixmap))
           (first : list Extract.Pixmap) (e : string)
           (rest : list (result Extract.Pixmap))
           (after : list (list (result Extract.Pixmap)))
  : list (list (result Extract.Pixmap)) :=
  map (map Ok) before ++ (map Ok first ++ Raise e :: rest) :: after.


(** The page create_pdf_from_images adds for an image, if any: its width
    and height in points.  The page exists once [new_page] has returned,
    whether or not the image is then inserted. *)
Definition page_of (env : CreatePdf.Env) (image_path : string)
  : list (Q * Q) :=
  match CreatePdf.open_image env image_path with
  | Ok img =>
      if (if Py.str_in (mode img) ["RGBA"; "LA"; "P"]
          then Spec.returned (CreatePdf.convert_rgb env image_path)
          else true)
         && Spec.returned (CreatePdf.encode_png env image_path)
         && Spec.returned (CreatePdf.new_page env image_path)
      then [(points (img_width img), points (img_height img))]
      else []
  | Raise _ => []
  end.

(** The path create_pdf_from_images saves to. *)
Definition chosen_output (directory_path : string)
           (output_pdf : option string) : string :=
  ensure_pdf match output_pdf with
             | None => CreatePdf.default_output directory_path
             | Some o => o
             end.


(** Every library call of a run of compress_pdf_advanced on a document of
    the pages [pages] returns, and the pages have a size. *)
Definition adv_cooperative (env : CompressAdv.Env) (input_pdf out : string)
           (pages : list CompressAdv.PageRect) : Prop :=
  CompressAdv.exists_ env input_pdf = true
  /\ (exists size,
         CompressAdv.getsize env input_pdf = Ok size /\ size <> 0%Z)
  /\ CompressAdv.open_pdf env input_pdf = Ok pages
  /\ CompressAdv.new_pdf env = Ok tt
  /\ Forall (fun page => (0 < CompressAdv.rect_width page)%Q
                         /\ (0 < CompressAdv.rect_height page)%Q) pages
  /\ (forall i scale, exists img,
         CompressAdv.get_pixmap env i scale = Ok img)
  /\ (forall i op, CompressAdv.pil env i op = Ok tt)
  /\ (forall i, CompressAdv.new_page env i = Ok tt)
  /\ (forall i, CompressAdv.insert_image env i = Ok tt)
  /\ CompressAdv.save_pdf env out = Ok tt
  /\ (exists size, CompressAdv.getsize env out = Ok size).


(** What an extraction may leave on disk: the output folder and, in it,
    files named after the PDF, the page and the image. *)
Definition extraction_event (pdf_path output_folder : string) (ev : Event)
  : Prop :=
  match ev with
  | MakeDirs d => d = output_folder
  | WritePixmap path _ =>
      exists p i, path = Spec.written_path pdf_path output_folder (p, i)
  | _ => True
  end.


(** What a pattern of [Re.atom]s says of a string, read off the syntax of
    regular expressions: some prefix of the string splits into the texts
    of the atoms. *)
Fixpoint matches (pat : list Re.atom) (s : string) : Prop :=
  match pat with
  | [] => True
  | Re.Lit text :: rest =>
      exists m r, s = m +++ r /\ Py.lower m = Py.lower text /\ matches rest r
  | Re.Star c :: rest =>
      exists m r, s = m +++ r /\ Re.all_match c m = true /\ matches rest r
  | Re.GroupPlus c :: rest =>
      exists m r,
        s = m +++ r /\ m <> "" /\ Re.all_match c m = true /\ matches rest r
  | Re.GroupAlt alts :: rest =>
      exists text m r,
        In text alts /\ s = m +++ r /\ Py.lower m = Py.lower text
        /\ matches rest r
  | Re.Eos :: rest => Re.at_end s = true /\ matches rest s
  end.

(** A text of ASCII characters only. *)
Fixpoint ascii_text (s : string) : bool :=
  match s with
  | EmptyString => true
  | String c s' => (N_of_ascii c <? 128)%N && ascii_text s'
  end.

(** A file name that follows the page numbering convention: anything,
    then [_page], digits and [_], anything, a dot and one of the seven
    extensions, in any case, on one line. *)
Definition page_name (filename : string) : Prop :=
  exists before page digits after ext tail,
    filename
    = before +++ page +++ digits +++ "_" +++ after +++ "." +++ ext +++ tail
    /\ Py.lower page = "_page"
    /\ digits <> "" /\ Py.all_digits digits = true
    /\ Py.contains "010" before = false
    /\ Py.contains "010" after = false
    /\ In (Py.lower ext) ["png"; "jpg"; "jpeg"; "gif"; "bmp"; "tiff"; "webp"]
    /\ (tail = "" \/ tail = String "010" "").

End Ref.

(** ** Sample inputs for the further properties *)

Module Cases.

(** A CMYK image without alpha. *)
Definition cmyk_scan : Extract.Pixmap :=
  {| Extract.width := 800; Extract.height := 600;
     Extract.n := 4; Extract.alpha := 0 |}.

(** A PDF of one page with an RGB image and a CMYK image. *)
Definition cmyk_pages : list (list Extract.Pixmap) :=
  [[Sample.big; cmyk_scan]].

Definition cmyk_env : Extract.Env :=
  {| Extract.exists_ := fun _ => true;
     Extract.makedirs := fun _ => Ok tt;
     Extract.open_pdf := fun _ => Ok (map (map Ok) cmyk_pages);
     Extract.save_pixmap := fun _ => Ok tt |}.

(** A PDF whose second image of page 2 cannot be decoded. *)
Definition broken_env : Extract.Env :=
  {| Extract.exists_ := fun _ => true;
     Extract.makedirs := fun _ => Ok tt;
     Extract.open_pdf := fun _ =>
       Ok (Ref.fails_at [[Sample.big]] [Sample.big] "bad xref"
                        [Ok Sample.big] [[Ok Sample.big]]);
     Extract.save_pixmap := fun _ => Ok tt |}.


(** A world in which every library call returns; [found] is what
    [os.path.exists] answers main. *)
Definition world (found : bool) : Main.World :=
  {| Main.exists_ := fun _ => found;
     Main.help_text := "usage";
     Main.extract_env := Sample.extract_env;
     Main.rotate_env := Sample.rotate_env;
     Main.create_env := Sample.create_env;
     Main.compress_env := Sample.compress_env;
     Main.adv_env := Sample.adv_env [Sample.letter] |}.

(** The directory of [Sample.rotate_env] when the first image cannot be
    saved. *)
Definition unsaved_env : Rotate.Env :=
  {| Rotate.exists_ := fun _ => true;
     Rotate.glob := Sample.rerun_glob;
     Rotate.open_rotate := fun _ _ => Ok tt;
     Rotate.save_image := fun path =>
       if String.eqb path "pics/a.png" then Raise "encoder error -2"
       else Ok tt |}.

End Cases.
(** * Properties *)

(** ** Sanity checks of the Python helpers and of the matcher *)

Example splitext_examples :
  Py.splitext "dir.d/report.pdf" = ("dir.d/report", ".pdf")
  /\ Py.splitext "a/.bashrc" = ("a/.bashrc", "")
  /\ Py.splitext "x.tar.gz" = ("x.tar", ".gz")
  /\ Py.splitext "a.b/c" = ("a.b/c", "")
  /\ Py.splitext "..." = ("...", "")
  /\ Py.splitext "..a.png" = ("..a", ".png")
  /\ Py.basename "/tmp/in/doc.pdf" = "doc.pdf"
  /\ Py.join "out" "a.png" = "out/a.png"
  /\ Py.join "out/" "a.png" = "out/a.png"
  /\ Py.str 10 = "10" /\ Py.int "007" = Some 7%N
  /\ Py.rstrip ["/"; "\"]%char "imgs//" = "imgs"
  /\ Py.upper "*.png" = "*.PNG".
Proof. repeat split; reflexivity. Qed.

(** The matcher on sample names, as [re] answers on them. *)
Example page_pattern_examples :
  Re.rmatch CreatePdf.page_pattern "doc_page12_img3.png"
  = Some ["12"; "png"]
  /\ Re.rmatch CreatePdf.page_pattern "x_page3_a_page7_img1.png"
     = Some ["7"; "png"]
  /\ Re.rmatch CreatePdf.page_pattern "_PAGE5_.JPEG" = Some ["5"; "JPEG"]
  /\ Re.rmatch CreatePdf.page_pattern "a_page007_x.webp"
     = Some ["007"; "webp"]
  /\ Re.rmatch CreatePdf.page_pattern ("a_page1_.png" +++ String "010" "")
     = Some ["1"; "png"]
  /\ Re.rmatch CreatePdf.page_pattern
               ("a_page1_b.png" +++ String "010" "x") = None
  /\ Re.rmatch CreatePdf.page_pattern "a_page12.png" = None
  /\ Re.rmatch CreatePdf.page_pattern "a_pagex_1.png" = None
  /\ Re.rmatch CreatePdf.page_pattern "photo.png" = None.
Proof. repeat split; reflexivity. Qed.

(** ** Reasoning about logged computations *)

Lemma bind_ok {A B} (m : M A) (f : A -> M B) b t :
  bind m f = (Ok b, t) ->
  exists a t1 t2, m = (Ok a, t1) /\ f a = (Ok b, t2) /\ t = t1 ++ t2.
Proof.
  unfold bind. destruct m as [[a|e] t1]; [|discriminate].
  destruct (f a) as [r t2] eqn:E. intros H. inversion H. subst.
  exists a, t1, t2. auto.
Qed.

(** The trace of a sequence whose first part returns. *)
Lemma bind_trace {A B} (m : M A) (f : A -> M B) a t :
  m = (Ok a, t) -> snd (bind m f) = t ++ snd (f a).
Proof. intros ->. unfold bind. destruct (f a). reflexivity. Qed.

Lemma call_ok {A} ev (r : result A) a t :
  call ev r = (Ok a, t) -> r = Ok a /\ t = [ev].
Proof.
  unfold call, lift, bind, emit, ret. destruct r; simpl; intros H; inversion H; auto.
Qed.


Lemma pdf_saves_app t1 t2 : pdf_saves (t1 ++ t2) = pdf_saves t1 ++ pdf_saves t2.
Proof.
  induction t1 as [|ev t1 IH]; [reflexivity|].
  destruct ev; simpl; rewrite ?IH; reflexivity.
Qed.

Lemma page_count_app t1 t2 :
  page_count (t1 ++ t2) = page_count t1 + page_count t2.
Proof.
  induction t1 as [|ev t1 IH]; [reflexivity|].
  destruct ev; simpl; rewrite ?IH; reflexivity.
Qed.

Lemma no_save_events t : existsb is_save t = false -> pdf_saves t = [].
Proof.
  induction t as [|ev t IH]; [reflexivity|].
  destruct ev; simpl; auto; discriminate.
Qed.

Lemma no_new_page_events t : existsb is_new_page t = false -> page_count t = 0.
Proof.
  induction t as [|ev t IH]; [reflexivity|].
  destruct ev; simpl; auto; discriminate.
Qed.

Section Avoiding.
Variable bad : Event -> bool.

Lemma avoiding_ret {A} (a : A) : avoiding bad (ret a).
Proof. reflexivity. Qed.

Lemma avoiding_raise {A} e : avoiding bad (@raise A e).
Proof. reflexivity. Qed.

Lemma avoiding_lift {A} (r : result A) : avoiding bad (lift r).
Proof. reflexivity. Qed.

Lemma avoiding_emit ev : bad ev = false -> avoiding bad (emit ev).
Proof. intros H. unfold avoiding. simpl. rewrite H. reflexivity. Qed.

Lemma avoiding_bind {A B} (m : M A) (f : A -> M B) :
  avoiding bad m -> (forall a, avoiding bad (f a)) -> avoiding bad (bind m f).
Proof.
  unfold avoiding, bind. intros Hm Hf. destruct m as [[a|e] t]; simpl in *.
  - specialize (Hf a). destruct (f a) as [r t']. simpl in *.
    rewrite existsb_app, Hm, Hf. reflexivity.
  - exact Hm.
Qed.

Lemma avoiding_call {A} ev (r : result A) :
  bad ev = false -> avoiding bad (call ev r).
Proof.
  intros H. unfold call. apply avoiding_bind; [apply avoiding_lift|].
  intros a. apply avoiding_bind; [apply avoiding_emit, H|].
  intros _. apply avoiding_ret.
Qed.

Lemma avoiding_try {A} (m : M A) h :
  avoiding bad m -> (forall e, avoiding bad (h e)) ->
  avoiding bad (try_except m h).
Proof.
  unfold avoiding, try_except. intros Hm Hh.
  destruct m as [[a|e] t]; simpl in *.
  - exact Hm.
  - specialize (Hh e). destruct (h e) as [r t']. simpl in *.
    rewrite existsb_app, Hm, Hh. reflexivity.
Qed.

Lemma avoiding_listen {A} (m : M A) :
  avoiding bad m -> avoiding bad (listen m).
Proof. unfold avoiding, listen. destruct m as [[a|e] t]; auto. Qed.

Lemma avoiding_for_loop {X St} (body : nat -> X -> St -> M St) xs :
  (forall i x s, avoiding bad (body i x s)) ->
  forall start s, avoiding bad (for_loop start xs s body).
Proof.
  intros Hb. induction xs as [|x xs IH]; intros start s; simpl.
  - apply avoiding_ret.
  - apply avoiding_bind; [apply Hb|]. intros s'. apply IH.
Qed.
End Avoiding.

(** Walks through a computation, leaving the goals it cannot close. *)
Ltac avoid :=
  repeat first
    [ apply avoiding_ret | apply avoiding_raise | apply avoiding_lift
    | apply avoiding_emit; reflexivity
    | apply avoiding_call; reflexivity
    | apply avoiding_bind; [|intros ?]
    | apply avoiding_try; [|intros ?]
    | apply avoiding_listen
    | match goal with
      | |- avoiding _ (if ?b then _ else _) => destruct b
      | |- avoiding _ (match ?x with _ => _ end) => destruct x
      end ].

Lemma quiet_saves {A} (m : M A) : quiet m -> pdf_saves (snd m) = [].
Proof. apply no_save_events. Qed.

(** The trace of a sequence: that of its first part, followed by that of
    the rest when the first part returns. *)
Lemma bind_trace_cases {A B} (m : M A) (f : A -> M B) :
  snd (bind m f) = snd m
  \/ exists a, fst m = Ok a /\ snd (bind m f) = snd m ++ snd (f a).
Proof.
  unfold bind. destruct m as [[a|e] t]; [|left; reflexivity].
  right. exists a. destruct (f a). auto.
Qed.

(** A loop without local variables that has a raising iteration stops at
    the first one: the iterations before it return, and the loop raises
    what it raises. *)
Lemma for_loop_first_failure {X} (body : nat -> X -> unit -> M unit) xs :
  forall start,
    (exists i x e t,
        nth_error xs i = Some x /\ body (start + i) x tt = (Raise e, t)) ->
    exists i x e t before,
      nth_error xs i = Some x
      /\ body (start + i) x tt = (Raise e, t)
      /\ for_loop start (firstn i xs) tt body = (Ok tt, before)
      /\ for_loop start xs tt body = (Raise e, before ++ t).
Proof.
  induction xs as [|y xs IH]; intros start (i & x & e & t & Hn & Hb).
  - destruct i; discriminate Hn.
  - destruct (body start y tt) as [[[]|e0] t0] eqn:E.
    + destruct i as [|i].
      * simpl in Hn. inversion Hn; subst y.
        rewrite Nat.add_0_r in Hb. congruence.
      * simpl in Hn. rewrite <- Nat.add_succ_comm in Hb.
        destruct (IH (S start)) as (i' & x' & e' & t' & before & Hn' & Hb' & Hf & Hl);
          [exists i, x, e, t; auto|].
        exists (S i'), x', e', t', (t0 ++ before).
        split; [exact Hn'|]. split; [rewrite <- Nat.add_succ_comm; exact Hb'|].
        split.
        -- cbn [firstn for_loop]. unfold bind. rewrite E, Hf. reflexivity.
        -- cbn [for_loop]. unfold bind. rewrite E, Hl, app_assoc. reflexivity.
    + exists 0, y, e0, t0, []. rewrite Nat.add_0_r.
      split; [reflexivity|]. split; [exact E|]. split; [reflexivity|].
      cbn [for_loop]. unfold bind. rewrite E. reflexivity.
Qed.

(** ** Strings *)

Lemma append_nil_r s : s +++ "" = s.
Proof. induction s as [|c s IH]; simpl; [|rewrite IH]; reflexivity. Qed.

Lemma append_assoc a b c : (a +++ b) +++ c = a +++ b +++ c.
Proof. induction a as [|x a IH]; simpl; [|rewrite IH]; reflexivity. Qed.

Lemma length_append a b : String.length (a +++ b) = String.length a + String.length b.
Proof. induction a as [|x a IH]; simpl; [|rewrite IH]; reflexivity. Qed.

Lemma append_inv_head a b c : a +++ b = a +++ c -> b = c.
Proof.
  induction a as [|x a IH]; simpl; intros H; [exact H|].
  inversion H. auto.
Qed.

Lemma lower_append a b : Py.lower (a +++ b) = Py.lower a +++ Py.lower b.
Proof. induction a as [|x a IH]; simpl; [|rewrite IH]; reflexivity. Qed.

Lemma take_drop k s : Py.take k s +++ Py.drop k s = s.
Proof.
  revert s. induction k as [|k IH]; intros [|c s]; simpl; try reflexivity.
  rewrite IH. reflexivity.
Qed.

Lemma endswith_cons x s suf :
  Py.endswith (String x s) suf
  = if String.eqb (String x s) suf then true else Py.endswith s suf.
Proof. reflexivity. Qed.

Lemma endswith_refl s : Py.endswith s s = true.
Proof. destruct s; [reflexivity|]. rewrite endswith_cons, String.eqb_refl. reflexivity. Qed.

Lemma endswith_append a b suf :
  Py.endswith b suf = true -> Py.endswith (a +++ b) suf = true.
Proof.
  intros H. induction a as [|x a IH]; [exact H|].
  cbn [String.append]. rewrite endswith_cons, IH.
  destruct (String.eqb _ suf); reflexivity.
Qed.

(** [s.endswith(suf)] says that [s] is some text followed by [suf]. *)
Lemma endswith_true s suf :
  Py.endswith s suf = true <-> exists a, s = a +++ suf.
Proof.
  split.
  - induction s as [|x s IH].
    + simpl. destruct suf; [|discriminate]. exists "". reflexivity.
    + rewrite endswith_cons.
      destruct (String.eqb_spec (String x s) suf) as [E|N].
      * exists "". exact E.
      * intros H'. destruct (IH H') as [a Ea].
        exists (String x a). simpl. rewrite Ea. reflexivity.
  - intros [a ->]. apply endswith_append, endswith_refl.
Qed.

Lemma splitext_join p : fst (Py.splitext p) +++ snd (Py.splitext p) = p.
Proof.
  unfold Py.splitext.
  destruct (Py.rfind "/" p <? Py.rfind "." p)%Z; [|apply append_nil_r].
  destruct (Py.has_non_dot _ _ _); [|apply append_nil_r].
  apply take_drop.
Qed.

Lemma ensure_pdf_endswith s : Py.endswith (Py.lower (ensure_pdf s)) ".pdf" = true.
Proof.
  unfold ensure_pdf. destruct (Py.endswith (Py.lower s) ".pdf") eqn:E; [exact E|].
  rewrite lower_append. apply endswith_append. reflexivity.
Qed.

Lemma rfind_range c s : (-1 <= Py.rfind c s)%Z.
Proof.
  induction s as [|a s IH]; simpl; [lia|].
  destruct (0 <=? Py.rfind c s)%Z eqn:E; [apply Z.leb_le in E; lia|].
  destruct (Ascii.eqb a c); lia.
Qed.

Lemma rfind_none c s : Py.rfind c s = (-1)%Z <-> Py.contains c s = false.
Proof.
  induction s as [|a s IH]; simpl; [tauto|].
  pose proof (rfind_range c s) as R.
  destruct (0 <=? Py.rfind c s)%Z eqn:E.
  - apply Z.leb_le in E. split; intros H; [lia|].
    apply orb_false_iff in H as [_ H]. apply IH in H. lia.
  - apply Z.leb_gt in E. assert (Hs : Py.rfind c s = (-1)%Z) by lia.
    apply IH in Hs. rewrite Hs, orb_false_r.
    destruct (Ascii.eqb a c); split; intros; try reflexivity; try discriminate; lia.
Qed.

(** From the last occurrence of [c] on, a string is [c] and a rest
    without [c]. *)
Lemma drop_rfind c s :
  (0 <= Py.rfind c s)%Z ->
  exists rest,
    Py.drop (Z.to_nat (Py.rfind c s)) s = String c rest
    /\ Py.contains c rest = false.
Proof.
  induction s as [|a s IH]; simpl; [lia|].
  pose proof (rfind_range c s) as R.
  destruct (0 <=? Py.rfind c s)%Z eqn:E.
  - apply Z.leb_le in E. intros _.
    replace (Z.to_nat (Py.rfind c s + 1)) with (S (Z.to_nat (Py.rfind c s))) by lia.
    simpl. apply IH, E.
  - apply Z.leb_gt in E.
    destruct (Ascii.eqb_spec a c) as [->|N]; [|lia].
    intros _. exists s. split; [reflexivity|].
    apply rfind_none. lia.
Qed.

(** After the last occurrence of [c] there is no [c]. *)
Lemma drop_after_rfind c s :
  Py.contains c (Py.drop (Z.to_nat (Py.rfind c s + 1)) s) = false.
Proof.
  pose proof (rfind_range c s) as R.
  destruct (Z.eq_dec (Py.rfind c s) (-1)) as [E|N].
  - rewrite E. simpl. destruct s; apply rfind_none; exact E.
  - destruct (drop_rfind c s) as (rest & Hd & Hc); [lia|].
    replace (Z.to_nat (Py.rfind c s + 1)) with (S (Z.to_nat (Py.rfind c s))) by lia.
    assert (G : forall k u, Py.drop (S k) u = Py.drop 1 (Py.drop k u)).
    { induction k as [|k IHk]; intros [|x u]; try reflexivity.
      change (Py.drop (S (S k)) (String x u)) with (Py.drop (S k) u).
      rewrite IHk. reflexivity. }
    rewrite G, Hd. exact Hc.
Qed.

Lemma basename_no_sep p : Py.contains "/" (Py.basename p) = false.
Proof. apply drop_after_rfind. Qed.

Lemma contains_append c a b :
  Py.contains c (a +++ b) = Py.contains c a || Py.contains c b.
Proof.
  induction a as [|x a IH]; simpl; [reflexivity|].
  rewrite IH, orb_assoc. reflexivity.
Qed.

(** The last occurrence of a character is where it is. *)
Lemma append_last_occurrence c a b u v :
  Py.contains c u = false -> Py.contains c v = false ->
  a +++ String c u = b +++ String c v -> a = b /\ u = v.
Proof.
  intros Hu Hv. revert b. induction a as [|x a IH]; intros [|y b] H; simpl in H.
  - inversion H. auto.
  - inversion H. subst. rewrite contains_append in Hu. simpl in Hu.
    rewrite Ascii.eqb_refl, orb_true_r in Hu. discriminate.
  - inversion H. subst. rewrite contains_append in Hv. simpl in Hv.
    rewrite Ascii.eqb_refl, orb_true_r in Hv. discriminate.
  - inversion H. subst. destruct (IH b H2) as [-> ->]. auto.
Qed.

Lemma append_last_char a b x y :
  a +++ String x "" = b +++ String y "" -> a = b /\ x = y.
Proof.
  revert b. induction a as [|c a IH]; intros [|d b] H; simpl in H.
  - inversion H. auto.
  - inversion H. destruct b; discriminate.
  - inversion H. destruct a; discriminate.
  - inversion H. subst. destruct (IH b H2) as [-> ->]. auto.
Qed.

(** The extension [splitext] returns is empty, or a dot and a dotless rest. *)
Lemma splitext_ext_shape p :
  snd (Py.splitext p) = ""
  \/ exists e, snd (Py.splitext p) = String "." e /\ Py.contains "." e = false.
Proof.
  unfold Py.splitext.
  destruct (Py.rfind "/" p <? Py.rfind "." p)%Z eqn:E; [|left; reflexivity].
  destruct (Py.has_non_dot _ _ _); [|left; reflexivity].
  right. apply Z.ltb_lt in E. pose proof (rfind_range "/" p).
  apply drop_rfind. lia.
Qed.

Lemma lower_char_dot a : Ascii.eqb (Py.lower_char a) "." = Ascii.eqb a ".".
Proof. destruct a as [[] [] [] [] [] [] [] []]; reflexivity. Qed.

Lemma contains_dot_lower s : Py.contains "." (Py.lower s) = Py.contains "." s.
Proof.
  induction s as [|a s IH]; simpl; [reflexivity|].
  rewrite lower_char_dot, IH. reflexivity.
Qed.

(** ** The backtracking search *)

Section SearchFacts.
Context {A : Type}.

(** A successful [c*] hands some suffix to its continuation. *)
Lemma star_exit c (k : string -> option A) s r :
  Re.star c k s = Some r -> exists s', k s' = Some r.
Proof.
  induction s as [|a s IH]; simpl; [eauto|].
  destruct (Re.cmatch c a); [|eauto].
  destruct (Re.star c k s) as [r'|] eqn:E; [|eauto].
  intros H. inversion H; subst. apply IH. reflexivity.
Qed.

(** [c*] runs over a prefix of [c]-characters when the rest succeeds
    greedily. *)
Lemma star_skip c (k : string -> option A) x y r :
  Re.all_match c x = true ->
  Re.star c k y = Some r -> Re.star c k (x +++ y) = Some r.
Proof.
  intros Hx Hy. induction x as [|a x IH]; simpl; [exact Hy|].
  simpl in Hx. apply andb_true_iff in Hx as [Ha Hx].
  rewrite Ha, (IH Hx). reflexivity.
Qed.

(** [c*] fails when its continuation fails at every position. *)
Lemma star_none c (k : string -> option A) s :
  (forall i, k (Py.drop i s) = None) -> Re.star c k s = None.
Proof.
  induction s as [|a s IH]; intros H; simpl.
  - apply (H 0).
  - rewrite IH by (intros i; apply (H (S i))).
    destruct (Re.cmatch c a); apply (H 0).
Qed.

Lemma append_snoc acc a d : (acc +++ String a "") +++ d = acc +++ String a d.
Proof. induction acc as [|x acc IH]; simpl; [|rewrite IH]; reflexivity. Qed.

(** A successful [(c+)] hands a non-empty run of [c]-characters to its
    continuation. *)
Lemma plus_exit c (k : string -> string -> option A) acc s r :
  Re.plus c k acc s = Some r ->
  exists d rest,
    d <> "" /\ Re.all_match c d = true /\ k (acc +++ d) rest = Some r.
Proof.
  revert acc. induction s as [|a s IH]; intros acc; simpl; [discriminate|].
  destruct (Re.cmatch c a) eqn:Ha; [|discriminate].
  destruct (Re.plus c k (acc +++ String a "") s) as [r'|] eqn:E.
  - intros H. inversion H; subst.
    destruct (IH _ E) as (d & rest & Hd & Hm & Hk).
    exists (String a d), rest. split; [discriminate|]. split.
    + simpl. rewrite Ha, Hm. reflexivity.
    + rewrite <- Hk, append_snoc. reflexivity.
  - intros H. exists (String a ""), s. split; [discriminate|]. split.
    + simpl. rewrite Ha. reflexivity.
    + exact H.
Qed.

(** [(c+)] takes a whole run [d] of [c]-characters when what follows is
    not in [c] and the continuation then succeeds. *)
Lemma plus_greedy c (k : string -> string -> option A) acc d rest r :
  d <> "" -> Re.all_match c d = true -> Re.stops c rest = true ->
  k (acc +++ d) rest = Some r ->
  Re.plus c k acc (d +++ rest) = Some r.
Proof.
  revert acc. induction d as [|a d IH]; intros acc Hd Hm Hs Hk.
  - contradiction.
  - simpl in Hm. apply andb_true_iff in Hm as [Ha Hm].
    simpl. rewrite Ha. rewrite <- append_snoc in Hk.
    destruct d as [|b d].
    + simpl. rewrite append_nil_r in Hk.
      assert (Hn : Re.plus c k (acc +++ String a "") rest = None).
      { destruct rest as [|x rest]; [reflexivity|].
        simpl in Hs. simpl. apply negb_true_iff in Hs. rewrite Hs.
        reflexivity. }
      rewrite Hn. exact Hk.
    + rewrite (IH (acc +++ String a "")); auto. discriminate.
Qed.

(** A successful alternation hands one of its branches on. *)
Lemma alt_exit alts (k : string -> string -> option A) s r :
  Re.alt alts k s = Some r -> exists m rest, k m rest = Some r.
Proof.
  induction alts as [|text alts IH]; simpl; [discriminate|].
  destruct (Re.lit_prefix text s) as [[m rest]|]; [|exact IH].
  destruct (k m rest) as [x|] eqn:E; [|exact IH].
  intros H. inversion H; subst. eauto.
Qed.
End SearchFacts.

(** A match only adds groups. *)
Lemma run_groups pat : forall s groups g,
  Re.run pat s groups = Some g -> exists more, g = groups ++ more.
Proof.
  induction pat as [|a pat IH]; intros s groups g; simpl.
  - intros H. inversion H. exists []. rewrite app_nil_r. reflexivity.
  - destruct a as [text|c|c|alts|].
    + destruct (Re.lit_prefix text s) as [[m r]|]; [|discriminate]. apply IH.
    + intros H. apply star_exit in H as [s' H]. eapply IH, H.
    + intros H. apply plus_exit in H as (d & rest & _ & _ & H).
      apply IH in H as [more ->]. exists (("" +++ d) :: more).
      rewrite <- app_assoc. reflexivity.
    + intros H. apply alt_exit in H as (m & rest & H).
      apply IH in H as [more ->]. exists (m :: more).
      rewrite <- app_assoc. reflexivity.
    + destruct (Re.at_end s); [|discriminate]. apply IH.
Qed.

(** *** Decimal digits *)

Lemma all_match_digits s : Re.all_match Re.CDigit s = Py.all_digits s.
Proof. induction s as [|a s IH]; simpl; [|rewrite IH]; reflexivity. Qed.

Lemma digit_not_newline a : Py.is_digit a = true -> Re.cmatch Re.CAny a = true.
Proof. destruct a as [[] [] [] [] [] [] [] []]; try discriminate; reflexivity. Qed.

Lemma digits_any s : Py.all_digits s = true -> Re.all_match Re.CAny s = true.
Proof.
  induction s as [|a s IH]; [reflexivity|].
  intros H. simpl in H. apply andb_true_iff in H as [Ha Hs].
  cbn [Re.all_match].
  rewrite (digit_not_newline a Ha), (IH Hs). reflexivity.
Qed.

Lemma str_digits n : Py.all_digits (Py.str n) = true.
Proof.
  unfold Py.str. induction (N.to_uint n); simpl; auto.
Qed.

Lemma str_nonempty n : Py.str n <> "".
Proof.
  unfold Py.str. intros H.
  pose proof (NilEmpty.usu (N.to_uint n)) as U. rewrite H in U. simpl in U.
  inversion U as [E].
  pose proof (DecimalN.Unsigned.of_to n) as O. rewrite <- E in O. simpl in O.
  subst n. discriminate E.
Qed.

(** [int(str(n))] is [n]. *)
Lemma int_str n : Py.int (Py.str n) = Some n.
Proof.
  unfold Py.int. pose proof (str_nonempty n) as Hn.
  destruct (Py.str n) eqn:E; [contradiction|]. rewrite <- E.
  rewrite str_digits. unfold Py.str. rewrite NilEmpty.usu. simpl.
  rewrite DecimalN.Unsigned.of_to. reflexivity.
Qed.

Lemma uint_of_char_digit a d :
  Py.is_digit a = true -> exists d', uint_of_char a (Some d) = Some d'.
Proof.
  destruct a as [[] [] [] [] [] [] [] []]; try discriminate;
    intros _; eexists; reflexivity.
Qed.

(** [int] is defined on every non-empty run of digits. *)
Lemma int_total s :
  s <> "" -> Py.all_digits s = true -> exists n, Py.int s = Some n.
Proof.
  intros Hn Hd. unfold Py.int. destruct s as [|a s]; [contradiction|].
  rewrite Hd.
  assert (U : forall t, Py.all_digits t = true ->
                        exists d, NilEmpty.uint_of_string t = Some d).
  { induction t as [|b t IH]; simpl; [eauto|].
    intros H. apply andb_true_iff in H as [Hb Ht].
    destruct (IH Ht) as [d ->]. apply uint_of_char_digit, Hb. }
  destruct (U _ Hd) as [d ->]. simpl. eauto.
Qed.

Lemma never_lit_drop text u i :
  Re.never_lit text u = true -> Re.lit_prefix text (Py.drop i u) = None.
Proof.
  revert u. induction i as [|i IH]; intros u H.
  - replace (Py.drop 0 u) with u by (destruct u; reflexivity).
    destruct u; simpl in H; destruct (Re.lit_prefix text _); congruence.
  - destruct u as [|a u].
    + simpl. simpl in H. destruct (Re.lit_prefix text ""); congruence.
    + simpl. apply IH. simpl in H.
      destruct (Re.lit_prefix text (String a u)); [discriminate|exact H].
Qed.

(** [c*] in front of a literal fails on a text without that literal. *)
Lemma star_lit_none c text rest g u :
  Re.never_lit text u = true ->
  Re.star c (fun r => Re.run (Re.Lit text :: rest) r g) u = None.
Proof.
  intros H. apply star_none. intros i. simpl.
  rewrite (never_lit_drop text u i H). reflexivity.
Qed.

Lemma lit_page_digit a u :
  Py.is_digit a = true -> Re.lit_prefix "_page" (String a u) = None.
Proof. destruct a as [[] [] [] [] [] [] [] []]; try discriminate; reflexivity. Qed.

Lemma never_page_digits d u :
  Py.all_digits d = true ->
  Re.never_lit "_page" (d +++ u) = Re.never_lit "_page" u.
Proof.
  induction d as [|a d IH]; [reflexivity|].
  intros H. simpl in H. apply andb_true_iff in H as [Ha Hd].
  cbn [String.append Re.never_lit]. rewrite (lit_page_digit a _ Ha). apply IH, Hd.
Qed.

Lemma run_star c rest s g :
  Re.run (Re.Star c :: rest) s g = Re.star c (fun r => Re.run rest r g) s.
Proof. reflexivity. Qed.

Lemma run_plus c rest s g :
  Re.run (Re.GroupPlus c :: rest) s g
  = Re.plus c (fun m r => Re.run rest r (g ++ [m])) "" s.
Proof. reflexivity. Qed.

Lemma run_lit text rest s g :
  Re.run (Re.Lit text :: rest) s g
  = match Re.lit_prefix text s with
    | Some (_, r) => Re.run rest r g
    | None => None
    end.
Proof. reflexivity. Qed.

Lemma star_cons c {A} (k : string -> option A) a s :
  Re.cmatch c a = true ->
  Re.star c k (String a s)
  = match Re.star c k s with Some r => Some r | None => k (String a s) end.
Proof. intros H. simpl. rewrite H. reflexivity. Qed.

(** The page pattern on a name that extraction writes. *)
Lemma page_pattern_extracted base p i :
  Re.all_match Re.CAny base = true ->
  Re.rmatch CreatePdf.page_pattern
            (base +++ "_page" +++ Py.str p +++ "_img" +++ Py.str i +++ ".png")
  = Some [Py.str p; "png"].
Proof.
  intros Hb. unfold Re.rmatch, CreatePdf.page_pattern. rewrite run_star.
  apply star_skip; [exact Hb|].
  change ("_page" +++ Py.str p +++ "_img" +++ Py.str i +++ ".png")
    with (String "_" ("page" +++ Py.str p +++ "_img" +++ Py.str i +++ ".png")).
  rewrite star_cons by reflexivity.
  rewrite star_lit_none.
  2:{ cbn [String.append Re.never_lit Re.lit_prefix]. simpl.
      rewrite never_page_digits by apply str_digits.
      cbn [String.append Re.never_lit Re.lit_prefix]. simpl.
      rewrite never_page_digits by apply str_digits.
      reflexivity. }
  rewrite run_lit.
  change (Re.lit_prefix "_page"
            (String "_" ("page" +++ Py.str p +++ "_img" +++ Py.str i +++ ".png")))
    with (Some ("_page", Py.str p +++ "_img" +++ Py.str i +++ ".png")).
  cbv iota. rewrite run_plus.
  apply plus_greedy.
  - apply str_nonempty.
  - rewrite all_match_digits. apply str_digits.
  - reflexivity.
  - rewrite run_lit.
    change (Re.lit_prefix "_" ("_img" +++ Py.str i +++ ".png"))
      with (Some ("_", ("img" +++ Py.str i) +++ ".png")).
    cbv iota. rewrite run_star.
    apply star_skip.
    + change (Re.all_match Re.CAny ("img" +++ Py.str i))
        with (Re.all_match Re.CAny (Py.str i)).
      apply digits_any, str_digits.
    + reflexivity.
Qed.

Lemma all_match_any s : Re.all_match Re.CAny s = negb (Py.contains "010" s).
Proof.
  induction s as [|a s IH]; [reflexivity|].
  cbn [Re.all_match Py.contains]. rewrite IH, negb_orb. reflexivity.
Qed.

Lemma contains_take c k s :
  Py.contains c s = false -> Py.contains c (Py.take k s) = false.
Proof.
  revert s. induction k as [|k IH]; intros [|a s]; simpl; auto.
  intros H. apply orb_false_iff in H as [Ha Hs]. rewrite Ha. apply IH, Hs.
Qed.

Lemma digit_not_sep a : Py.is_digit a = true -> Ascii.eqb a "/" = false.
Proof. destruct a as [[] [] [] [] [] [] [] []]; try discriminate; reflexivity. Qed.

Lemma digits_no_sep s : Py.all_digits s = true -> Py.contains "/" s = false.
Proof.
  induction s as [|a s IH]; [reflexivity|].
  intros H. simpl in H. apply andb_true_iff in H as [Ha Hs].
  simpl. rewrite (digit_not_sep a Ha), (IH Hs). reflexivity.
Qed.

Lemma rfind_append_last c y f :
  Py.contains c f = false ->
  Py.rfind c (y +++ String c f) = Z.of_nat (String.length y).
Proof.
  intros Hf. apply rfind_none in Hf.
  induction y as [|a y IH].
  - simpl. rewrite Hf. simpl. rewrite Ascii.eqb_refl. reflexivity.
  - cbn [String.append Py.rfind String.length]. rewrite IH.
    destruct (0 <=? Z.of_nat (String.length y))%Z eqn:E; [lia|].
    apply Z.leb_gt in E. lia.
Qed.

Lemma drop_append y f : Py.drop (String.length y) (y +++ f) = f.
Proof. induction y as [|a y IH]; simpl; [destruct f; reflexivity|exact IH]. Qed.

Lemma basename_append_sep y f :
  Py.contains "/" f = false -> Py.basename (y +++ String "/" f) = f.
Proof.
  intros Hf. unfold Py.basename. rewrite (rfind_append_last _ _ _ Hf).
  replace (Z.to_nat (Z.of_nat (String.length y) + 1))
    with (String.length (y +++ "/")) by (rewrite length_append; simpl; lia).
  replace (y +++ String "/" f) with ((y +++ "/") +++ f)
    by (rewrite append_assoc; reflexivity).
  apply drop_append.
Qed.

Lemma basename_plain f : Py.contains "/" f = false -> Py.basename f = f.
Proof.
  intros Hf. unfold Py.basename. apply rfind_none in Hf. rewrite Hf.
  destruct f; reflexivity.
Qed.

(** [basename(join(folder, name))] is [name] for a name without [/]. *)
Lemma basename_join a f :
  Py.contains "/" f = false -> Py.basename (Py.join a f) = f.
Proof.
  intros Hf. unfold Py.join.
  assert (Hs : Py.startswith f "/" = false).
  { destruct f as [|x f]; [reflexivity|]. simpl in Hf.
    apply orb_false_iff in Hf as [Hx _]. cbn [Py.startswith].
    rewrite Ascii.eqb_sym, Hx. reflexivity. }
  rewrite Hs.
  destruct (String.eqb_spec a "") as [->|Na]; simpl orb; cbv iota.
  - apply basename_plain, Hf.
  - destruct (Py.endswith a "/") eqn:E.
    + apply endswith_true in E as [y ->]. rewrite append_assoc.
      apply basename_append_sep, Hf.
    + apply basename_append_sep, Hf.
Qed.

Lemma pdf_name_no_sep pdf_path :
  Py.contains "/" (Extract.pdf_name pdf_path) = false.
Proof.
  unfold Extract.pdf_name, Py.splitext.
  pose proof (basename_no_sep pdf_path) as H.
  destruct (_ <? _)%Z; [|exact H].
  destruct (Py.has_non_dot _ _ _); [|exact H].
  apply contains_take, H.
Qed.

Lemma img_filename_no_sep base page_num img_index :
  Py.contains "/" base = false ->
  Py.contains "/" (Extract.img_filename base page_num img_index) = false.
Proof.
  intros H. unfold Extract.img_filename.
  rewrite !contains_append, H.
  rewrite !(digits_no_sep (Py.str _) (str_digits _)). reflexivity.
Qed.

Section Scan.
Import CreatePdf.

(** Group 1 of a match of the page pattern is a non-empty run of digits. *)
Lemma page_match_digits s m :
  Re.rmatch page_pattern s = Some m ->
  Re.group m 1 <> "" /\ Py.all_digits (Re.group m 1) = true.
Proof.
  unfold Re.rmatch, page_pattern. rewrite run_star. intros H.
  apply star_exit in H as [s1 H]. rewrite run_lit in H.
  destruct (Re.lit_prefix "_page" s1) as [[x s2]|]; [|discriminate].
  rewrite run_plus in H. apply plus_exit in H as (d & rest & Hd & Hm & H).
  apply run_groups in H as [more ->].
  unfold Re.group. cbn [Nat.sub app nth String.append].
  rewrite <- all_match_digits. auto.
Qed.

Lemma page_match_int s m :
  Re.rmatch page_pattern s = Some m ->
  exists n, Py.int (Re.group m 1) = Some n.
Proof.
  intros H. apply page_match_digits in H as [Hn Hd]. apply int_total; assumption.
Qed.

Lemma scan_loop files : forall start acc,
  exists warnings,
    for_loop start files acc (fun _ image_path page_images =>
      scan_one image_path page_images)
    = (Ok (acc ++ Spec.page_list files), warnings)
    /\ existsb is_new_page warnings = false
    /\ existsb is_save warnings = false.
Proof.
  induction files as [|f files IH]; intros start acc.
  - exists []. simpl. rewrite app_nil_r. auto.
  - cbn [for_loop Spec.page_list flat_map].
    unfold Spec.page_number, scan_one at 1.
    destruct (Re.rmatch page_pattern (Py.basename f)) as [m|] eqn:Hm.
    + destruct (page_match_int _ _ Hm) as [n Hn]. rewrite Hn.
      destruct (IH (S start) (acc ++ [(n, f)])) as (w & E & W1 & W2).
      exists w. unfold bind, ret. rewrite E. rewrite <- app_assoc. auto.
    + destruct (IH (S start) acc) as (w & E & W1 & W2).
      eexists. split; [|split].
      * unfold bind at 1. cbn [print emit bind ret]. rewrite E. reflexivity.
      * exact W1.
      * exact W2.
Qed.

(** The scan never raises and keeps the matching files in file order. *)
Lemma scan_pages_total files :
  exists warnings,
    scan_pages files = (Ok (Spec.page_list files), warnings)
    /\ existsb is_new_page warnings = false
    /\ existsb is_save warnings = false.
Proof. apply (scan_loop files 0 []). Qed.
End Scan.

(** ** The stable sort *)

Section Sort.
Import CreatePdf.

Lemma insert_page_perm x l : Permutation (insert_page x l) (x :: l).
Proof.
  induction l as [|y l IH]; simpl; [reflexivity|].
  destruct (fst x <=? fst y)%N; [reflexivity|].
  rewrite IH. apply perm_swap.
Qed.

Lemma sort_pages_perm l : Permutation (sort_pages l) l.
Proof.
  induction l as [|x l IH]; simpl; [reflexivity|].
  rewrite insert_page_perm, IH. reflexivity.
Qed.

Lemma insert_page_sorted x l :
  StronglySorted Spec.page_le l ->
  StronglySorted Spec.page_le (insert_page x l).
Proof.
  induction 1 as [|y l Hs IH Hall]; simpl.
  - constructor; constructor.
  - destruct (N.leb_spec (fst x) (fst y)) as [L|G].
    + constructor; [constructor; assumption|].
      constructor; [exact L|].
      eapply Forall_impl; [|exact Hall].
      intros z Hz. unfold Spec.page_le in *. lia.
    + constructor; [exact IH|].
      rewrite (insert_page_perm x l). constructor; [|exact Hall].
      unfold Spec.page_le. lia.
Qed.

Lemma sort_pages_sorted l : StronglySorted Spec.page_le (sort_pages l).
Proof.
  induction l as [|x l IH]; simpl; [constructor|].
  apply insert_page_sorted, IH.
Qed.

Lemma insert_page_stable k x l :
  Spec.with_page k (insert_page x l) = Spec.with_page k (x :: l).
Proof.
  unfold Spec.with_page.
  induction l as [|y l IH]; [reflexivity|].
  cbn [insert_page]. destruct (N.leb_spec (fst x) (fst y)) as [L|G];
    [reflexivity|].
  cbn [filter] in *. rewrite IH.
  destruct (N.eqb_spec (fst x) k), (N.eqb_spec (fst y) k);
    try reflexivity. lia.
Qed.

Lemma sort_pages_stable k l :
  Spec.with_page k (sort_pages l) = Spec.with_page k l.
Proof.
  induction l as [|x l IH]; [reflexivity|].
  cbn [sort_pages]. rewrite insert_page_stable.
  unfold Spec.with_page in *. cbn [filter]. rewrite IH. reflexivity.
Qed.

(** A list is determined by being sorted and by its pairs of each page
    number in order: every stable sort gives the same list. *)
Lemma stable_sort_unique l1 : forall l2,
  StronglySorted Spec.page_le l1 -> StronglySorted Spec.page_le l2 ->
  (forall k, Spec.with_page k l1 = Spec.with_page k l2) ->
  l1 = l2.
Proof.
  unfold Spec.with_page.
  induction l1 as [|x l1 IH]; intros l2 S1 S2 H.
  - destruct l2 as [|y l2]; [reflexivity|].
    specialize (H (fst y)). simpl in H. rewrite N.eqb_refl in H. discriminate.
  - destruct l2 as [|y l2].
    + specialize (H (fst x)). simpl in H. rewrite N.eqb_refl in H. discriminate.
    + inversion S1 as [|? ? S1' A1]; subst. inversion S2 as [|? ? S2' A2]; subst.
      assert (Hin : forall (u : N * string) l k,
                 In u (filter (fun z => N.eqb (fst z) k) l) -> In u l /\ fst u = k).
      { intros u l k Hu. apply filter_In in Hu as [? E].
        apply N.eqb_eq in E. auto. }
      assert (Lxy : (fst y <= fst x)%N).
      { pose proof (H (fst x)) as Hx. simpl in Hx. rewrite N.eqb_refl in Hx.
        assert (I : In x (filter (fun z => N.eqb (fst z) (fst x)) (y :: l2))).
        { simpl. rewrite <- Hx. left. reflexivity. }
        apply Hin in I as [[->|I] _]; [lia|].
        rewrite Forall_forall in A2. apply A2 in I. exact I. }
      assert (Lyx : (fst x <= fst y)%N).
      { pose proof (H (fst y)) as Hy. simpl in Hy. rewrite N.eqb_refl in Hy.
        assert (I : In y (filter (fun z => N.eqb (fst z) (fst y)) (x :: l1))).
        { simpl. rewrite Hy. left. reflexivity. }
        apply Hin in I as [[->|I] _]; [lia|].
        rewrite Forall_forall in A1. apply A1 in I. exact I. }
      assert (E : fst x = fst y) by lia.
      pose proof (H (fst x)) as Hx. simpl in Hx.
      rewrite <- E, N.eqb_refl in Hx. inversion Hx as [[Exy Ht]]. subst y.
      f_equal. apply IH; try assumption.
      intros k. specialize (H k). simpl in H.
      destruct (N.eqb (fst x) k); [inversion H; reflexivity|exact H].
Qed.
End Sort.

(** ** Names are told apart by their numbers *)

Lemma digits_prefix_unique d1 : forall d2 c1 c2 r1 r2,
  Py.all_digits d1 = true -> Py.all_digits d2 = true ->
  Py.is_digit c1 = false -> Py.is_digit c2 = false ->
  d1 +++ String c1 r1 = d2 +++ String c2 r2 ->
  d1 = d2 /\ String c1 r1 = String c2 r2.
Proof.
  induction d1 as [|a d1 IH]; intros [|b d2] c1 c2 r1 r2 H1 H2 N1 N2 E;
    simpl in *.
  - auto.
  - inversion E; subst. apply andb_true_iff in H2 as [H2 _]. congruence.
  - inversion E; subst. apply andb_true_iff in H1 as [H1 _]. congruence.
  - inversion E; subst.
    apply andb_true_iff in H1 as [_ H1]. apply andb_true_iff in H2 as [_ H2].
    destruct (IH d2 c1 c2 r1 r2 H1 H2 N1 N2) as [-> R]; auto.
Qed.

Lemma str_inj n m : Py.str n = Py.str m -> n = m.
Proof.
  intros E. pose proof (int_str n) as Hn. rewrite E, int_str in Hn.
  inversion Hn. reflexivity.
Qed.

Lemma img_filename_inj base p i p' i' :
  Extract.img_filename base p i = Extract.img_filename base p' i' ->
  p = p' /\ i = i'.
Proof.
  unfold Extract.img_filename. intros E.
  apply append_inv_head in E.
  change ("_page" +++ ?x) with (String "_" ("page" +++ x)) in E.
  apply (append_inv_head "_page") in E.
  change ("_img" +++ ?x) with (String "_" ("img" +++ x)) in E.
  apply digits_prefix_unique in E as [Ep E];
    try apply str_digits; try reflexivity.
  inversion E as [E'].
  change (".png") with (String "." "png") in E'.
  apply digits_prefix_unique in E' as [Ei _];
    try apply str_digits; try reflexivity.
  apply str_inj in Ep, Ei. lia.
Qed.

Lemma startswith_sep_base base x y :
  Py.startswith (base +++ String "_" x) "/"
  = Py.startswith (base +++ String "_" y) "/".
Proof. destruct base; cbn [String.append Py.startswith]; reflexivity. Qed.

Lemma join_inj a f g :
  Py.startswith f "/" = Py.startswith g "/" ->
  Py.join a f = Py.join a g -> f = g.
Proof.
  unfold Py.join. intros <-.
  destruct (Py.startswith f "/"); [auto|].
  destruct (String.eqb a "" || Py.endswith a "/").
  - apply append_inv_head.
  - intros E. apply append_inv_head in E. inversion E. reflexivity.
Qed.

Lemma written_path_inj pdf_path output_folder pi pi' :
  Spec.written_path pdf_path output_folder pi
  = Spec.written_path pdf_path output_folder pi' -> pi = pi'.
Proof.
  unfold Spec.written_path. intros E. apply join_inj in E.
  - apply img_filename_inj in E. destruct pi, pi'. simpl in E.
    destruct E; subst; reflexivity.
  - unfold Extract.img_filename. apply startswith_sep_base.
Qed.

(** *** The image indices that pass the size test *)

Lemma page_indices_in mw mh p images : forall i q j,
  In (q, j) (Spec.page_indices mw mh p i images) <->
  q = p /\ i <= j /\
  exists pix, nth_error images (j - i) = Some pix
              /\ Spec.large_enough mw mh pix = true.
Proof.
  induction images as [|pix images IH]; intros i q j; simpl.
  - split; [tauto|]. intros (_ & _ & pix & H & _).
    destruct (j - i); discriminate.
  - rewrite in_app_iff, IH. split.
    + intros [H|(-> & L & pix' & Hn & Hq)].
      * destruct (Spec.large_enough mw mh pix) eqn:Q; [|contradiction].
        destruct H as [H|[]]. inversion H; subst.
        split; [reflexivity|]. split; [lia|].
        exists pix. rewrite Nat.sub_diag. auto.
      * split; [reflexivity|]. split; [lia|]. exists pix'.
        replace (j - i) with (S (j - S i)) by lia. auto.
    + intros (-> & L & pix' & Hn & Hq).
      destruct (Nat.eq_dec j i) as [->|N].
      * rewrite Nat.sub_diag in Hn. simpl in Hn. inversion Hn; subst.
        left. rewrite Hq. left. reflexivity.
      * right. split; [reflexivity|]. split; [lia|]. exists pix'.
        replace (j - i) with (S (j - S i)) in Hn by lia. auto.
Qed.

Lemma page_indices_nodup mw mh p images : forall i,
  NoDup (Spec.page_indices mw mh p i images).
Proof.
  induction images as [|pix images IH]; intros i; simpl; [constructor|].
  destruct (Spec.large_enough mw mh pix); simpl; [|apply IH].
  constructor; [|apply IH].
  rewrite page_indices_in. lia.
Qed.

Lemma doc_indices_in mw mh pages : forall p q j,
  In (q, j) (Spec.doc_indices mw mh p pages) <->
  p <= q /\
  exists images pix,
    nth_error pages (q - p) = Some images
    /\ nth_error images j = Some pix
    /\ Spec.large_enough mw mh pix = true.
Proof.
  induction pages as [|images pages IH]; intros p q j; simpl.
  - split; [tauto|]. intros (_ & images & pix & H & _).
    destruct (q - p); discriminate.
  - rewrite in_app_iff, page_indices_in, IH. split.
    + intros [(-> & _ & pix & Hn & Hq)|(L & images' & pix & Hp & Hn & Hq)].
      * split; [lia|]. exists images, pix. rewrite Nat.sub_diag.
        rewrite Nat.sub_0_r in Hn. auto.
      * split; [lia|]. exists images', pix.
        replace (q - p) with (S (q - S p)) by lia. auto.
    + intros (L & images' & pix & Hp & Hn & Hq).
      destruct (Nat.eq_dec q p) as [->|N].
      * rewrite Nat.sub_diag in Hp. simpl in Hp. inversion Hp; subst.
        left. split; [reflexivity|]. split; [lia|]. exists pix.
        rewrite Nat.sub_0_r. auto.
      * right. split; [lia|]. exists images', pix.
        replace (q - p) with (S (q - S p)) in Hp by lia. auto.
Qed.

Lemma doc_indices_nodup mw mh pages : forall p,
  NoDup (Spec.doc_indices mw mh p pages).
Proof.
  induction pages as [|images pages IH]; intros p; simpl; [constructor|].
  apply NoDup_app.
  - apply page_indices_nodup.
  - apply IH.
  - intros [q j] H1 H2. apply page_indices_in in H1 as [-> _].
    apply doc_indices_in in H2 as [L _]. lia.
Qed.

Lemma pixmap_writes_app t1 t2 :
  pixmap_writes (t1 ++ t2) = pixmap_writes t1 ++ pixmap_writes t2.
Proof.
  induction t1 as [|ev t1 IH]; [reflexivity|].
  destruct ev; simpl; rewrite ?IH; reflexivity.
Qed.

Section Extraction.
Import Extract.
Variable env : Env.
Variables pdf_path output_folder : string.
Variables min_width min_height : Z.
Hypothesis saves : forall path, save_pixmap env path = Ok tt.

Lemma image_loop p images : forall i count,
  exists t,
    for_loop i (map Ok images) count (fun img_index img image_count =>
      extract_image env output_folder (pdf_name pdf_path)
                    min_width min_height p img_index img image_count)
    = (Ok (count
           + List.length (Spec.page_indices min_width min_height p i images)),
       t)
    /\ pixmap_writes t
       = map (Spec.written_path pdf_path output_folder)
             (Spec.page_indices min_width min_height p i images).
Proof.
  induction images as [|pix images IH]; intros i count.
  - exists []. simpl. rewrite Nat.add_0_r. auto.
  - cbn [map for_loop Spec.page_indices].
    unfold extract_image at 1. unfold Spec.large_enough.
    cbn [lift bind]. cbv zeta.
    destruct ((min_width <=? width pix) && (min_height <=? height pix))%Z.
    + rewrite saves.
      destruct (IH (S i) (S count)) as (t & E & W).
      eexists. split.
      * cbn [call lift bind emit ret print app]. rewrite E.
        cbn [app List.length]. rewrite Nat.add_succ_r. reflexivity.
      * cbn [pixmap_writes app map]. rewrite W. reflexivity.
    + destruct (IH (S i) count) as (t & E & W).
      eexists. split.
      * cbn [call lift bind emit ret print app]. rewrite E. cbn [app].
        reflexivity.
      * cbn [pixmap_writes]. exact W.
Qed.

Lemma page_loop pages : forall p count,
  exists t,
    for_loop p (map (map Ok) pages) count (fun page_num image_list image_count =>
      for_loop 0 image_list image_count (fun img_index img image_count =>
        extract_image env output_folder (pdf_name pdf_path)
                      min_width min_height page_num img_index img
                      image_count))
    = (Ok (count
           + List.length (Spec.doc_indices min_width min_height p pages)),
       t)
    /\ pixmap_writes t
       = map (Spec.written_path pdf_path output_folder)
             (Spec.doc_indices min_width min_height p pages).
Proof.
  induction pages as [|images pages IH]; intros p count.
  - exists []. simpl. rewrite Nat.add_0_r. auto.
  - cbn [map for_loop Spec.doc_indices].
    destruct (image_loop p images 0 count) as (t1 & E1 & W1).
    rewrite E1. cbn [bind].
    destruct (IH (S p) (count + List.length
                (Spec.page_indices min_width min_height p 0 images)))
      as (t2 & E2 & W2).
    rewrite E2. exists (t1 ++ t2). split.
    + rewrite length_app, Nat.add_assoc. reflexivity.
    + rewrite pixmap_writes_app, W1, W2, map_app. reflexivity.
Qed.
End Extraction.

(** ** C1: the render scale of compress_pdf_advanced *)

Section Scale.
Import CompressAdv.
Open Scope Q_scope.

Lemma gt_true a b : gt a b = true <-> b < a.
Proof.
  unfold gt. rewrite negb_true_iff. split; intro H.
  - apply Qnot_le_lt. intro L. apply Qle_bool_iff in L. congruence.
  - destruct (Qle_bool a b) eqn:E; [|reflexivity].
    apply Qle_bool_iff in E. lra.
Qed.

Lemma gt_false a b : gt a b = false <-> a <= b.
Proof.
  unfold gt. rewrite negb_false_iff. apply Qle_bool_iff.
Qed.

Lemma min3_Qmin a b c : min3 a b c == Qmin (Qmin a b) c.
Proof.
  unfold min3, lt.
  destruct (gt a b) eqn:E1.
  - apply gt_true in E1. rewrite (Q.min_r a b) by lra.
    destruct (gt b c) eqn:E2.
    + apply gt_true in E2. rewrite Q.min_r by lra. reflexivity.
    + apply gt_false in E2. rewrite Q.min_l by lra. reflexivity.
  - apply gt_false in E1. rewrite (Q.min_l a b) by lra.
    destruct (gt a c) eqn:E2.
    + apply gt_true in E2. rewrite Q.min_r by lra. reflexivity.
    + apply gt_false in E2. rewrite Q.min_l by lra. reflexivity.
Qed.

Lemma div_lt_1 m p : 0 < p -> m < p -> m / p < 1.
Proof. intros Hp H. apply Qlt_shift_div_r; lra. Qed.

Lemma div_ge_1 m p : 0 < p -> p <= m -> 1 <= m / p.
Proof. intros Hp H. apply Qle_shift_div_l; lra. Qed.

(** One axis of the computation: the quotient when the page is larger
    than the limit, 1 otherwise; in both cases [min 1 (limit/page)]. *)
Lemma axis_scale (m : Z) (p : Q) :
  0 < p ->
  exists s,
    (if gt p (inject_Z m) then div (inject_Z m) p else ret 1) = (Ok s, [])
    /\ s == Qmin (inject_Z m / p) 1
    /\ (p <= inject_Z m -> s = 1).
Proof.
  intros Hp. destruct (gt p (inject_Z m)) eqn:E.
  - apply gt_true in E. unfold div.
    destruct (Qeq_bool p 0) eqn:Z0.
    + apply Qeq_bool_eq in Z0. lra.
    + exists (inject_Z m / p). split; [reflexivity|]. split.
      * pose proof (div_lt_1 _ _ Hp E). rewrite Q.min_l by lra. reflexivity.
      * intros. lra.
  - apply gt_false in E. exists 1. split; [reflexivity|]. split.
    + pose proof (div_ge_1 _ _ Hp E). rewrite Q.min_r by lra. reflexivity.
    + reflexivity.
Qed.

(** The scale computation on a page of positive size. *)
Lemma scale_factor_min (max_width max_height : Z) (page_width page_height : Q) :
  0 < page_width -> 0 < page_height ->
  exists scale,
    scale_factor max_width max_height page_width page_height = (Ok scale, [])
    /\ scale == Qmin (Qmin (inject_Z max_width / page_width)
                           (inject_Z max_height / page_height)) 1
    /\ scale <= 1
    /\ (page_width <= inject_Z max_width ->
        page_height <= inject_Z max_height -> scale == 1).
Proof.
  intros Hw Hh.
  destruct (axis_scale max_width page_width Hw) as (sx & Ex & Hx & Fx).
  destruct (axis_scale max_height page_height Hh) as (sy & Ey & Hy & Fy).
  exists (min3 sx sy 2).
  assert (Hs : min3 sx sy 2 == Qmin (Qmin (inject_Z max_width / page_width)
                           (inject_Z max_height / page_height)) 1).
  { rewrite min3_Qmin, Hx, Hy.
    set (a := inject_Z max_width / page_width).
    set (b := inject_Z max_height / page_height).
    pose proof (Q.min_spec a 1) as H1. revert H1.
    generalize (Qmin a 1). intros a1 H1.
    pose proof (Q.min_spec b 1) as H2. revert H2.
    generalize (Qmin b 1). intros b1 H2.
    pose proof (Q.min_spec a1 b1) as H3. revert H3.
    generalize (Qmin a1 b1). intros m1 H3.
    pose proof (Q.min_spec m1 2) as H4. revert H4.
    generalize (Qmin m1 2). intros m2 H4.
    pose proof (Q.min_spec a b) as H5. revert H5.
    generalize (Qmin a b). intros ab H5.
    pose proof (Q.min_spec ab 1) as H6. revert H6.
    generalize (Qmin ab 1). intros r H6.
    lra. }
  split; [|split; [exact Hs|split]].
  - unfold scale_factor. rewrite Ex. cbn. rewrite Ey. reflexivity.
  - rewrite Hs. apply Q.le_min_r.
  - intros Lw Lh. rewrite (Fx Lw), (Fy Lh). reflexivity.
Qed.

Lemma no_render_events t : existsb is_render t = false -> renders t = [].
Proof.
  induction t as [|ev t IH]; [reflexivity|].
  destruct ev; simpl; auto; discriminate.
Qed.

(** A page is rendered at most once, at the scale computed for it. *)
Lemma process_page_renders env q mw mh total i page scale :
  scale_factor mw mh (rect_width page) (rect_height page) = (Ok scale, []) ->
  renders (snd (process_page env q mw mh total i page))
  = if Spec.returned (get_pixmap env i scale) then [(i, scale)] else [].
Proof.
  intros Hs. unfold process_page.
  rewrite (bind_trace _ _ _ _ Hs). cbn [app].
  destruct (get_pixmap env i scale) as [img|e]; [|reflexivity].
  rewrite (bind_trace _ _ img [GetPixmap i scale]) by reflexivity.
  cbn [app renders Spec.returned]. f_equal.
  apply no_render_events.
  match goal with
  | |- existsb is_render (snd ?m) = false => change (avoiding is_render m)
  end.
  unfold pil_call. avoid.
Qed.

(** C1, as the code has it.  Every page of positive width and height that
    compress_pdf_advanced processes is rendered at most once, and exactly
    once when the rendering returns, at the scale
    [min(max_width/page_width, max_height/page_height, 1.0)]: the guards on
    lines 449-450 keep each axis at 1.0 unless the page is larger than the
    limit, so that the cap 2.0 never binds.  The scale is at most 1.0
    (pages are only ever downscaled) and it is exactly 1.0 when the page
    fits. *)
Theorem render_scale env q max_width max_height total i page :
  0 < rect_width page -> 0 < rect_height page ->
  let t := snd (process_page env q max_width max_height total i page) in
  exists scale,
    (forall j s, In (j, s) (renders t) -> j = i /\ s = scale)
    /\ (forall img, get_pixmap env i scale = Ok img ->
                    renders t = [(i, scale)])
    /\ scale == Qmin (Qmin (inject_Z max_width / rect_width page)
                           (inject_Z max_height / rect_height page)) 1
    /\ scale <= 1
    /\ (rect_width page <= inject_Z max_width ->
        rect_height page <= inject_Z max_height -> scale == 1).
Proof.
  intros Hw Hh t.
  destruct (scale_factor_min max_width max_height _ _ Hw Hh)
    as (scale & Es & Hmin & Hle & Hfit).
  exists scale.
  pose proof (process_page_renders env q _ _ total i page scale Es) as R.
  fold t in R. split; [|split; [|auto]].
  - intros j s Hin. rewrite R in Hin.
    destruct (Spec.returned _); [|contradiction].
    destruct Hin as [Hin|[]]. inversion Hin. auto.
  - intros img Himg. rewrite R, Himg. reflexivity.
Qed.

Lemma render_scale_witness :
  exists scale,
    renders (snd (process_page (Sample.adv_env [Sample.tabloid]) 30 1200 1600
                               1 0 Sample.tabloid))
    = [(0%nat, scale)]
    /\ scale == Qmin (Qmin (inject_Z 1200 / 1584) (inject_Z 1600 / 2448)) 1.
Proof.
  destruct (render_scale (Sample.adv_env [Sample.tabloid]) 30 1200 1600
                         1 0 Sample.tabloid)
    as (scale & _ & H1 & H2 & _); [reflexivity|reflexivity|].
  exists scale. split; [|exact H2].
  apply (H1 Sample.image). reflexivity.
Defined.

(** C1 as stated fails: a US Letter page (612 x 792 points) under the
    default limits 1200 x 1600 is rendered at scale 1, while the formula
    of the claim gives 1200/612. *)
Lemma letter_is_not_rendered_at_claimed_min :
  renders (snd (process_page (Sample.adv_env [Sample.letter]) 30 1200 1600
                             1 0 Sample.letter))
  = [(0%nat, 1)]
  /\ Spec.claimed_scale 1200 1600 612 792 == 100 # 51
  /\ ~ 1 == Spec.claimed_scale 1200 1600 612 792.
Proof.
  split; [reflexivity|]. split; [reflexivity|].
  intro H. vm_compute in H. discriminate H.
Qed.

End Scale.

(** ** C2: the quality thresholds of compress_pdf_advanced *)

Section Quality.
Import CompressAdv.

Lemma scale_factor_silent mw mh pw ph r t :
  scale_factor mw mh pw ph = (r, t) -> t = [].
Proof.
  unfold scale_factor, div, bind, ret, raise.
  repeat match goal with
         | |- context [if ?b then _ else _] => destruct b
         end; intros H; inversion H; reflexivity.
Qed.

Lemma pil_call_ok env i op t :
  pil_call env i op = (Ok tt, t) -> t = [Pil op].
Proof. intros H. apply call_ok in H. tauto. Qed.



End Quality.

(** ** C6: the presets of compress_pdf *)

Section Presets.
Import Compress.

Lemma lookup_other level :
  level <> "low" -> level <> "medium" -> level <> "high" ->
  lookup level compression_settings = None.
Proof.
  intros H1 H2 H3. unfold compression_settings, lookup.
  apply String.eqb_neq in H1, H2, H3. rewrite H1, H2, H3. reflexivity.
Qed.

(** Whatever the library calls answer, a run of compress_pdf with the
    settings [kw] saves at most once, to the computed path with [kw]. *)
Lemma compress_pdf_saves env input_pdf output_pdf level kw :
  lookup level compression_settings = Some kw ->
  let r := compress_pdf env input_pdf output_pdf level in
  let out := output_path input_pdf output_pdf "_compressed" in
  pdf_saves (snd r) = [] \/ pdf_saves (snd r) = [(out, kw)].
Proof.
  intros Hl. unfold compress_pdf. rewrite Hl.
  destruct (exists_ env input_pdf); [|left; reflexivity].
  cbn [negb]. cbv iota.
  unfold ratio.
  destruct (getsize env input_pdf) as [size|e]; [|left; reflexivity].
  destruct (open_pdf env input_pdf) as [[]|e]; [|left; reflexivity].
  destruct (save_pdf env (output_path input_pdf output_pdf "_compressed") kw)
    as [[]|e]; [|left; reflexivity].
  right.
  destruct (getsize env (output_path input_pdf output_pdf "_compressed"))
    as [csize|e]; [|reflexivity].
  cbn. destruct (size =? 0)%Z; reflexivity.
Qed.

Lemma compress_pdf_runs env input_pdf output_pdf level kw :
  lookup level compression_settings = Some kw ->
  let r := compress_pdf env input_pdf output_pdf level in
  let out := output_path input_pdf output_pdf "_compressed" in
  Spec.cooperative env input_pdf out kw ->
  fst r = Ok (Some out) /\ pdf_saves (snd r) = [(out, kw)].
Proof.
  intros Hl r out (Hex & (size & Hs & Hnz) & Ho & Hsave & (csize & Hc)).
  subst r out. unfold compress_pdf. rewrite Hl, Hex. cbn [negb]. cbv iota.
  unfold ratio. rewrite Hs, Ho, Hsave.
  destruct (String.eqb_spec input_pdf (output_path input_pdf output_pdf "_compressed")) as [E|N].
  - rewrite <- E in *. rewrite Hs. cbn.
    apply Z.eqb_neq in Hnz. rewrite Hnz. split; reflexivity.
  - rewrite Hc. cbn. apply Z.eqb_neq in Hnz. rewrite Hnz. split; reflexivity.
Qed.

Lemma saved_with_intro env input_pdf output_pdf level kw :
  lookup level compression_settings = Some kw ->
  Spec.saved_with env input_pdf output_pdf level kw.
Proof.
  intros Hl. split.
  - apply compress_pdf_saves, Hl.
  - apply compress_pdf_runs, Hl.
Qed.

(** C6.  compress_pdf with level [low] saves with garbage=1 and clean
    only (no deflate key); with [medium], with deflate, garbage=2 and
    clean; with [high], with deflate, garbage=4, clean and pretty: a run
    saves at most once, to the computed output path with exactly these
    keyword arguments, and it does save and return that path when every
    library call returns.  With any other level it returns [None] after
    printing one line, without a single library call. *)
Theorem compress_pdf_levels env input_pdf output_pdf level :
  (level = "low" ->
   Spec.saved_with env input_pdf output_pdf level
              [("garbage", VInt 1); ("clean", VBool true)])
  /\ (level = "medium" ->
      Spec.saved_with env input_pdf output_pdf level
                 [("deflate", VBool true); ("garbage", VInt 2);
                  ("clean", VBool true)])
  /\ (level = "high" ->
      Spec.saved_with env input_pdf output_pdf level
                 [("deflate", VBool true); ("garbage", VInt 4);
                  ("clean", VBool true); ("pretty", VBool true)])
  /\ (level <> "low" -> level <> "medium" -> level <> "high" ->
      fst (compress_pdf env input_pdf output_pdf level) = Ok None
      /\ exists msg,
          snd (compress_pdf env input_pdf output_pdf level)
          = [Print (Text msg)]).
Proof.
  split; [|split; [|split]].
  1-3: intros ->; apply saved_with_intro; reflexivity.
  intros H1 H2 H3. unfold compress_pdf.
  rewrite (lookup_other level H1 H2 H3).
  destruct (exists_ env input_pdf); (split; [reflexivity|eexists; reflexivity]).
Qed.


Lemma compress_pdf_levels_witness :
  compress_pdf Sample.compress_env "doc.pdf" None "low"
  = (Ok (Some "doc_compressed.pdf"),
     [Print (SizeMB "Original PDF size" 4096);
      OpenPdf "doc.pdf";
      Print (Text "Compressing PDF with low compression...");
      SavePdf "doc_compressed.pdf" [("garbage", VInt 1); ("clean", VBool true)];
      ClosePdf;
      Print (SizeMB "Compressed PDF size" 4096);
      Print (Ratio 4096 4096);
      Print (Text "Compressed PDF saved as: doc_compressed.pdf")])
  /\ fst (compress_pdf Sample.compress_env "doc.pdf" None "fast") = Ok None.
Proof.
  destruct (compress_pdf_levels Sample.compress_env "doc.pdf" None "fast")
    as (_ & _ & _ & Hother).
  split; [reflexivity|].
  apply Hother; discriminate.
Defined.
End Presets.

(** ** C4: the default output path of compress_pdf *)

Section DefaultOutput.
Import Compress.

Lemma generated_name_split input_pdf suffix :
  generated_name input_pdf suffix
  = fst (Py.splitext input_pdf) +++ suffix +++ snd (Py.splitext input_pdf).
Proof. unfold generated_name. destruct (Py.splitext input_pdf). reflexivity. Qed.

(** The generated name passes the suffix check exactly when the input's
    extension is [.pdf] in some letter case. *)
Lemma generated_name_endswith input_pdf :
  Py.endswith (Py.lower (generated_name input_pdf "_compressed")) ".pdf"
  = String.eqb (Py.lower (snd (Py.splitext input_pdf))) ".pdf".
Proof.
  rewrite generated_name_split.
  set (name := fst (Py.splitext input_pdf)).
  destruct (splitext_ext_shape input_pdf) as [E|(e & E & He)]; rewrite E.
  - simpl (String.eqb _ _).
    destruct (Py.endswith _ _) eqn:H; [|reflexivity].
    apply endswith_true in H as [a Ha].
    rewrite append_nil_r, lower_append in Ha.
    change (Py.lower "_compressed") with ("_compresse" +++ "d") in Ha.
    change ".pdf" with (".pd" +++ "f") in Ha.
    rewrite <- !append_assoc in Ha.
    apply append_last_char in Ha as [_ Ha]. discriminate Ha.
  - rewrite !lower_append.
    change (Py.lower (String "." e)) with (String "." (Py.lower e)).
    rewrite <- append_assoc.
    destruct (String.eqb_spec (String "." (Py.lower e)) ".pdf") as [Q|N].
    + rewrite Q. apply endswith_append. reflexivity.
    + destruct (Py.endswith _ _) eqn:H; [|reflexivity].
      apply endswith_true in H as [a Ha].
      change ".pdf" with (String "." "pdf") in Ha.
      apply append_last_occurrence in Ha as [_ Ha];
        [|rewrite contains_dot_lower; exact He|reflexivity].
      rewrite Ha in N. contradiction.
Qed.

Lemma compress_pdf_save_path env input_pdf output_pdf level path kw :
  In (path, kw) (pdf_saves (snd (compress_pdf env input_pdf output_pdf level))) ->
  path = output_path input_pdf output_pdf "_compressed".
Proof.
  destruct (lookup level compression_settings) as [kw'|] eqn:Hl.
  - destruct (compress_pdf_saves env input_pdf output_pdf level kw' Hl)
      as [E|E]; rewrite E; simpl; [tauto|].
    intros [H|[]]. inversion H. reflexivity.
  - unfold compress_pdf. rewrite Hl.
    destruct (exists_ env input_pdf); simpl; tauto.
Qed.

(** C4, as the code has it.  Without an output path compress_pdf saves
    to [name + "_compressed" + ext], where [(name, ext)] is [splitext] of
    the input path, followed by [".pdf"] unless [ext] already is [.pdf]
    in some letter case.  So the output path always ends in [.pdf] up to
    letter case, and it is [name + "_compressed.pdf"] when the input's
    extension is [.pdf] or empty. *)
Theorem default_output_path input_pdf :
  let name := fst (Py.splitext input_pdf) in
  let ext := snd (Py.splitext input_pdf) in
  let out := output_path input_pdf None "_compressed" in
  name +++ ext = input_pdf
  /\ Py.endswith (Py.lower out) ".pdf" = true
  /\ (Py.lower ext = ".pdf" -> out = name +++ "_compressed" +++ ext)
  /\ (Py.lower ext <> ".pdf" ->
      out = name +++ "_compressed" +++ ext +++ ".pdf")
  /\ (ext = ".pdf" \/ ext = "" -> out = name +++ "_compressed.pdf")
  /\ (forall env level path kw,
        In (path, kw)
           (pdf_saves (snd (compress_pdf env input_pdf None level))) ->
        path = out).
Proof.
  intros name ext out.
  assert (Hout : out = if String.eqb (Py.lower ext) ".pdf"
                       then name +++ "_compressed" +++ ext
                       else name +++ "_compressed" +++ ext +++ ".pdf").
  { subst out. unfold output_path, ensure_pdf.
    rewrite generated_name_endswith. fold ext.
    rewrite generated_name_split. fold name ext.
    destruct (String.eqb _ _); [reflexivity|].
    rewrite !append_assoc. reflexivity. }
  split; [apply splitext_join|].
  split; [apply ensure_pdf_endswith|].
  split; [|split; [|split]].
  - intros E. rewrite Hout, E. reflexivity.
  - intros N. rewrite Hout. apply String.eqb_neq in N. rewrite N. reflexivity.
  - intros [E|E]; rewrite Hout, E; reflexivity.
  - intros env level path kw. apply compress_pdf_save_path.
Qed.

Lemma default_output_path_witness :
  output_path "reports/q3.pdf" None "_compressed"
  = "reports/q3" +++ "_compressed.pdf".
Proof.
  destruct (default_output_path "reports/q3.pdf") as (_ & _ & _ & _ & H & _).
  apply H. left. reflexivity.
Defined.

(** C4 as stated fails: for the input [scan.PDF] the name is [scan], yet
    the run saves to, and returns, [scan_compressed.PDF] and not
    [scan_compressed.pdf]; for [notes.txt] the default is
    [notes_compressed.txt.pdf]. *)
Lemma default_output_keeps_extension :
  fst (Py.splitext "scan.PDF") = "scan"
  /\ fst (compress_pdf Sample.compress_env "scan.PDF" None "medium")
     = Ok (Some "scan_compressed.PDF")
  /\ pdf_saves (snd (compress_pdf Sample.compress_env "scan.PDF" None "medium"))
     = [("scan_compressed.PDF",
         [("deflate", VBool true); ("garbage", VInt 2); ("clean", VBool true)])]
  /\ "scan_compressed.PDF" <> "scan" +++ "_compressed.pdf"
  /\ output_path "notes.txt" None "_compressed" = "notes_compressed.txt.pdf".
Proof. repeat split; try reflexivity. discriminate. Qed.
End DefaultOutput.

(** ** C7: a failing page aborts compress_pdf_advanced *)

Section Abort.
Import CompressAdv.

Lemma scale_factor_quiet mw mh pw ph : quiet (scale_factor mw mh pw ph).
Proof. unfold quiet, scale_factor, div. avoid. Qed.

Lemma process_page_quiet env q mw mh total i page :
  quiet (process_page env q mw mh total i page).
Proof.
  unfold quiet, process_page, pil_call.
  apply avoiding_bind; [apply scale_factor_quiet|]. intros scale. avoid.
Qed.

Lemma renders_app t1 t2 : renders (t1 ++ t2) = renders t1 ++ renders t2.
Proof.
  induction t1 as [|ev t1 IH]; [reflexivity|].
  destruct ev; simpl; rewrite ?IH; reflexivity.
Qed.

(** Processing page [i] renders no other page. *)
Lemma process_page_renders_index env q mw mh total i page j s :
  In (j, s) (renders (snd (process_page env q mw mh total i page))) -> j = i.
Proof.
  destruct (scale_factor mw mh (rect_width page) (rect_height page))
    as [[scale|e] t0] eqn:Es.
  - pose proof (scale_factor_silent _ _ _ _ _ _ Es). subst t0.
    rewrite (process_page_renders env q mw mh total i page scale Es).
    destruct (Spec.returned _); [|contradiction].
    intros [H|[]]. inversion H. reflexivity.
  - pose proof (scale_factor_silent _ _ _ _ _ _ Es). subst t0.
    unfold process_page. rewrite Es. contradiction.
Qed.

(** The page loop renders the pages of its own range only. *)
Lemma page_loop_renders env q mw mh total pages : forall start j s,
  In (j, s)
     (renders (snd (for_loop start pages tt (fun page_num page _ =>
                      process_page env q mw mh total page_num page)))) ->
  start <= j < start + List.length pages.
Proof.
  induction pages as [|page pages IH]; intros start j s; [contradiction|].
  cbn [for_loop List.length].
  destruct (bind_trace_cases
              (process_page env q mw mh total start page)
              (fun s' => for_loop (S start) pages s' (fun page_num page _ =>
                           process_page env q mw mh total page_num page)))
    as [E|([] & _ & E)]; rewrite E.
  - intros H. apply process_page_renders_index in H. lia.
  - rewrite renders_app, in_app_iff. intros [H|H].
    + apply process_page_renders_index in H. lia.
    + apply IH in H. lia.
Qed.

(** C7.  When the input exists and opens, and the processing of some
    page raises (at any library call of the loop body), then
    compress_pdf_advanced returns [None], the last thing it does is to
    print the error, no document is saved on the way, and no page after
    a failing one is rendered. *)
Theorem page_failure_aborts env input_pdf output_pdf q mw mh pages :
  exists_ env input_pdf = true ->
  open_pdf env input_pdf = Ok pages ->
  (exists i page e t,
      nth_error pages i = Some page
      /\ process_page env q mw mh (List.length pages) i page = (Raise e, t)) ->
  exists e t,
    compress_pdf_advanced env input_pdf output_pdf q mw mh
    = (Ok None, t ++ [Print (Text ("Error in advanced compression: " +++ e))])
    /\ pdf_saves t = []
    /\ exists i page e' t',
        nth_error pages i = Some page
        /\ process_page env q mw mh (List.length pages) i page
           = (Raise e', t')
        /\ forall j s, In (j, s) (renders t) -> j <= i.
Proof.
  intros Hex Hopen Hfail.
  destruct (for_loop_first_failure
              (fun page_num page _ =>
                 process_page env q mw mh (List.length pages) page_num page)
              pages 0 Hfail)
    as (i & page & e & ti & before & Hn & Hi & Hb & Hl).
  cbn [Nat.add] in Hi.
  assert (Qb : pdf_saves before = []).
  { pose proof (avoiding_for_loop is_save
                  (fun page_num page (_ : unit) =>
                     process_page env q mw mh (List.length pages) page_num page)
                  (firstn i pages)
                  (fun n p s => process_page_quiet env q mw mh _ n p)
                  0 tt) as Q.
    apply quiet_saves in Q. rewrite Hb in Q. exact Q. }
  assert (Qi : pdf_saves ti = []).
  { pose proof (process_page_quiet env q mw mh (List.length pages) i page) as Q.
    apply quiet_saves in Q. rewrite Hi in Q. exact Q. }
  assert (Rb : forall j s, In (j, s) (renders (before ++ ti)) -> j <= i).
  { intros j s. rewrite renders_app, in_app_iff. intros [H|H].
    - pose proof (page_loop_renders env q mw mh (List.length pages)
                    (firstn i pages) 0 j s) as R.
      rewrite Hb in R. apply R in H.
      pose proof (firstn_le_length i pages). lia.
    - pose proof (process_page_renders_index env q mw mh (List.length pages)
                    i page j s) as R.
      rewrite Hi in R. apply R in H. lia. }
  unfold compress_pdf_advanced. rewrite Hex. cbn [negb]. cbv iota zeta.
  match goal with
  | |- exists e t, try_except ?m ?h = _ /\ _ =>
      assert (Hm : exists e t,
                 m = (Raise e, t) /\ pdf_saves t = []
                 /\ forall j s, In (j, s) (renders t) -> j <= i)
  end.
  { destruct (getsize env input_pdf) as [size|e1].
    2:{ exists e1, []. repeat split. intros j s []. }
    rewrite Hopen. destruct (new_pdf env) as [[]|e2].
    2:{ exists e2. eexists. split; [reflexivity|]. split; [reflexivity|].
        intros j s []. }
    exists e. eexists. split; [|split].
    - cbn [lift bind emit ret print call app]. rewrite Hl. reflexivity.
    - cbn [pdf_saves]. rewrite pdf_saves_app, Qb, Qi. reflexivity.
    - cbn [renders]. exact Rb. }
  destruct Hm as (e0 & t0 & Em & Q0 & R0). exists e0, t0. rewrite Em.
  split; [reflexivity|]. split; [exact Q0|].
  exists i, page, e, ti. auto.
Qed.

Lemma page_failure_aborts_witness :
  exists e t,
    compress_pdf_advanced Sample.adv_env_page2_fails "in.pdf" None 30 1200 1600
    = (Ok None, t ++ [Print (Text ("Error in advanced compression: " +++ e))])
    /\ pdf_saves t = [].
Proof.
  destruct (page_failure_aborts Sample.adv_env_page2_fails "in.pdf" None
              30 1200 1600 [Sample.letter; Sample.letter; Sample.letter])
    as (e & t & E & Q & _).
  - reflexivity.
  - reflexivity.
  - exists 1, Sample.letter. eexists. eexists. split; reflexivity.
  - exists e, t. split; [exact E|exact Q].
Defined.

(** The run of the witness: the first page is rendered and inserted, the
    second raises, the third is never touched and nothing is saved. *)
Example page2_fails_run :
  let r := compress_pdf_advanced Sample.adv_env_page2_fails "in.pdf" None
             30 1200 1600 in
  fst r = Ok None
  /\ renders (snd r) = [(0, 1%Q)]
  /\ page_count (snd r) = 1
  /\ pdf_saves (snd r) = []
  /\ last (snd r) NewPdf
     = Print (Text "Error in advanced compression: cannot render page").
Proof. repeat split; reflexivity. Qed.
End Abort.

(** ** C10: what extraction writes is input for the assembly *)

Section RoundTrip.
Import CreatePdf.

(** Where the slip below does not bite.  For every PDF path whose base
    name contains no line feed, every page index and image index, the file
    name that extraction writes matches the page pattern, group 1 is the
    decimal text of the 1-based page number, [int] of it is that page
    number, and the scan of the written path yields exactly (page number,
    path). *)
Lemma extracted_name_matches pdf_path output_folder page_num img_index :
  let base := Extract.pdf_name pdf_path in
  let filename := Extract.img_filename base page_num img_index in
  let path := Py.join output_folder filename in
  Py.contains "010" base = false ->
  Py.basename path = filename
  /\ Re.rmatch page_pattern filename
     = Some [Py.str (N.of_nat (page_num + 1)); "png"]
  /\ option_map (fun m => Py.int (Re.group m 1))
                (Re.rmatch page_pattern filename)
     = Some (Some (N.of_nat (page_num + 1)))
  /\ scan_pages [path] = (Ok [(N.of_nat (page_num + 1), path)], []).
Proof.
  intros base filename path Hnl.
  assert (Hb : Py.basename path = filename).
  { apply basename_join, img_filename_no_sep, pdf_name_no_sep. }
  assert (Hm : Re.rmatch page_pattern filename
               = Some [Py.str (N.of_nat (page_num + 1)); "png"]).
  { apply page_pattern_extracted. rewrite all_match_any, Hnl. reflexivity. }
  split; [exact Hb|]. split; [exact Hm|]. split.
  - rewrite Hm. cbn [option_map Re.group Nat.sub nth]. rewrite int_str.
    reflexivity.
  - unfold scan_pages. cbn [for_loop]. unfold scan_one. rewrite Hb, Hm.
    unfold Re.group. cbn [Nat.sub nth]. rewrite int_str. reflexivity.
Qed.

(** C10.  The code misses what the claim and the documented pattern
    ([*_page{N}_*.ext], in the docstring and in the message of line 239)
    say: the pattern is compiled without [re.DOTALL], so its leading [.*]
    does not cross a line feed.  For a PDF whose base name has two lines,
    the name that extraction writes for page 1, image 1 is not matched,
    and the scan of create_pdf_from_images skips the file with a warning
    and finds no page. *)
Lemma two_line_base_name_is_skipped :
  let pdf_path := "in/" +++ Sample.two_lines +++ ".pdf" in
  let filename := Extract.img_filename (Extract.pdf_name pdf_path) 0 0 in
  Extract.pdf_name pdf_path = Sample.two_lines
  /\ filename = Sample.two_lines +++ "_page1_img1.png"
  /\ Re.rmatch page_pattern filename = None
  /\ fst (scan_pages [Py.join "out" filename]) = Ok [].
Proof. repeat split; vm_compute; reflexivity. Qed.
End RoundTrip.

(** ** C3: create_pdf_from_images orders the pages by number, stably *)

Section PageOrder.
Import CreatePdf.

(** When some file matches, create_pdf_from_images is the assembly of the
    sorted pairs, after the lines printed on the way there. *)
Lemma create_pdf_assembles_sorted env directory_path output_pdf :
  exists_ env directory_path = true ->
  Spec.page_list (find_image_files (glob env) directory_path) <> [] ->
  exists pre,
    create_pdf_from_images env directory_path output_pdf
    = (fst (assemble env
              (sort_pages
                 (Spec.page_list (find_image_files (glob env) directory_path)))
              (ensure_pdf match output_pdf with
                          | None => default_output directory_path
                          | Some o => o
                          end)),
       pre ++ snd (assemble env
                     (sort_pages
                        (Spec.page_list
                           (find_image_files (glob env) directory_path)))
                     (ensure_pdf match output_pdf with
                                 | None => default_output directory_path
                                 | Some o => o
                                 end))).
Proof.
  intros Hex Hne. unfold create_pdf_from_images. rewrite Hex.
  cbn [negb]. cbv iota zeta.
  destruct (find_image_files (glob env) directory_path) as [|f files];
    [contradiction Hne; reflexivity|].
  destruct (scan_pages_total (f :: files)) as (w & E & _).
  rewrite E. clear E.
  destruct (Spec.page_list (f :: files)) as [|first rest];
    [contradiction Hne; reflexivity|].
  cbn [bind print emit].
  destruct (assemble env _ _) as [ra ta]. cbn [fst snd app].
  eexists (w ++ [_; _]). rewrite <- app_assoc. reflexivity.
Qed.

(** C3.  For every directory, the scan returns the (page number, path)
    pairs of the files that match the page pattern, in file order.  The
    list that create_pdf_from_images then assembles the pages from,
    [sort_pages] of it, is ascending in the page number, is a permutation
    of the pairs (duplicate page numbers stay separate entries), keeps the
    pairs of each page number in their file order, and is the only list
    with these properties.  Numbers are compared as numbers: page1, page2,
    page10. *)
Theorem pages_sorted_stably env directory_path output_pdf :
  let image_files := find_image_files (glob env) directory_path in
  let page_images := sort_pages (Spec.page_list image_files) in
  (exists warnings,
      scan_pages image_files = (Ok (Spec.page_list image_files), warnings))
  /\ (exists_ env directory_path = true ->
      Spec.page_list image_files <> [] ->
      exists pre output,
        create_pdf_from_images env directory_path output_pdf
        = (fst (assemble env page_images output),
           pre ++ snd (assemble env page_images output)))
  /\ StronglySorted Spec.page_le page_images
  /\ Permutation page_images (Spec.page_list image_files)
  /\ (forall k,
        Spec.with_page k page_images
        = Spec.with_page k (Spec.page_list image_files))
  /\ (forall l,
        StronglySorted Spec.page_le l ->
        (forall k, Spec.with_page k l
                   = Spec.with_page k (Spec.page_list image_files)) ->
        l = page_images)
  /\ sort_pages (Spec.page_list
                   ["d/a_page2_x.png"; "d/a_page1_x.png"; "d/a_page10_x.png"])
     = [(1%N, "d/a_page1_x.png"); (2%N, "d/a_page2_x.png");
        (10%N, "d/a_page10_x.png")].
Proof.
  intros image_files page_images.
  split; [|split; [|split; [|split; [|split; [|split]]]]].
  - destruct (scan_pages_total image_files) as (w & E & _). exists w. exact E.
  - intros Hex Hne.
    destruct (create_pdf_assembles_sorted env directory_path output_pdf
                                          Hex Hne) as [pre E].
    exists pre. eexists. exact E.
  - apply sort_pages_sorted.
  - apply sort_pages_perm.
  - intros k. apply sort_pages_stable.
  - intros l Hs Hk. apply stable_sort_unique.
    + exact Hs.
    + apply sort_pages_sorted.
    + intros k. rewrite Hk. symmetry. apply sort_pages_stable.
  - vm_compute. reflexivity.
Qed.

Lemma pages_sorted_stably_witness :
  sort_pages (Spec.page_list (find_image_files Sample.scan_glob "scans"))
  = [(1%N, "scans/a_page1_x.png"); (2%N, "scans/a_page2_x.png");
     (10%N, "scans/a_page10_x.png")]
  /\ exists pre output,
      create_pdf_from_images Sample.create_env "scans" None
      = (fst (assemble Sample.create_env
                (sort_pages
                   (Spec.page_list (find_image_files Sample.scan_glob "scans")))
                output),
         pre ++ snd (assemble Sample.create_env
                       (sort_pages
                          (Spec.page_list
                             (find_image_files Sample.scan_glob "scans")))
                       output)).
Proof.
  split; [vm_compute; reflexivity|].
  destruct (pages_sorted_stably Sample.create_env "scans" None)
    as (_ & H & _).
  apply H; [reflexivity|discriminate].
Defined.

(** The run on the directory of the example: the pages are added in the
    order 1, 2, 10 and the document is saved under the default name. *)
Example create_pdf_example_run :
  let r := create_pdf_from_images Sample.create_env "scans" None in
  fst r = Ok (Some "scans_combined.pdf")
  /\ Spec.added_pages (snd r)
     = ["Added page 1: a_page1_x.png"; "Added page 2: a_page2_x.png";
        "Added page 10: a_page10_x.png"]
  /\ page_count (snd r) = 3
  /\ pdf_saves (snd r) = [("scans_combined.pdf", [])].
Proof. repeat split; vm_compute; reflexivity. Qed.

(** Equal page numbers keep the order of the files. *)
Example duplicate_pages_keep_file_order :
  sort_pages (Spec.page_list
                ["d/z_page3_b.png"; "d/y_page1_.jpg"; "d/x_page3_a.png";
                 "d/notes.png"])
  = [(1%N, "d/y_page1_.jpg"); (3%N, "d/z_page3_b.png");
     (3%N, "d/x_page3_a.png")].
Proof. vm_compute. reflexivity. Qed.
End PageOrder.

(** ** C8: create_pdf_from_images never saves an empty document *)

Section ZeroPages.
Import CreatePdf.

Lemma add_page_quiet env page_num image_path :
  quiet (add_page env page_num image_path).
Proof. unfold quiet, add_page. avoid. Qed.

Lemma page_loop_quiet env pages start :
  quiet (for_loop start pages tt (fun _ page _ =>
           add_page env (fst page) (snd page))).
Proof. apply avoiding_for_loop. intros. apply add_page_quiet. Qed.

Lemma assemble_cases env page_images output_pdf :
  let r := assemble env page_images output_pdf in
  (fst r = Ok None /\ pdf_saves (snd r) = []) \/ page_count (snd r) <> 0.
Proof.
  unfold assemble.
  destruct (new_pdf env) as [[]|e]; [|left; split; reflexivity].
  pose proof (page_loop_quiet env page_images 0) as Q.
  apply quiet_saves in Q.
  destruct (for_loop 0 page_images tt _) as [[[]|e] tl].
  - cbn [call lift bind emit ret listen app fst snd try_except].
    simpl in Q.
    destruct (Nat.eqb (page_count tl) 0) eqn:E.
    + left. cbn. rewrite ?app_nil_r, ?pdf_saves_app, Q. split; reflexivity.
    + right. apply Nat.eqb_neq in E.
      destruct (save_pdf env output_pdf) as [[]|e]; cbn;
        rewrite ?app_nil_r, ?page_count_app; lia.
  - left. cbn. simpl in Q. rewrite ?app_nil_r, ?pdf_saves_app, Q.
    split; reflexivity.
Qed.

Lemma create_pdf_cases env directory_path output_pdf :
  let r := create_pdf_from_images env directory_path output_pdf in
  (fst r = Ok None /\ pdf_saves (snd r) = []) \/ page_count (snd r) <> 0.
Proof.
  unfold create_pdf_from_images.
  destruct (exists_ env directory_path); [|left; split; reflexivity].
  cbn [negb]. cbv iota.
  destruct (find_image_files (glob env) directory_path) as [|f files] eqn:Ef;
    [left; split; reflexivity|].
  destruct (scan_pages_total (f :: files)) as (w & E & W1 & W2).
  rewrite E. clear E.
  destruct (Spec.page_list (f :: files)) as [|first rest]; cbn [bind].
  - left. cbn. rewrite pdf_saves_app, (no_save_events w W2). split; reflexivity.
  - cbv zeta.
    set (A := assemble env (sort_pages (first :: rest)) _).
    pose proof (assemble_cases env (sort_pages (first :: rest)) _ : 
                  let r := A in _) as C.
    cbv zeta in C. clearbody A. destruct A as [ra ta].
    cbn [print emit bind fst snd app] in *.
    destruct C as [[C1 C2]|C].
    + left. subst ra. split; [reflexivity|].
      rewrite pdf_saves_app, (no_save_events w W2). simpl. exact C2.
    + right. rewrite page_count_app. simpl. lia.
Qed.

Lemma add_page_decode_fails env page_num image_path e :
  open_image env image_path = Raise e ->
  add_page env page_num image_path
  = (Ok tt, [Print (Text ("Error processing image "
                          +++ Py.basename image_path +++ ": " +++ e))]).
Proof. intros H. unfold add_page. rewrite H. reflexivity. Qed.

Lemma create_pdf_no_page env directory_path output_pdf :
  (forall image_path, exists e, open_image env image_path = Raise e) ->
  page_count (snd (create_pdf_from_images env directory_path output_pdf)) = 0.
Proof.
  intros Hfail. apply no_new_page_events.
  change (avoiding is_new_page
            (create_pdf_from_images env directory_path output_pdf)).
  unfold create_pdf_from_images.
  destruct (negb (exists_ env directory_path)); [avoid|].
  destruct (find_image_files (glob env) directory_path) as [|f files];
    [avoid|].
  apply avoiding_bind.
  - destruct (scan_pages_total (f :: files)) as (w & E & W1 & W2).
    unfold avoiding. rewrite E. exact W1.
  - intros [|first rest]; [avoid|].
    unfold assemble. avoid.
    apply avoiding_for_loop. intros i [n path] []. cbn [fst snd].
    destruct (Hfail path) as [e He].
    rewrite (add_page_decode_fails _ _ _ _ He). reflexivity.
Qed.

(** C8.  When the document has no page at the end of the page loop,
    create_pdf_from_images returns [None] and saves nothing; so whenever
    it saves, the document has at least one page.  In particular, when no
    image can be opened, it returns [None] and saves nothing. *)
Theorem no_zero_page_pdf env directory_path output_pdf :
  let r := create_pdf_from_images env directory_path output_pdf in
  (page_count (snd r) = 0 -> fst r = Ok None /\ pdf_saves (snd r) = [])
  /\ (pdf_saves (snd r) <> [] -> 1 <= page_count (snd r))
  /\ ((forall image_path, exists e, open_image env image_path = Raise e) ->
      fst r = Ok None /\ pdf_saves (snd r) = []).
Proof.
  intros r. pose proof (create_pdf_cases env directory_path output_pdf) as C.
  fold r in C. split; [|split].
  - intros Hz. destruct C as [C|C]; [exact C|contradiction].
  - intros Hs. destruct C as [[_ C]|C]; [contradiction|lia].
  - intros Hfail.
    pose proof (create_pdf_no_page env directory_path output_pdf Hfail) as Hz.
    fold r in Hz. destruct C as [C|C]; [exact C|contradiction].
Qed.

Lemma no_zero_page_pdf_witness :
  fst (create_pdf_from_images Sample.create_env_corrupt "scans" None) = Ok None
  /\ pdf_saves (snd (create_pdf_from_images Sample.create_env_corrupt
                                            "scans" None)) = [].
Proof.
  destruct (no_zero_page_pdf Sample.create_env_corrupt "scans" None)
    as (_ & _ & H).
  apply H. intros image_path. eexists. reflexivity.
Defined.

(** The run of the witness: three errors, no page, no save. *)
Example all_corrupt_run :
  let r := create_pdf_from_images Sample.create_env_corrupt "scans" None in
  fst r = Ok None
  /\ page_count (snd r) = 0
  /\ pdf_saves (snd r) = []
  /\ last (snd r) NewPdf = ClosePdf.
Proof. repeat split; vm_compute; reflexivity. Qed.
End ZeroPages.

(** ** C5: extraction with the size filter *)

Section ExtractionSpec.
Import Extract.

(** C5.  When the output folder exists or can be created, the PDF opens,
    every image decodes and every save returns, the extraction returns
    the number of files it wrote; the files written are exactly the
    images whose width and height both reach the minimum, in document
    order, each under [{pdf name}_page{p+1}_img{i+1}.png] in the output
    folder for its 0-based page index p and image index i, all different;
    so an image is written if and only if it passes the size test. *)
Theorem extraction_filter env pdf_path output_folder min_width min_height
        (pages : list (list Pixmap)) :
  (exists_ env output_folder = true \/ makedirs env output_folder = Ok tt) ->
  open_pdf env pdf_path = Ok (map (map Ok) pages) ->
  (forall path, save_pixmap env path = Ok tt) ->
  let written := Spec.written_path pdf_path output_folder in
  let idx := Spec.doc_indices min_width min_height 0 pages in
  exists t,
    extract_images_with_quality_filter env pdf_path output_folder
                                       min_width min_height
    = (Ok (List.length (pixmap_writes t)), t)
    /\ pixmap_writes t = map written idx
    /\ NoDup (pixmap_writes t)
    /\ (forall p i,
          written (p, i)
          = Py.join output_folder
              (pdf_name pdf_path +++ "_page" +++ Py.str (N.of_nat (p + 1))
               +++ "_img" +++ Py.str (N.of_nat (i + 1)) +++ ".png"))
    /\ (forall p i images pix,
          nth_error pages p = Some images -> nth_error images i = Some pix ->
          (In (written (p, i)) (pixmap_writes t)
           <-> (min_width <= width pix /\ min_height <= height pix)%Z)).
Proof.
  intros Hdir Hopen Hsave written idx.
  destruct (page_loop env pdf_path output_folder min_width min_height
                      Hsave pages 0 0) as (tl & El & Wl).
  fold written idx in El, Wl. simpl in El.
  assert (Hrun : exists pre,
             extract_images_with_quality_filter env pdf_path output_folder
                                                min_width min_height
             = (Ok (List.length idx), pre ++ tl ++ [ClosePdf])
             /\ pixmap_writes pre = []).
  { unfold extract_images_with_quality_filter. rewrite Hopen.
    destruct (exists_ env output_folder) eqn:Ex.
    - exists [OpenPdf pdf_path]. split; [|reflexivity].
      cbn [call lift bind emit ret app]. rewrite El. reflexivity.
    - destruct Hdir as [Hdir|Hdir]; [discriminate|]. rewrite Hdir.
      exists [MakeDirs output_folder; OpenPdf pdf_path]. split; [|reflexivity].
      cbn [call lift bind emit ret app]. rewrite El. reflexivity. }
  destruct Hrun as (pre & Erun & Wpre).
  assert (W : pixmap_writes (pre ++ tl ++ [ClosePdf]) = map written idx).
  { rewrite !pixmap_writes_app, Wpre, Wl. simpl. apply app_nil_r. }
  exists (pre ++ tl ++ [ClosePdf]). rewrite W. split; [|split; [|split; [|split]]].
  - rewrite length_map. exact Erun.
  - reflexivity.
  - apply Finite.Injective_map_NoDup.
    + intros x y. apply written_path_inj.
    + apply doc_indices_nodup.
  - reflexivity.
  - intros p i images pix Hp Hi. split.
    + intros Hin. apply in_map_iff in Hin as ([q j] & E & Hin).
      apply written_path_inj in E. inversion E; subst q j.
      apply doc_indices_in in Hin as (_ & images' & pix' & Hp' & Hi' & Hq).
      rewrite Nat.sub_0_r in Hp'. rewrite Hp in Hp'. inversion Hp'; subst.
      rewrite Hi in Hi'. inversion Hi'; subst.
      unfold Spec.large_enough in Hq. apply andb_true_iff in Hq. lia.
    + intros [Hw Hh]. apply in_map. apply doc_indices_in. split; [lia|].
      exists images, pix. rewrite Nat.sub_0_r. repeat split; try assumption.
      unfold Spec.large_enough. apply andb_true_iff. lia.
Qed.

Lemma extraction_filter_witness :
  exists t,
    extract_images_with_quality_filter Sample.extract_env "in/doc.pdf"
                                       "doc_images" 50 50
    = (Ok (List.length (pixmap_writes t)), t)
    /\ pixmap_writes t
       = ["doc_images/doc_page1_img1.png"; "doc_images/doc_page2_img1.png"].
Proof.
  destruct (extraction_filter Sample.extract_env "in/doc.pdf" "doc_images"
                              50 50 Sample.extract_pages)
    as (t & E & W & _).
  - right. reflexivity.
  - reflexivity.
  - intros path. reflexivity.
  - exists t. split; [exact E|]. rewrite W. reflexivity.
Defined.

(** The run of the witness: the icon on page 1 is skipped and not
    counted. *)
Example extraction_example_run :
  let r := extract_images_with_quality_filter Sample.extract_env "in/doc.pdf"
             "doc_images" 50 50 in
  fst r = Ok 2
  /\ pixmap_writes (snd r)
     = ["doc_images/doc_page1_img1.png"; "doc_images/doc_page2_img1.png"]
  /\ In (Print (Text "Skipped small image: 640x16 (minimum: 50x50)")) (snd r).
Proof.
  repeat split; try (vm_compute; reflexivity).
  vm_compute. tauto.
Qed.
End ExtractionSpec.

(** ** C9: rotation next to the originals *)

Section Siblings.
Import Rotate.

Lemma new_path_split image_path direction_text :
  new_path image_path direction_text
  = fst (Py.splitext image_path) +++ "_rotated_" +++ direction_text
    +++ snd (Py.splitext image_path).
Proof. unfold new_path. destruct (Py.splitext image_path). reflexivity. Qed.

(** The sibling name is longer than the name of the source. *)
Lemma new_path_fresh image_path direction_text :
  new_path image_path direction_text <> image_path.
Proof.
  intros E. apply (f_equal String.length) in E.
  rewrite new_path_split in E.
  rewrite <- (splitext_join image_path) in E at 3.
  rewrite !length_append in E. simpl in E. lia.
Qed.

Lemma parse_direction_text direction angle direction_text :
  parse_direction direction = Some (angle, direction_text) ->
  (angle = (-90)%Z /\ direction_text = "clockwise")
  \/ (angle = 90%Z /\ direction_text = "anticlockwise").
Proof.
  unfold parse_direction.
  destruct (Py.str_in _ ["clockwise"; "cw"]).
  - intros H. inversion H. auto.
  - destruct (Py.str_in _ _); intros H; inversion H. auto.
Qed.

(** C9.  The code does not keep what the claim, the docstring ("create
    new ones") and the help text ("Create new files instead of
    overwriting originals") say.  With overwrite=False the rotation of
    an image is saved under its sibling name without a look at what is
    there.  On a directory on which the command has been run before,
    [save] is called on [a_rotated_clockwise.png] with the rotation of
    [a.png]: that file is itself one of the images of the run, so an
    original is overwritten, and no new file appears for [a.png]. *)
Lemma rerun_overwrites_a_source :
  let image_files := find_image_files Sample.rerun_glob "pics" in
  let r := rotate_images_in_directory Sample.rotate_env "pics" "cw" false in
  image_files = ["pics/a.png"; "pics/a_rotated_clockwise.png"]
  /\ image_writes (snd r)
     = [("pics/a_rotated_clockwise.png", "pics/a.png");
        ("pics/a_rotated_clockwise_rotated_clockwise.png",
         "pics/a_rotated_clockwise.png")]
  /\ In "pics/a_rotated_clockwise.png" image_files
  /\ In "pics/a_rotated_clockwise.png" (map fst (image_writes (snd r)))
  /\ fst r = Ok 2.
Proof.
  repeat split; try (vm_compute; reflexivity); vm_compute; tauto.
Qed.
End Siblings.

(** * Rotation in either mode *)

Section RotateAny.
Import Rotate.

Lemma filter_length_mono {A} (f g : A -> bool) l :
  (forall x, f x = true -> g x = true) ->
  List.length (filter f l) <= List.length (filter g l).
Proof.
  intros H. induction l as [|x l IH]; simpl; [lia|].
  destruct (f x) eqn:F.
  - rewrite (H x F). simpl. lia.
  - destruct (g x); simpl; lia.
Qed.

Lemma image_writes_concat t1 t2 :
  image_writes (t1 ++ t2) = image_writes t1 ++ image_writes t2.
Proof.
  induction t1 as [|ev t1 IH]; [reflexivity|].
  destruct ev; simpl; rewrite ?IH; reflexivity.
Qed.

(** One image: [save] is called when the image opens and rotates, on the
    target of the mode; the count goes up by one when it returns. *)
Lemma rotate_one_cases env angle direction_text (overwrite : bool)
      image_path count :
  exists t,
    rotate_one env angle direction_text overwrite image_path count
    = (Ok (count + List.length
                     (Ref.rotated env angle direction_text overwrite
                                  [image_path])), t)
    /\ image_writes t
       = map (fun p => (Ref.target overwrite direction_text p, p))
             (Ref.opened env angle [image_path]).
Proof.
  unfold rotate_one, attempt, Ref.rotated, Ref.opened, Ref.target.
  cbn [filter].
  destruct (open_rotate env image_path angle) as [[]|e1];
    cbn [Spec.returned andb].
  - destruct overwrite; cbv beta iota zeta.
    + destruct (save_image env image_path) as [[]|e2];
        cbn [Spec.returned]; eexists; split;
        cbn [List.length map]; rewrite ?Nat.add_0_r, ?Nat.add_1_r; reflexivity.
    + destruct (save_image env (new_path image_path direction_text))
        as [[]|e2];
        cbn [Spec.returned]; eexists; split;
        cbn [List.length map]; rewrite ?Nat.add_0_r, ?Nat.add_1_r; reflexivity.
  - eexists. split; cbn [List.length map]; rewrite ?Nat.add_0_r; reflexivity.
Qed.

Lemma rotated_cons env angle direction_text overwrite f files :
  Ref.rotated env angle direction_text overwrite (f :: files)
  = Ref.rotated env angle direction_text overwrite [f]
    ++ Ref.rotated env angle direction_text overwrite files.
Proof.
  unfold Ref.rotated. cbn [filter].
  destruct (_ && _); reflexivity.
Qed.

Lemma opened_cons env angle f files :
  Ref.opened env angle (f :: files)
  = Ref.opened env angle [f] ++ Ref.opened env angle files.
Proof.
  unfold Ref.opened. cbn [filter].
  destruct (Spec.returned _); reflexivity.
Qed.

(** The loop over the image files, in either mode. *)
Lemma rotate_loop_any env angle direction_text overwrite image_files :
  forall start count,
  exists t,
    for_loop start image_files count (fun _ image_path rotated_count =>
      rotate_one env angle direction_text overwrite image_path rotated_count)
    = (Ok (count + List.length
                     (Ref.rotated env angle direction_text overwrite
                                  image_files)), t)
    /\ image_writes t
       = map (fun p => (Ref.target overwrite direction_text p, p))
             (Ref.opened env angle image_files).
Proof.
  induction image_files as [|f files IH]; intros start count.
  - exists []. simpl. rewrite Nat.add_0_r. auto.
  - cbn [for_loop]. rewrite rotated_cons, opened_cons.
    destruct (rotate_one_cases env angle direction_text overwrite f count)
      as (t1 & E1 & W1).
    destruct (IH (S start)
                 (count + List.length
                            (Ref.rotated env angle direction_text overwrite
                                         [f])))
      as (t2 & E2 & W2).
    exists (t1 ++ t2). split.
    + unfold bind. rewrite E1, E2, length_app, Nat.add_assoc. reflexivity.
    + rewrite image_writes_concat, W1, W2, map_app. reflexivity.
Qed.

(** The whole function on an existing directory with a recognized
    direction. *)
Lemma rotate_run env directory_path direction overwrite angle direction_text :
  exists_ env directory_path = true ->
  parse_direction direction = Some (angle, direction_text) ->
  let image_files := find_image_files (glob env) directory_path in
  let r := rotate_images_in_directory env directory_path direction
                                      overwrite in
  fst r = Ok (List.length
                (Ref.rotated env angle direction_text overwrite image_files))
  /\ image_writes (snd r)
     = map (fun p => (Ref.target overwrite direction_text p, p))
           (Ref.opened env angle image_files).
Proof.
  intros Hex Hdir image_files r. subst r image_files.
  unfold rotate_images_in_directory. rewrite Hex, Hdir.
  cbn [negb]. cbv iota zeta.
  destruct (find_image_files (glob env) directory_path) as [|f files].
  - split; reflexivity.
  - destruct (rotate_loop_any env angle direction_text overwrite
                              (f :: files) 0 0) as (t & E & W).
    rewrite E. split; [reflexivity|exact W].
Qed.

Lemma rotated_opened env angle direction_text overwrite image_files :
  incl (Ref.rotated env angle direction_text overwrite image_files)
       (Ref.opened env angle image_files).
Proof.
  intros p H. apply filter_In in H as [H Q]. apply filter_In.
  apply andb_true_iff in Q. tauto.
Qed.

(** X1. With [overwrite=True] (the default of the function and of the
    command line) on an existing directory and a recognized direction,
    rotate_images_in_directory calls [save] once for each image file
    that opens and rotates, in the order of the scan, with the image's
    own path as target, and on no other path; the count it returns is
    the number of these images whose save returned.  An image whose save
    raised has been a target all the same, and is not counted. *)
Theorem rotate_in_place env directory_path direction angle direction_text :
  exists_ env directory_path = true ->
  parse_direction direction = Some (angle, direction_text) ->
  let image_files := find_image_files (glob env) directory_path in
  let opened := Ref.opened env angle image_files in
  let rotated := Ref.rotated env angle direction_text true image_files in
  let r := rotate_images_in_directory env directory_path direction true in
  fst r = Ok (List.length rotated)
  /\ image_writes (snd r) = map (fun p => (p, p)) opened
  /\ (forall target, In target (map fst (image_writes (snd r))) ->
                     In target image_files)
  /\ (forall image_path,
        In image_path opened
        <-> In image_path image_files
            /\ open_rotate env image_path angle = Ok tt)
  /\ (forall image_path,
        In image_path rotated
        <-> In image_path opened /\ save_image env image_path = Ok tt).
Proof.
  intros Hex Hdir image_files opened rotated r.
  destruct (rotate_run env directory_path direction true angle direction_text
                       Hex Hdir) as [Hc Hw].
  fold image_files in Hc, Hw. fold opened rotated r in Hc, Hw.
  split; [exact Hc|]. split; [exact Hw|]. split; [|split].
  - intros target Hin. rewrite Hw, map_map in Hin. cbn [fst] in Hin.
    rewrite map_id in Hin. apply filter_In in Hin. tauto.
  - intros image_path. unfold opened, Ref.opened. rewrite filter_In.
    destruct (open_rotate env image_path angle) as [[]|e];
      cbn [Spec.returned]; split; intros [H1 H2];
      (split; [exact H1|]); first [reflexivity | discriminate].
  - intros image_path. unfold rotated, opened, Ref.rotated, Ref.opened.
    rewrite !filter_In. cbn [Ref.target].
    destruct (open_rotate env image_path angle) as [[]|e1];
      destruct (save_image env image_path) as [[]|e2];
      cbn [Spec.returned andb]; intuition discriminate.
Qed.

Lemma rotate_in_place_witness :
  image_writes
    (snd (rotate_images_in_directory Cases.unsaved_env "pics" "acw" true))
  = [("pics/a.png", "pics/a.png");
     ("pics/a_rotated_clockwise.png", "pics/a_rotated_clockwise.png")]
  /\ fst (rotate_images_in_directory Cases.unsaved_env "pics" "acw" true)
     = Ok 1.
Proof.
  destruct (rotate_in_place Cases.unsaved_env "pics" "acw" 90 "anticlockwise")
    as (Hc & Hw & _); [reflexivity|reflexivity|].
  rewrite Hw, Hc. split; reflexivity.
Defined.

End RotateAny.
(** * Extraction: every image, the conversions, the thresholds *)

Lemma pixmap_saves_app t1 t2 :
  pixmap_saves (t1 ++ t2) = pixmap_saves t1 ++ pixmap_saves t2.
Proof.
  induction t1 as [|ev t1 IH]; [reflexivity|].
  destruct ev; simpl; rewrite ?IH; reflexivity.
Qed.

Lemma pixmap_saves_paths t :
  map fst (pixmap_saves t) = pixmap_writes t.
Proof.
  induction t as [|ev t IH]; [reflexivity|].
  destruct ev; simpl; rewrite ?IH; reflexivity.
Qed.

Lemma page_entries_in p images : forall i q j pix,
  In ((q, j), pix) (Ref.page_entries p i images) <->
  q = p /\ i <= j /\ nth_error images (j - i) = Some pix.
Proof.
  induction images as [|pix0 images IH]; intros i q j pix; simpl.
  - split; [tauto|]. intros (_ & _ & H). destruct (j - i); discriminate.
  - rewrite IH. split.
    + intros [H|(-> & L & Hn)].
      * inversion H; subst. rewrite Nat.sub_diag. auto.
      * split; [reflexivity|]. split; [lia|].
        replace (j - i) with (S (j - S i)) by lia. exact Hn.
    + intros (-> & L & Hn).
      destruct (Nat.eq_dec i j) as [->|Ne].
      * rewrite Nat.sub_diag in Hn. inversion Hn. auto.
      * right. split; [reflexivity|]. split; [lia|].
        replace (j - i) with (S (j - S i)) in Hn by lia. exact Hn.
Qed.

Lemma doc_entries_in pages : forall p q j pix,
  In ((q, j), pix) (Ref.doc_entries p pages) <->
  p <= q /\
  exists images,
    nth_error pages (q - p) = Some images /\ nth_error images j = Some pix.
Proof.
  induction pages as [|images pages IH]; intros p q j pix; simpl.
  - split; [tauto|]. intros (_ & images & H & _).
    destruct (q - p); discriminate.
  - rewrite in_app_iff, page_entries_in, IH. split.
    + intros [(-> & _ & Hn)|(L & images' & Hp & Hn)].
      * split; [lia|]. exists images. rewrite Nat.sub_diag, Nat.sub_0_r in *.
        auto.
      * split; [lia|]. exists images'.
        replace (q - p) with (S (q - S p)) by lia. auto.
    + intros (L & images' & Hp & Hn).
      destruct (Nat.eq_dec p q) as [->|Ne].
      * left. rewrite Nat.sub_diag in Hp. inversion Hp; subst.
        rewrite Nat.sub_0_r. split; [reflexivity|]. split; [lia|exact Hn].
      * right. split; [lia|]. exists images'.
        replace (q - p) with (S (q - S p)) in Hp by lia. auto.
Qed.

Lemma page_entries_indices p images : forall i,
  NoDup (map fst (Ref.page_entries p i images)).
Proof.
  induction images as [|pix images IH]; intros i; simpl; constructor.
  - intros H. apply in_map_iff in H as ([[q j] pix'] & E & H).
    simpl in E. inversion E; subst.
    apply page_entries_in in H. lia.
  - apply IH.
Qed.

Lemma doc_entries_indices pages : forall p,
  NoDup (map fst (Ref.doc_entries p pages)).
Proof.
  induction pages as [|images pages IH]; intros p; simpl; [constructor|].
  rewrite map_app. apply NoDup_app.
  - apply page_entries_indices.
  - apply IH.
  - intros [q j] H1 H2.
    apply in_map_iff in H1 as ([[q1 j1] pix1] & E1 & H1).
    apply in_map_iff in H2 as ([[q2 j2] pix2] & E2 & H2).
    simpl in E1, E2. inversion E1; inversion E2; subst.
    apply page_entries_in in H1. apply doc_entries_in in H2. lia.
Qed.

Lemma page_entries_length p images : forall i,
  List.length (Ref.page_entries p i images) = List.length images.
Proof.
  induction images as [|pix images IH]; intros i; simpl;
    [reflexivity|]. rewrite IH. reflexivity.
Qed.

Lemma doc_entries_length pages : forall p,
  List.length (Ref.doc_entries p pages) = List.length (List.concat pages).
Proof.
  induction pages as [|images pages IH]; intros p; simpl; [reflexivity|].
  rewrite !length_app, page_entries_length, IH. reflexivity.
Qed.

Lemma kept_app mw mh es1 es2 :
  Ref.kept mw mh (es1 ++ es2) = Ref.kept mw mh es1 ++ Ref.kept mw mh es2.
Proof. apply filter_app. Qed.

Lemma for_loop_app {X St} (body : nat -> X -> St -> M St) xs ys :
  forall start s,
    for_loop start (xs ++ ys) s body
    = (s' <- for_loop start xs s body ;;
       for_loop (start + List.length xs) ys s' body).
Proof.
  induction xs as [|x xs IH]; intros start s.
  - cbn [app for_loop List.length]. rewrite Nat.add_0_r.
    unfold bind, ret. destruct (for_loop start ys s body). reflexivity.
  - cbn [app for_loop List.length].
    destruct (body start x s) as [[s1|e] t1]; cbn [bind]; [|reflexivity].
    rewrite IH, <- Nat.add_succ_comm.
    destruct (for_loop (S start) xs s1 body) as [[s2|e] t2]; cbn [bind].
    + destruct (for_loop (S start + List.length xs) ys s2 body).
      rewrite app_assoc. reflexivity.
    + reflexivity.
Qed.

Section ExtractionRuns.
Import Extract.
Variable env : Env.
Variables pdf_path output_folder : string.
Hypothesis saves : forall path, save_pixmap env path = Ok tt.

(** The images of a page, with the size filter. *)
Lemma filtered_image_loop min_width min_height p images : forall i count,
  exists t,
    for_loop i (map Ok images) count (fun img_index img image_count =>
      extract_image env output_folder (pdf_name pdf_path)
                    min_width min_height p img_index img image_count)
    = (Ok (count + List.length
                     (Ref.kept min_width min_height
                               (Ref.page_entries p i images))), t)
    /\ pixmap_saves t
       = map (Ref.save_of Ref.cmyk pdf_path output_folder)
             (Ref.kept min_width min_height (Ref.page_entries p i images))
    /\ ~ In ClosePdf t.
Proof.
  induction images as [|pix images IH]; intros i count.
  - exists []. simpl. rewrite Nat.add_0_r. auto.
  - cbn [map for_loop Ref.page_entries Ref.kept filter snd].
    unfold extract_image at 1. unfold Spec.large_enough.
    cbn [lift bind]. cbv zeta.
    destruct ((min_width <=? width pix) && (min_height <=? height pix))%Z.
    + rewrite saves.
      destruct (IH (S i) (S count)) as (t & E & W & C).
      eexists. split; [|split].
      * cbn [call lift bind emit ret print app]. rewrite E.
        cbn [app List.length]. rewrite Nat.add_succ_r. reflexivity.
      * cbn [pixmap_saves app map]. fold (Ref.kept min_width min_height).
        rewrite W. reflexivity.
      * cbn [In]. intros [H|[H|H]]; [discriminate|discriminate|auto].
    + destruct (IH (S i) count) as (t & E & W & C).
      eexists. split; [|split].
      * cbn [call lift bind emit ret print app]. rewrite E. cbn [app].
        reflexivity.
      * cbn [pixmap_saves]. exact W.
      * cbn [In]. intros [H|H]; [discriminate|auto].
Qed.

Lemma filtered_page_loop min_width min_height pages : forall p count,
  exists t,
    for_loop p (map (map Ok) pages) count
      (fun page_num image_list image_count =>
         for_loop 0 image_list image_count (fun img_index img image_count =>
           extract_image env output_folder (pdf_name pdf_path)
                         min_width min_height page_num img_index img
                         image_count))
    = (Ok (count + List.length
                     (Ref.kept min_width min_height
                               (Ref.doc_entries p pages))), t)
    /\ pixmap_saves t
       = map (Ref.save_of Ref.cmyk pdf_path output_folder)
             (Ref.kept min_width min_height (Ref.doc_entries p pages))
    /\ ~ In ClosePdf t.
Proof.
  induction pages as [|images pages IH]; intros p count.
  - exists []. simpl. rewrite Nat.add_0_r. auto.
  - cbn [map for_loop Ref.doc_entries]. rewrite kept_app.
    destruct (filtered_image_loop min_width min_height p images 0 count)
      as (t1 & E1 & W1 & C1).
    rewrite E1. cbn [bind].
    destruct (IH (S p) (count + List.length
                (Ref.kept min_width min_height
                          (Ref.page_entries p 0 images))))
      as (t2 & E2 & W2 & C2).
    rewrite E2. exists (t1 ++ t2). split; [|split].
    + rewrite length_app, Nat.add_assoc. reflexivity.
    + rewrite pixmap_saves_app, W1, W2, map_app. reflexivity.
    + rewrite in_app_iff. tauto.
Qed.

(** The images of a page, without filter. *)
Lemma all_image_loop p images : forall i count,
  exists t,
    for_loop i (map Ok images) count (fun img_index img image_count =>
      ExtractAll.extract_image env output_folder (pdf_name pdf_path)
                               p img_index img image_count)
    = (Ok (count + List.length (Ref.page_entries p i images)), t)
    /\ pixmap_saves t
       = map (Ref.save_of Ref.five_components pdf_path output_folder)
             (Ref.page_entries p i images).
Proof.
  induction images as [|pix images IH]; intros i count.
  - exists []. simpl. rewrite Nat.add_0_r. auto.
  - cbn [map for_loop Ref.page_entries].
    unfold ExtractAll.extract_image at 1.
    cbn [lift bind]. cbv zeta.
    destruct (IH (S i) (S count)) as (t & E & W).
    unfold Ref.save_of at 1, Ref.five_components at 1. cbn [fst snd].
    rewrite Z.leb_antisym.
    destruct (n pix - alpha pix <? 4)%Z; cbn [negb andb].
    + rewrite saves.
      destruct (n pix - alpha pix =? 1)%Z;
        (eexists; split;
         [ cbn [call lift bind emit ret print app]; rewrite E;
           cbn [app List.length]; rewrite Nat.add_succ_r; reflexivity
         | cbn [pixmap_saves app map]; rewrite W; reflexivity ]).
    + rewrite saves.
      eexists. split.
      * cbn [call lift bind emit ret print app]. rewrite E.
        cbn [app List.length]. rewrite Nat.add_succ_r. reflexivity.
      * cbn [pixmap_saves app map]. rewrite W. reflexivity.
Qed.

Lemma all_page_loop pages : forall p count,
  exists t,
    for_loop p (map (map Ok) pages) count
      (fun page_num image_list image_count =>
         for_loop 0 image_list image_count (fun img_index img image_count =>
           ExtractAll.extract_image env output_folder (pdf_name pdf_path)
                                    page_num img_index img image_count))
    = (Ok (count + List.length (Ref.doc_entries p pages)), t)
    /\ pixmap_saves t
       = map (Ref.save_of Ref.five_components pdf_path output_folder)
             (Ref.doc_entries p pages).
Proof.
  induction pages as [|images pages IH]; intros p count.
  - exists []. simpl. rewrite Nat.add_0_r. auto.
  - cbn [map for_loop Ref.doc_entries].
    destruct (all_image_loop p images 0 count) as (t1 & E1 & W1).
    rewrite E1. cbn [bind].
    destruct (IH (S p) (count + List.length (Ref.page_entries p 0 images)))
      as (t2 & E2 & W2).
    rewrite E2. exists (t1 ++ t2). split.
    + rewrite length_app, Nat.add_assoc. reflexivity.
    + rewrite pixmap_saves_app, W1, W2, map_app. reflexivity.
Qed.

Hypothesis folder :
  exists_ env output_folder = true \/ makedirs env output_folder = Ok tt.
Variable pages : list (list Pixmap).
Hypothesis opens : open_pdf env pdf_path = Ok (map (map Ok) pages).

Lemma filtered_run min_width min_height :
  exists t,
    extract_images_with_quality_filter env pdf_path output_folder
                                       min_width min_height
    = (Ok (List.length (Ref.kept min_width min_height
                                 (Ref.doc_entries 0 pages))), t)
    /\ pixmap_saves t
       = map (Ref.save_of Ref.cmyk pdf_path output_folder)
             (Ref.kept min_width min_height (Ref.doc_entries 0 pages)).
Proof.
  destruct (filtered_page_loop min_width min_height pages 0 0)
    as (tl & El & Wl & _).
  simpl in El.
  unfold extract_images_with_quality_filter. rewrite opens.
  destruct (exists_ env output_folder) eqn:Ex.
  - eexists. split.
    + cbn [call lift bind emit ret app]. rewrite El. reflexivity.
    + cbn [pixmap_saves]. rewrite pixmap_saves_app, Wl. simpl.
      apply app_nil_r.
  - destruct folder as [Hdir|Hdir]; [discriminate|]. rewrite Hdir.
    eexists. split.
    + cbn [call lift bind emit ret app]. rewrite El. reflexivity.
    + cbn [pixmap_saves]. rewrite pixmap_saves_app, Wl. simpl.
      apply app_nil_r.
Qed.

Lemma all_run :
  exists t,
    ExtractAll.extract_images_from_pdf env pdf_path output_folder
    = (Ok (List.length (Ref.doc_entries 0 pages)), t)
    /\ pixmap_saves t
       = map (Ref.save_of Ref.five_components pdf_path output_folder)
             (Ref.doc_entries 0 pages).
Proof.
  destruct (all_page_loop pages 0 0) as (tl & El & Wl).
  simpl in El.
  unfold ExtractAll.extract_images_from_pdf. rewrite opens.
  destruct (exists_ env output_folder) eqn:Ex.
  - eexists. split.
    + cbn [call lift bind emit ret app]. rewrite El. reflexivity.
    + cbn [pixmap_saves]. rewrite pixmap_saves_app, Wl. simpl.
      apply app_nil_r.
  - destruct folder as [Hdir|Hdir]; [discriminate|]. rewrite Hdir.
    eexists. split.
    + cbn [call lift bind emit ret app]. rewrite El. reflexivity.
    + cbn [pixmap_saves]. rewrite pixmap_saves_app, Wl. simpl.
      apply app_nil_r.
Qed.
End ExtractionRuns.
Section ExtractionFacts.
Import Extract.

Lemma doc_entries_app pages1 pages2 : forall p,
  Ref.doc_entries p (pages1 ++ pages2)
  = Ref.doc_entries p pages1
    ++ Ref.doc_entries (p + List.length pages1) pages2.
Proof.
  induction pages1 as [|images pages1 IH]; intros p; simpl.
  - rewrite Nat.add_0_r. reflexivity.
  - rewrite IH, <- app_assoc, Nat.add_succ_comm. reflexivity.
Qed.

Lemma save_of_in converted pdf_path output_folder pages p i images pix b :
  nth_error pages p = Some images -> nth_error images i = Some pix ->
  forall entries,
    incl entries (Ref.doc_entries 0 pages) ->
    In (Spec.written_path pdf_path output_folder (p, i), b)
       (map (Ref.save_of converted pdf_path output_folder) entries)
    <-> In ((p, i), pix) entries /\ b = converted pix.
Proof.
  intros Hp Hi entries Hincl. split.
  - intros H. apply in_map_iff in H as ([[q j] pix'] & E & Hin).
    unfold Ref.save_of in E. cbn [fst snd] in E. inversion E as [[E1 E2]].
    apply written_path_inj in E1. inversion E1; subst q j.
    pose proof (Hincl _ Hin) as Hd.
    apply doc_entries_in in Hd as (_ & images' & Hp' & Hi').
    rewrite Nat.sub_0_r, Hp in Hp'. inversion Hp'; subst images'.
    rewrite Hi in Hi'. inversion Hi'; subst pix'. auto.
  - intros [Hin ->].
    apply (in_map (Ref.save_of converted pdf_path output_folder)) in Hin.
    exact Hin.
Qed.

Lemma kept_incl mw mh entries : incl (Ref.kept mw mh entries) entries.
Proof. intros e H. apply filter_In in H. tauto. Qed.

Lemma large_enough_mono mw mh mw' mh' pix :
  (mw <= mw')%Z -> (mh <= mh')%Z ->
  Spec.large_enough mw' mh' pix = true -> Spec.large_enough mw mh pix = true.
Proof.
  unfold Spec.large_enough. intros Hw Hh H.
  apply andb_true_iff in H. apply andb_true_iff. lia.
Qed.

(** X3. When the output folder exists or can be created, the PDF opens,
    every image decodes and every save returns, extract_images_from_pdf
    saves every image of the document, skipping none (masks included):
    the count it returns is the number of images, image i of page p is
    saved under the path of its indices, all different, and it is
    converted to RGB first exactly when it has five components of which
    at least four are colorants (n = 5 and n - alpha >= 4). *)
Theorem extract_all_images env pdf_path output_folder
        (pages : list (list Pixmap)) :
  (exists_ env output_folder = true \/ makedirs env output_folder = Ok tt) ->
  open_pdf env pdf_path = Ok (map (map Ok) pages) ->
  (forall path, save_pixmap env path = Ok tt) ->
  let written := Spec.written_path pdf_path output_folder in
  exists t,
    ExtractAll.extract_images_from_pdf env pdf_path output_folder
    = (Ok (List.length (List.concat pages)), t)
    /\ pixmap_saves t
       = map (Ref.save_of Ref.five_components pdf_path output_folder)
             (Ref.doc_entries 0 pages)
    /\ List.length (pixmap_writes t) = List.length (List.concat pages)
    /\ NoDup (pixmap_writes t)
    /\ (forall p i images pix,
          nth_error pages p = Some images -> nth_error images i = Some pix ->
          forall converted,
            In (written (p, i), converted) (pixmap_saves t)
            <-> converted
                = ((4 <=? n pix - alpha pix)%Z && (n pix =? 5)%Z)).
Proof.
  intros Hdir Hopen Hsave written.
  destruct (all_run env pdf_path output_folder Hsave Hdir pages Hopen)
    as (t & E & W).
  exists t. rewrite doc_entries_length in E.
  split; [exact E|]. split; [exact W|].
  assert (Wp : pixmap_writes t
               = map written (map fst (Ref.doc_entries 0 pages))).
  { rewrite <- pixmap_saves_paths, W, !map_map. reflexivity. }
  split; [|split].
  - rewrite Wp, !length_map. apply doc_entries_length.
  - rewrite Wp. apply Finite.Injective_map_NoDup.
    + intros x y. apply written_path_inj.
    + apply doc_entries_indices.
  - intros p i images pix Hp Hi converted. rewrite W.
    unfold written.
    rewrite (save_of_in Ref.five_components pdf_path output_folder pages
                        p i images pix converted Hp Hi _ (incl_refl _)).
    split; [tauto|]. intros ->. split; [|reflexivity].
    apply doc_entries_in. split; [lia|]. exists images.
    rewrite Nat.sub_0_r. auto.
Qed.

Lemma extract_all_images_witness :
  exists t,
    ExtractAll.extract_images_from_pdf Sample.extract_env "in/doc.pdf"
                                       "doc_images"
    = (Ok 3, t)
    /\ pixmap_writes t
       = ["doc_images/doc_page1_img1.png"; "doc_images/doc_page1_img2.png";
          "doc_images/doc_page2_img1.png"].
Proof.
  destruct (extract_all_images Sample.extract_env "in/doc.pdf" "doc_images"
                               Sample.extract_pages)
    as (t & E & W & _).
  - right. reflexivity.
  - reflexivity.
  - intros path. reflexivity.
  - exists t. split; [exact E|].
    rewrite <- pixmap_saves_paths, W. reflexivity.
Defined.

(** X4. Under the same conditions, raising the minimum width or height
    never adds a file: the files written with the larger thresholds are
    among those written with the smaller ones, which are among those
    extract_images_from_pdf writes, and the counts returned are ordered
    the same way. *)
Theorem raising_thresholds_drops_files env pdf_path output_folder
        (pages : list (list Pixmap)) min_width min_height
        min_width' min_height' :
  (exists_ env output_folder = true \/ makedirs env output_folder = Ok tt) ->
  open_pdf env pdf_path = Ok (map (map Ok) pages) ->
  (forall path, save_pixmap env path = Ok tt) ->
  (min_width <= min_width')%Z -> (min_height <= min_height')%Z ->
  let low := extract_images_with_quality_filter
               env pdf_path output_folder min_width min_height in
  let high := extract_images_with_quality_filter
                env pdf_path output_folder min_width' min_height' in
  let all := ExtractAll.extract_images_from_pdf env pdf_path output_folder in
  exists count_low count_high count_all,
    fst low = Ok count_low /\ fst high = Ok count_high
    /\ fst all = Ok count_all
    /\ count_high <= count_low <= count_all
    /\ incl (pixmap_writes (snd high)) (pixmap_writes (snd low))
    /\ incl (pixmap_writes (snd low)) (pixmap_writes (snd all)).
Proof.
  intros Hdir Hopen Hsave Hw Hh low high all.
  destruct (filtered_run env pdf_path output_folder Hsave Hdir pages Hopen
                         min_width min_height) as (tl & El & Wl).
  destruct (filtered_run env pdf_path output_folder Hsave Hdir pages Hopen
                         min_width' min_height') as (th & Eh & Wh).
  destruct (all_run env pdf_path output_folder Hsave Hdir pages Hopen)
    as (ta & Ea & Wa).
  subst low high all. rewrite El, Eh, Ea. cbn [fst snd].
  do 3 eexists. do 3 (split; [reflexivity|]).
  rewrite <- !pixmap_saves_paths, Wl, Wh, Wa, !map_map. cbn [Ref.save_of fst].
  split; [split|split].
  - apply filter_length_mono. intros e. apply large_enough_mono; assumption.
  - apply filter_length_le.
  - intros path H. apply in_map_iff in H as (e & <- & H).
    apply in_map_iff. exists e. split; [reflexivity|].
    apply filter_In in H as [H Q]. apply filter_In.
    split; [exact H|]. revert Q. apply large_enough_mono; assumption.
  - intros path H. apply in_map_iff in H as (e & <- & H).
    apply in_map_iff. exists e. split; [reflexivity|].
    apply filter_In in H. tauto.
Qed.

Lemma raising_thresholds_drops_files_witness :
  exists count_low count_high,
    fst (extract_images_with_quality_filter
           Sample.extract_env "in/doc.pdf" "doc_images" 10 10)
    = Ok count_low
    /\ fst (extract_images_with_quality_filter
              Sample.extract_env "in/doc.pdf" "doc_images" 50 50)
       = Ok count_high
    /\ count_high <= count_low.
Proof.
  destruct (raising_thresholds_drops_files
              Sample.extract_env "in/doc.pdf" "doc_images"
              Sample.extract_pages 10 10 50 50)
    as (c1 & c2 & c3 & E1 & E2 & _ & [L _] & _).
  - right. reflexivity.
  - reflexivity.
  - intros path. reflexivity.
  - lia.
  - lia.
  - exists c1, c2. auto.
Defined.

(** X5. Under the same conditions, extract_images_with_quality_filter
    converts an image to RGB before saving it exactly when it is CMYK,
    with or without alpha (n - alpha = 4): image i of page p is saved
    converted when it passes the size test and is CMYK, saved as it is
    when it passes and is not, and not saved at all otherwise. *)
Theorem filtered_extraction_converts_cmyk env pdf_path output_folder
        (pages : list (list Pixmap)) min_width min_height :
  (exists_ env output_folder = true \/ makedirs env output_folder = Ok tt) ->
  open_pdf env pdf_path = Ok (map (map Ok) pages) ->
  (forall path, save_pixmap env path = Ok tt) ->
  let written := Spec.written_path pdf_path output_folder in
  let saves :=
    pixmap_saves
      (snd (extract_images_with_quality_filter
              env pdf_path output_folder min_width min_height)) in
  forall p i images pix,
    nth_error pages p = Some images -> nth_error images i = Some pix ->
    forall converted,
      In (written (p, i), converted) saves
      <-> ((min_width <= width pix)%Z /\ (min_height <= height pix)%Z
           /\ converted = (n pix - alpha pix =? 4)%Z).
Proof.
  intros Hdir Hopen Hsave written saves p i images pix Hp Hi converted.
  destruct (filtered_run env pdf_path output_folder Hsave Hdir pages Hopen
                         min_width min_height) as (t & E & W).
  subst saves. rewrite E. cbn [snd]. rewrite W. unfold written.
  rewrite (save_of_in Ref.cmyk pdf_path output_folder pages
                      p i images pix converted Hp Hi _ (kept_incl _ _ _)).
  unfold Ref.kept, Ref.cmyk. rewrite filter_In. cbn [snd].
  unfold Spec.large_enough. rewrite andb_true_iff, !Z.leb_le.
  split; [tauto|]. intros (Hw & Hh & ->).
  split; [|reflexivity]. split; [|auto].
  apply doc_entries_in. split; [lia|]. exists images.
  rewrite Nat.sub_0_r. auto.
Qed.

Lemma filtered_extraction_converts_cmyk_witness :
  In ("out/doc_page1_img2.png", true)
     (pixmap_saves
        (snd (extract_images_with_quality_filter
                Cases.cmyk_env "doc.pdf" "out" 50 50))).
Proof.
  apply (filtered_extraction_converts_cmyk
           Cases.cmyk_env "doc.pdf" "out" Cases.cmyk_pages 50 50
           (or_introl eq_refl) eq_refl (fun _ => eq_refl)
           0 1 [Sample.big; Cases.cmyk_scan] Cases.cmyk_scan
           eq_refl eq_refl true).
  cbn. repeat split; discriminate.
Defined.

(** X6. When the first image that cannot be decoded is image i of page
    p, extract_images_with_quality_filter raises that error: the images
    before it that pass the size test have been saved and stay on disk,
    nothing after it is looked at, and the document is not closed. *)
Theorem extraction_stops_at_first_failure env pdf_path output_folder
        min_width min_height before first e rest after :
  (exists_ env output_folder = true \/ makedirs env output_folder = Ok tt) ->
  open_pdf env pdf_path = Ok (Ref.fails_at before first e rest after) ->
  (forall path, save_pixmap env path = Ok tt) ->
  exists t,
    extract_images_with_quality_filter env pdf_path output_folder
                                       min_width min_height
    = (Raise e, t)
    /\ pixmap_saves t
       = map (Ref.save_of Ref.cmyk pdf_path output_folder)
             (Ref.kept min_width min_height
                       (Ref.doc_entries 0 (before ++ [first])))
    /\ ~ In ClosePdf t.
Proof.
  intros Hdir Hopen Hsave.
  destruct (filtered_page_loop env pdf_path output_folder Hsave
                               min_width min_height before 0 0)
    as (t1 & E1 & W1 & C1).
  cbn [Nat.add] in E1.
  destruct (filtered_image_loop
              env pdf_path output_folder Hsave min_width min_height
              (List.length before) first 0
              (List.length
                 (Ref.kept min_width min_height
                           (Ref.doc_entries 0 before))))
    as (t2 & E2 & W2 & C2).
  assert (Loop :
            for_loop 0 (Ref.fails_at before first e rest after) 0
              (fun page_num image_list image_count =>
                 for_loop 0 image_list image_count
                   (fun img_index img image_count =>
                      extract_image env output_folder (pdf_name pdf_path)
                                    min_width min_height page_num img_index
                                    img image_count))
            = (Raise e, t1 ++ t2)).
  { unfold Ref.fails_at. rewrite for_loop_app, E1. cbn [bind Nat.add].
    rewrite length_map. cbn [for_loop].
    rewrite for_loop_app, E2. cbn [bind for_loop].
    unfold extract_image at 1. cbn [lift bind].
    rewrite app_nil_r. reflexivity. }
  assert (L : exists pre,
             extract_images_with_quality_filter env pdf_path output_folder
                                                min_width min_height
             = (Raise e, pre ++ t1 ++ t2)
             /\ pixmap_saves pre = [] /\ ~ In ClosePdf pre).
  { unfold extract_images_with_quality_filter. rewrite Hopen.
    destruct (exists_ env output_folder) eqn:Ex.
    - exists [OpenPdf pdf_path]. split; [|split].
      + cbn [call lift bind emit ret app]. rewrite Loop. reflexivity.
      + reflexivity.
      + intros [H|[]]. discriminate.
    - destruct Hdir as [Hdir|Hdir]; [discriminate|]. rewrite Hdir.
      exists [MakeDirs output_folder; OpenPdf pdf_path]. split; [|split].
      + cbn [call lift bind emit ret app]. rewrite Loop. reflexivity.
      + reflexivity.
      + intros [H|[H|[]]]; discriminate. }
  destruct L as (pre & E & Wp & Cp).
  exists (pre ++ t1 ++ t2). split; [exact E|]. split.
  - rewrite !pixmap_saves_app, Wp, W1, W2, doc_entries_app, kept_app, map_app.
    cbn [Ref.doc_entries Nat.add app]. rewrite app_nil_r. reflexivity.
  - rewrite !in_app_iff. tauto.
Qed.

Lemma extraction_stops_at_first_failure_witness :
  exists t,
    extract_images_with_quality_filter Cases.broken_env "doc.pdf" "out" 50 50
    = (Raise "bad xref", t)
    /\ pixmap_writes t
       = ["out/doc_page1_img1.png"; "out/doc_page2_img1.png"].
Proof.
  destruct (extraction_stops_at_first_failure
              Cases.broken_env "doc.pdf" "out" 50 50
              [[Sample.big]] [Sample.big] "bad xref"
              [Ok Sample.big] [[Ok Sample.big]])
    as (t & E & W & _).
  - left. reflexivity.
  - reflexivity.
  - intros path. reflexivity.
  - exists t. split; [exact E|].
    rewrite <- pixmap_saves_paths, W. reflexivity.
Defined.
End ExtractionFacts.
(** * create_pdf_from_images: what is saved and which pages it has *)

Lemma page_sizes_app t1 t2 :
  page_sizes (t1 ++ t2) = page_sizes t1 ++ page_sizes t2.
Proof.
  induction t1 as [|ev t1 IH]; [reflexivity|].
  destruct ev; simpl; rewrite ?IH; reflexivity.
Qed.

Lemma page_count_sizes t : page_count t = List.length (page_sizes t).
Proof.
  induction t as [|ev t IH]; [reflexivity|].
  destruct ev; simpl; rewrite ?IH; reflexivity.
Qed.

Lemma no_page_sizes t : existsb is_new_page t = false -> page_sizes t = [].
Proof.
  induction t as [|ev t IH]; [reflexivity|].
  destruct ev; simpl; auto; discriminate.
Qed.

Section CreatePdfFacts.
Import CreatePdf.

(** One image: the handler turns every failure into a printed line. *)
Lemma add_page_cases env page_num image_path :
  exists t,
    add_page env page_num image_path = (Ok tt, t)
    /\ pdf_saves t = []
    /\ page_sizes t = Ref.page_of env image_path.
Proof.
  unfold add_page, Ref.page_of.
  destruct (open_image env image_path) as [img|e];
    [|eexists; split; [reflexivity|split; reflexivity]].
  cbn [lift bind].
  destruct (Py.str_in (mode img) ["RGBA"; "LA"; "P"]);
    [destruct (convert_rgb env image_path) as [[]|e1]|];
    cbn [Spec.returned andb];
    try (destruct (encode_png env image_path) as [[]|e2];
         cbn [Spec.returned andb];
         try (destruct (new_page env image_path) as [[]|e3];
              cbn [Spec.returned andb];
              try (destruct (insert_image env image_path) as [[]|e4])));
    eexists; split; try reflexivity; split; reflexivity.
Qed.

Lemma add_page_loop env page_images : forall start,
  exists t,
    for_loop start page_images tt (fun _ page _ =>
      add_page env (fst page) (snd page)) = (Ok tt, t)
    /\ pdf_saves t = []
    /\ page_sizes t
       = flat_map (fun page => Ref.page_of env (snd page)) page_images.
Proof.
  induction page_images as [|page pages IH]; intros start.
  - exists []. repeat split.
  - cbn [for_loop flat_map].
    destruct (add_page_cases env (fst page) (snd page)) as (t1 & E1 & S1 & P1).
    destruct (IH (S start)) as (t2 & E2 & S2 & P2).
    exists (t1 ++ t2). unfold bind. rewrite E1, E2.
    split; [reflexivity|]. split.
    + rewrite pdf_saves_app, S1, S2. reflexivity.
    + rewrite page_sizes_app, P1, P2. reflexivity.
Qed.

(** The outer [try]: it never raises, saves at most once and returns the
    path exactly when the save returned. *)
Lemma assemble_result env page_images output_pdf :
  exists res t,
    assemble env page_images output_pdf = (Ok res, t)
    /\ (new_pdf env = Ok tt ->
        page_sizes t
        = flat_map (fun page => Ref.page_of env (snd page)) page_images)
    /\ (new_pdf env <> Ok tt -> page_sizes t = [])
    /\ match res with
       | Some p =>
           p = output_pdf /\ pdf_saves t = [(output_pdf, [])]
           /\ save_pdf env output_pdf = Ok tt
       | None =>
           pdf_saves t = []
           /\ (page_sizes t = [] \/ save_pdf env output_pdf <> Ok tt)
       end.
Proof.
  unfold assemble.
  destruct (new_pdf env) as [[]|e].
  - destruct (add_page_loop env page_images 0) as (tl & El & Sl & Pl).
    rewrite El.
    cbn [call lift bind emit ret listen app fst snd try_except].
    rewrite (page_count_sizes tl).
    destruct (Nat.eqb (List.length (page_sizes tl)) 0) eqn:E.
    + apply Nat.eqb_eq, length_zero_iff_nil in E.
      eexists. eexists. split; [cbn; reflexivity|].
      cbn [page_sizes pdf_saves].
      rewrite !page_sizes_app, !pdf_saves_app, Sl, <- Pl, E.
      split; [reflexivity|]. split; [reflexivity|]. split; [reflexivity|].
      left. reflexivity.
    + destruct (save_pdf env output_pdf) as [[]|e] eqn:Es.
      * eexists. eexists. split; [cbn; reflexivity|].
        cbn [page_sizes pdf_saves].
        rewrite !page_sizes_app, !pdf_saves_app, Sl, <- Pl. cbn.
        rewrite ?app_nil_r. split; [reflexivity|].
        split; [congruence|]. repeat split.
      * eexists. eexists. split; [cbn; reflexivity|].
        cbn [page_sizes pdf_saves].
        rewrite !page_sizes_app, !pdf_saves_app, Sl, <- Pl. cbn.
        rewrite ?app_nil_r. split; [reflexivity|].
        split; [congruence|]. split; [reflexivity|]. right. discriminate.
  - eexists. eexists. split; [cbn; reflexivity|].
    split; [discriminate|]. split; [reflexivity|]. split; [reflexivity|].
    left. reflexivity.
Qed.

(** The steps before the document is assembled save nothing and add no
    page. *)
Lemma create_pdf_run env directory_path output_pdf :
  exists_ env directory_path = true ->
  Spec.page_list (find_image_files (glob env) directory_path) <> [] ->
  let A := assemble env
             (sort_pages
                (Spec.page_list (find_image_files (glob env) directory_path)))
             (Ref.chosen_output directory_path output_pdf) in
  exists pre,
    create_pdf_from_images env directory_path output_pdf
    = (fst A, pre ++ snd A)
    /\ pdf_saves pre = [] /\ page_sizes pre = [].
Proof.
  intros Hex Hne A. subst A. unfold create_pdf_from_images. rewrite Hex.
  cbn [negb]. cbv iota zeta.
  destruct (find_image_files (glob env) directory_path) as [|f files];
    [contradiction Hne; reflexivity|].
  destruct (scan_pages_total (f :: files)) as (w & E & W1 & W2).
  rewrite E. clear E.
  destruct (Spec.page_list (f :: files)) as [|first rest];
    [contradiction Hne; reflexivity|].
  cbn [bind print emit]. fold (Ref.chosen_output directory_path output_pdf).
  destruct (assemble env _ _) as [ra ta]. cbn [fst snd app].
  eexists (w ++ [_; _]). rewrite <- app_assoc.
  split; [reflexivity|].
  rewrite pdf_saves_app, page_sizes_app, (no_save_events w W2),
    (no_page_sizes w W1).
  split; reflexivity.
Qed.

Lemma page_list_length files :
  List.length (Spec.page_list files) <= List.length files.
Proof.
  unfold Spec.page_list.
  induction files as [|f files IH]; simpl; [lia|].
  rewrite length_app. destruct (Spec.page_number f); simpl; lia.
Qed.

Lemma page_of_length env pages :
  List.length (flat_map (fun page : N * string => Ref.page_of env (snd page))
                        pages)
  <= List.length pages.
Proof.
  induction pages as [|page pages IH]; simpl; [lia|].
  rewrite length_app.
  assert (List.length (Ref.page_of env (snd page)) <= 1).
  { unfold Ref.page_of. destruct (open_image env (snd page)); [|simpl; lia].
    destruct (_ && _); simpl; lia. }
  lia.
Qed.

Lemma chosen_output_pdf directory_path output_pdf :
  Py.endswith (Py.lower (Ref.chosen_output directory_path output_pdf)) ".pdf"
  = true.
Proof. apply ensure_pdf_endswith. Qed.

Lemma create_pdf_saves env directory_path output_pdf :
  let t := snd (create_pdf_from_images env directory_path output_pdf) in
  pdf_saves t = []
  \/ pdf_saves t = [(Ref.chosen_output directory_path output_pdf, [])].
Proof.
  cbv zeta.
  destruct (exists_ env directory_path) eqn:Hex.
  - destruct (Spec.page_list (find_image_files (glob env) directory_path))
      as [|first rest] eqn:Hl.
    + left. unfold create_pdf_from_images. rewrite Hex. cbn [negb]. cbv iota.
      destruct (find_image_files (glob env) directory_path) as [|f files];
        [reflexivity|].
      destruct (scan_pages_total (f :: files)) as (w & E & W1 & W2).
      rewrite E, Hl. cbn.
      rewrite pdf_saves_app, (no_save_events w W2). reflexivity.
    + destruct (create_pdf_run env directory_path output_pdf Hex)
        as (pre & E & Sp & Pp); [rewrite Hl; discriminate|].
      cbv zeta in E. rewrite Hl in E. rewrite E. cbn [snd].
      destruct (assemble_result env (sort_pages (first :: rest))
                  (Ref.chosen_output directory_path output_pdf))
        as (res & t & Ea & _ & _ & Hres).
      rewrite Ea. cbn [snd]. rewrite pdf_saves_app, Sp. cbn [app].
      destruct res as [p|]; [right|left]; tauto.
  - left. unfold create_pdf_from_images. rewrite Hex. reflexivity.
Qed.

(** A path that create_pdf_from_images returns is the path it saved
    to. *)
Lemma create_pdf_returned env directory_path output_pdf p t :
  create_pdf_from_images env directory_path output_pdf = (Ok (Some p), t) ->
  p = Ref.chosen_output directory_path output_pdf
  /\ pdf_saves t = [(p, [])]
  /\ save_pdf env p = Ok tt.
Proof.
  intros E.
  destruct (exists_ env directory_path) eqn:Hex.
  - destruct (Spec.page_list (find_image_files (glob env) directory_path))
      as [|first rest] eqn:Hl.
    + exfalso. revert E.
      unfold create_pdf_from_images. rewrite Hex. cbn [negb]. cbv iota.
      destruct (find_image_files (glob env) directory_path) as [|f files];
        [discriminate|].
      destruct (scan_pages_total (f :: files)) as (w & Ew & _).
      rewrite Ew, Hl. cbn. discriminate.
    + destruct (create_pdf_run env directory_path output_pdf Hex)
        as (pre & Er & Sp & Pp); [rewrite Hl; discriminate|].
      cbv zeta in Er. rewrite Hl in Er.
      destruct (assemble_result env (sort_pages (first :: rest))
                  (Ref.chosen_output directory_path output_pdf))
        as (res & ta & Ea & _ & _ & Hres).
      rewrite Ea in Er. cbn [fst snd] in Er. rewrite Er in E.
      inversion E; subst res t.
      destruct Hres as (-> & Hs & Hsave).
      rewrite pdf_saves_app, Sp. cbn [app]. auto.
  - exfalso. revert E. unfold create_pdf_from_images. rewrite Hex.
    discriminate.
Qed.

(** X7. What create_pdf_from_images returns tells what it saved: it
    saves at most once, and only to the requested (or default) name with
    [.pdf] appended unless it already ends in it in any case; a path it
    returns is that name, the document has been saved there, and it has
    at least one page. *)
Theorem create_pdf_returns_what_it_saved env directory_path output_pdf :
  let r := create_pdf_from_images env directory_path output_pdf in
  let out := Ref.chosen_output directory_path output_pdf in
  (pdf_saves (snd r) = [] \/ pdf_saves (snd r) = [(out, [])])
  /\ Py.endswith (Py.lower out) ".pdf" = true
  /\ (forall p,
        fst r = Ok (Some p) ->
        p = out /\ pdf_saves (snd r) = [(out, [])]
        /\ save_pdf env out = Ok tt
        /\ 1 <= page_count (snd r)).
Proof.
  intros r out. subst r. split; [apply create_pdf_saves|].
  split; [apply chosen_output_pdf|].
  intros p Hp.
  destruct (create_pdf_from_images env directory_path output_pdf)
    as [res t] eqn:Er.
  cbn [fst snd] in *. subst res.
  destruct (create_pdf_returned _ _ _ _ _ Er) as (Ep & Hs & Hsave).
  fold out in Ep. subst p.
  split; [reflexivity|]. split; [exact Hs|]. split; [exact Hsave|].
  pose proof (create_pdf_cases env directory_path output_pdf) as C.
  cbv zeta in C. rewrite Er in C. cbn [fst snd] in C.
  destruct C as [[C _]|C]; [discriminate|lia].
Qed.

(** X8. In an existing directory, when the new document can be created,
    the document of create_pdf_from_images has one page per matching
    image for which the image opened, was converted where its mode asks
    for it, was encoded and got its page, in the order of the page
    numbers, the page being 0.75 points per pixel wide and high; a page
    whose image could not be inserted afterwards stays in the document.
    So the document never has more pages than there are matching files. *)
Theorem one_page_per_image env directory_path output_pdf :
  exists_ env directory_path = true ->
  new_pdf env = Ok tt ->
  let image_files := find_image_files (glob env) directory_path in
  let page_images := sort_pages (Spec.page_list image_files) in
  let t := snd (create_pdf_from_images env directory_path output_pdf) in
  page_sizes t
  = flat_map (fun page => Ref.page_of env (snd page)) page_images
  /\ page_count t = List.length (page_sizes t)
  /\ page_count t <= List.length (Spec.page_list image_files)
  /\ List.length (Spec.page_list image_files) <= List.length image_files.
Proof.
  intros Hex Hnew image_files page_images t.
  assert (P : page_sizes t
              = flat_map (fun page => Ref.page_of env (snd page))
                         page_images).
  { subst t page_images image_files.
    destruct (Spec.page_list (find_image_files (glob env) directory_path))
      as [|first rest] eqn:Hl.
    - unfold create_pdf_from_images. rewrite Hex. cbn [negb]. cbv iota.
      destruct (find_image_files (glob env) directory_path) as [|f files];
        [reflexivity|].
      destruct (scan_pages_total (f :: files)) as (w & E & W1 & W2).
      rewrite E, Hl. cbn.
      rewrite page_sizes_app, (no_page_sizes w W1). reflexivity.
    - destruct (create_pdf_run env directory_path output_pdf Hex)
        as (pre & E & Sp & Pp); [rewrite Hl; discriminate|].
      cbv zeta in E. rewrite Hl in E. rewrite E. cbn [snd].
      destruct (assemble_result env (sort_pages (first :: rest))
                  (Ref.chosen_output directory_path output_pdf))
        as (res & ta & Ea & Hp & _).
      rewrite Ea. cbn [snd]. rewrite page_sizes_app, Pp. cbn [app].
      apply Hp, Hnew. }
  split; [exact P|]. split; [apply page_count_sizes|]. split.
  - rewrite page_count_sizes, P.
    etransitivity; [apply page_of_length|].
    subst page_images. rewrite (Permutation_length (sort_pages_perm _)).
    apply Nat.le_refl.
  - apply page_list_length.
Qed.

Lemma one_page_per_image_witness :
  page_count (snd (create_pdf_from_images Sample.create_env "scans" None))
  = 3.
Proof.
  destruct (one_page_per_image Sample.create_env "scans" None)
    as (P & C & _); [reflexivity|reflexivity|].
  rewrite C, P. reflexivity.
Defined.
End CreatePdfFacts.
(** * compress_pdf and compress_pdf_advanced: what a returned path means *)

Section CompressionFacts.
Import Compress.

Lemma output_path_pdf input_pdf output_pdf suffix :
  Py.endswith (Py.lower (output_path input_pdf output_pdf suffix)) ".pdf"
  = true.
Proof. apply ensure_pdf_endswith. Qed.

(** X9. A path that compress_pdf returns is the path of the one file it
    saved, with the settings of the level: the requested (or generated)
    name, with [.pdf] appended unless it already ends in it in any case;
    the input then exists and is not empty.  When the level is none of
    the three, nothing is saved. *)
Theorem compress_pdf_returns_what_it_saved env input_pdf output_pdf level :
  let r := compress_pdf env input_pdf output_pdf level in
  let out := output_path input_pdf output_pdf "_compressed" in
  Py.endswith (Py.lower out) ".pdf" = true
  /\ (forall p,
        fst r = Ok (Some p) ->
        p = out
        /\ exists_ env input_pdf = true
        /\ (exists settings,
               lookup level compression_settings = Some settings
               /\ pdf_saves (snd r) = [(out, settings)])
        /\ (exists original_size,
               getsize env input_pdf = Ok original_size
               /\ original_size <> 0%Z))
  /\ (lookup level compression_settings = None -> pdf_saves (snd r) = []).
Proof.
  intros r out. subst r out. split; [apply output_path_pdf|].
  unfold compress_pdf.
  destruct (exists_ env input_pdf);
    [|split; [intros p E; discriminate E|reflexivity]].
  cbn [negb]. cbv iota zeta.
  destruct (lookup level compression_settings) as [settings|];
    [|split; [intros p E; discriminate E|reflexivity]].
  unfold ratio.
  destruct (getsize env input_pdf) as [size|e] eqn:Hs;
    [|split; [intros p E; discriminate E|discriminate]].
  destruct (open_pdf env input_pdf) as [[]|e];
    [|split; [intros p E; discriminate E|discriminate]].
  destruct (save_pdf env (output_path input_pdf output_pdf "_compressed")
                     settings) as [[]|e];
    [|split; [intros p E; discriminate E|discriminate]].
  cbn [lift bind].
  destruct (getsize env (output_path input_pdf output_pdf "_compressed"))
    as [csize|e];
    [|split; [intros p E; discriminate E|discriminate]].
  destruct (size =? 0)%Z eqn:Z0;
    [split; [intros p E; discriminate E|discriminate]|].
  split; [|discriminate].
  intros p E. cbn in E. inversion E; subst p.
  split; [reflexivity|]. split; [reflexivity|].
  split; [exists settings; split; reflexivity|].
  exists size. split; [reflexivity|]. apply Z.eqb_neq, Z0.
Qed.
End CompressionFacts.

Section AdvancedFacts.
Import CompressAdv.

(** A page that is processed is rendered once and gets one page of the
    new document. *)
Lemma process_page_done env q mw mh total i page t :
  process_page env q mw mh total i page = (Ok tt, t) ->
  page_count t = 1
  /\ (exists scale, renders t = [(i, scale)])
  /\ pdf_saves t = [].
Proof.
  unfold process_page. intros H.
  apply bind_ok in H as (scale & t0 & r0 & Hs & H & ->).
  apply scale_factor_silent in Hs as ->.
  apply bind_ok in H as (img & t1 & r1 & Hp & H & ->).
  apply call_ok in Hp as [_ ->].
  apply bind_ok in H as ([] & t2 & r2 & H2 & H & ->).
  apply bind_ok in H as ([] & t3 & r3 & H3 & H & ->).
  apply bind_ok in H as ([] & t4 & r4 & H4 & H & ->).
  apply bind_ok in H as ([] & t5 & r5 & H5 & H & ->).
  apply bind_ok in H as ([] & t6 & r6 & H6 & H & ->).
  apply bind_ok in H as ([] & t7 & r7 & H7 & H & ->).
  apply pil_call_ok in H5 as ->.
  apply call_ok in H6 as [_ ->]. apply call_ok in H7 as [_ ->].
  unfold emit in H. inversion H; subst r7.
  assert (E2 : t2 = if Py.str_in (mode img) ["RGBA"; "LA"; "P"]
                    then [Pil ConvertRGB] else []).
  { destruct (Py.str_in _ _).
    - apply pil_call_ok in H2 as ->. reflexivity.
    - inversion H2. reflexivity. }
  assert (E3 : t3 = if (q <? 50)%Z
                    then [Pil (Quantize 256 "MEDIANCUT"); Pil ConvertRGB]
                    else []).
  { destruct (q <? 50)%Z.
    - apply bind_ok in H3 as ([] & ta & tb & Ha & Hb & ->).
      apply pil_call_ok in Ha as ->. apply pil_call_ok in Hb as ->.
      reflexivity.
    - inversion H3. reflexivity. }
  assert (E4 : t4 = if (q <? 40)%Z then [Pil (GaussianBlur 0.5)] else []).
  { destruct (q <? 40)%Z.
    - apply pil_call_ok in H4 as ->. reflexivity.
    - inversion H4. reflexivity. }
  subst t2 t3 t4.
  destruct (Py.str_in _ _), (q <? 50)%Z, (q <? 40)%Z;
    (split; [reflexivity|]; split; [exists scale; reflexivity|reflexivity]).
Qed.

Lemma pages_done env q mw mh total pages : forall start t,
  for_loop start pages tt (fun page_num page _ =>
    process_page env q mw mh total page_num page) = (Ok tt, t) ->
  page_count t = List.length pages
  /\ map fst (renders t) = seq start (List.length pages)
  /\ pdf_saves t = [].
Proof.
  induction pages as [|page pages IH]; intros start t H.
  - inversion H. repeat split.
  - cbn [for_loop] in H.
    apply bind_ok in H as ([] & t1 & t2 & H1 & H2 & ->).
    apply process_page_done in H1 as (P1 & (scale & R1) & S1).
    apply IH in H2 as (P2 & R2 & S2).
    rewrite page_count_app, renders_app, pdf_saves_app, map_app,
      P1, P2, R1, R2, S1, S2.
    repeat split.
Qed.

(** In the embedding the handler of compress_pdf_advanced turns every
    error into [None]. *)
Lemma advanced_result env input_pdf output_pdf q mw mh :
  exists res t,
    compress_pdf_advanced env input_pdf output_pdf q mw mh = (Ok res, t).
Proof.
  unfold compress_pdf_advanced.
  destruct (exists_ env input_pdf);
    [|exists None; eexists; reflexivity].
  cbn [negb]. cbv iota zeta.
  match goal with
  | |- context [try_except ?b ?h] => destruct b as [[res|e] t]
  end.
  - exists res, t. reflexivity.
  - exists None. eexists. reflexivity.
Qed.

(** What a returned path tells of the run. *)
Lemma advanced_returned env input_pdf output_pdf q mw mh p t :
  compress_pdf_advanced env input_pdf output_pdf q mw mh = (Ok (Some p), t) ->
  p = Compress.output_path input_pdf output_pdf "_advanced_compressed"
  /\ pdf_saves t = [(p, high_flags)]
  /\ exists pages,
      open_pdf env input_pdf = Ok pages
      /\ page_count t = List.length pages
      /\ map fst (renders t) = seq 0 (List.length pages).
Proof.
  unfold compress_pdf_advanced.
  destruct (exists_ env input_pdf); [|discriminate].
  cbn [negb]. cbv iota zeta.
  set (out := Compress.output_path input_pdf output_pdf
                                   "_advanced_compressed").
  match goal with
  | |- context [try_except ?b ?h] => destruct b as [[res|e] t'] eqn:B
  end; [|discriminate].
  cbn [try_except]. intros E. inversion E; subst res t'. clear E.
  apply bind_ok in B as (size & t0 & r0 & Q0 & B & ->).
  inversion Q0; subst t0. clear Q0.
  apply bind_ok in B as ([] & t1 & r1 & Q1 & B & ->).
  inversion Q1; subst t1. clear Q1.
  apply bind_ok in B as ([] & t2 & r2 & Q2 & B & ->).
  inversion Q2; subst t2. clear Q2.
  apply bind_ok in B as (pages & t3 & r3 & Q3 & B & ->).
  apply call_ok in Q3 as [Hopen ->].
  apply bind_ok in B as ([] & t4 & r4 & Q4 & B & ->).
  apply call_ok in Q4 as [_ ->].
  apply bind_ok in B as ([] & t5 & r5 & Q5 & B & ->).
  inversion Q5; subst t5. clear Q5.
  apply bind_ok in B as ([] & t6 & r6 & Q6 & B & ->).
  apply pages_done in Q6 as (P6 & R6 & S6).
  apply bind_ok in B as ([] & t7 & r7 & Q7 & B & ->).
  apply call_ok in Q7 as [_ ->].
  apply bind_ok in B as ([] & t8 & r8 & Q8 & B & ->).
  inversion Q8; subst t8. clear Q8.
  apply bind_ok in B as ([] & t9 & r9 & Q9 & B & ->).
  inversion Q9; subst t9. clear Q9.
  apply bind_ok in B as (csize & t10 & r10 & Q10 & B & ->).
  inversion Q10; subst t10.
  apply bind_ok in B as (msg & t11 & r11 & Q11 & B & ->).
  assert (t11 = []) as ->.
  { unfold Compress.ratio in Q11.
    destruct (size =? 0)%Z; inversion Q11. reflexivity. }
  apply bind_ok in B as ([] & t12 & r12 & Q12 & B & ->).
  inversion Q12; subst t12. clear Q12.
  apply bind_ok in B as ([] & t13 & r13 & Q13 & B & ->).
  inversion Q13; subst t13. clear Q13.
  apply bind_ok in B as ([] & t14 & r14 & Q14 & B & ->).
  inversion Q14; subst t14. clear Q14.
  inversion B; subst p r14.
  split; [reflexivity|].
  cbn [app pdf_saves page_count renders map].
  rewrite !pdf_saves_app, !page_count_app, !renders_app, S6, P6, map_app,
    R6.
  cbn [app pdf_saves page_count renders map]. rewrite app_nil_r.
  split; [reflexivity|]. exists pages. rewrite Nat.add_0_r. auto.
Qed.

(** X10. When compress_pdf_advanced returns a path, the input opened
    and every one of its pages was rendered exactly once, in order; the
    new document got exactly as many pages as the input has; it was
    saved once, under the returned path (which ends in [.pdf] in some
    case), with the settings of the level "high" of compress_pdf. *)
Theorem advanced_returns_a_rebuilt_copy env input_pdf output_pdf q mw mh
        p t :
  compress_pdf_advanced env input_pdf output_pdf q mw mh = (Ok (Some p), t) ->
  p = Compress.output_path input_pdf output_pdf "_advanced_compressed"
  /\ Py.endswith (Py.lower p) ".pdf" = true
  /\ Compress.lookup "high" Compress.compression_settings = Some high_flags
  /\ pdf_saves t = [(p, high_flags)]
  /\ exists pages,
      open_pdf env input_pdf = Ok pages
      /\ page_count t = List.length pages
      /\ map fst (renders t) = seq 0 (List.length pages).
Proof.
  intros E.
  destruct (advanced_returned _ _ _ _ _ _ _ _ E) as (-> & S & H).
  split; [reflexivity|]. split; [apply output_path_pdf|].
  split; [reflexivity|]. split; [exact S|exact H].
Qed.

Lemma advanced_returns_a_rebuilt_copy_witness :
  pdf_saves
    (snd (compress_pdf_advanced
            (Sample.adv_env [Sample.letter; Sample.tabloid])
            "in.pdf" None 30 1200 1600))
  = [("in_advanced_compressed.pdf", high_flags)].
Proof.
  destruct (compress_pdf_advanced
              (Sample.adv_env [Sample.letter; Sample.tabloid])
              "in.pdf" None 30 1200 1600) as [res t] eqn:E.
  assert (R : res = Ok (Some "in_advanced_compressed.pdf")).
  { apply (f_equal fst) in E. vm_compute in E. symmetry. exact E. }
  subst res. cbn [snd].
  apply (advanced_returns_a_rebuilt_copy _ _ _ _ _ _ _ _ E).
Defined.

(** A page whose calls return is processed. *)
Lemma process_page_returns env q mw mh total i page :
  (0 < rect_width page)%Q -> (0 < rect_height page)%Q ->
  (forall scale, exists img, get_pixmap env i scale = Ok img) ->
  (forall op, pil env i op = Ok tt) ->
  new_page env i = Ok tt -> insert_image env i = Ok tt ->
  exists t, process_page env q mw mh total i page = (Ok tt, t).
Proof.
  intros Hw Hh Hpix Hpil Hnew Hins.
  destruct (scale_factor_min mw mh _ _ Hw Hh) as (scale & Hs & _).
  destruct (Hpix scale) as (img & Himg).
  unfold process_page, pil_call. rewrite Hs. cbn [bind].
  rewrite Himg, Hnew, Hins, !Hpil. cbn [call lift bind emit ret app].
  destruct (Py.str_in (mode img) ["RGBA"; "LA"; "P"]), (q <? 50)%Z,
    (q <? 40)%Z; eexists; reflexivity.
Qed.

Lemma pages_return env q mw mh total pages : forall start,
  Forall (fun page => (0 < rect_width page)%Q /\ (0 < rect_height page)%Q)
         pages ->
  (forall i scale, exists img, get_pixmap env i scale = Ok img) ->
  (forall i op, pil env i op = Ok tt) ->
  (forall i, new_page env i = Ok tt) ->
  (forall i, insert_image env i = Ok tt) ->
  exists t,
    for_loop start pages tt (fun page_num page _ =>
      process_page env q mw mh total page_num page) = (Ok tt, t).
Proof.
  induction pages as [|page pages IH]; intros start Hsz Hpix Hpil Hnew Hins.
  - exists []. reflexivity.
  - inversion Hsz as [|? ? [Hw Hh] Hrest]; subst.
    destruct (process_page_returns env q mw mh total start page Hw Hh
                (Hpix start) (Hpil start) (Hnew start) (Hins start))
      as (t1 & E1).
    destruct (IH (S start) Hrest Hpix Hpil Hnew Hins) as (t2 & E2).
    exists (t1 ++ t2). cbn [for_loop]. unfold bind. rewrite E1, E2.
    reflexivity.
Qed.

(** X11. When every library call returns, the input is not empty and
    its pages have a size, compress_pdf_advanced returns the output path,
    having saved there a document with one rendered page per page of the
    input. *)
Theorem advanced_compression_succeeds env input_pdf output_pdf q mw mh
        pages :
  let out :=
    Compress.output_path input_pdf output_pdf "_advanced_compressed" in
  Ref.adv_cooperative env input_pdf out pages ->
  let r := compress_pdf_advanced env input_pdf output_pdf q mw mh in
  fst r = Ok (Some out)
  /\ pdf_saves (snd r) = [(out, high_flags)]
  /\ page_count (snd r) = List.length pages
  /\ map fst (renders (snd r)) = seq 0 (List.length pages).
Proof.
  intros out (Hex & (size & Hs & Hnz) & Hopen & Hnewpdf & Hsz & Hpix & Hpil
              & Hnew & Hins & Hsave & (csize & Hc)) r.
  assert (E : fst r = Ok (Some out)).
  { subst r. unfold compress_pdf_advanced. rewrite Hex.
    cbn [negb]. cbv iota zeta. fold out.
    destruct (pages_return env q mw mh (List.length pages) pages 0
                           Hsz Hpix Hpil Hnew Hins) as (tl & El).
    unfold Compress.ratio.
    rewrite Hs, Hopen, Hnewpdf. cbn [lift bind emit print call ret].
    rewrite El, Hsave. cbn [lift bind emit print call ret].
    rewrite Hc. apply Z.eqb_neq in Hnz. rewrite Hnz. reflexivity. }
  split; [exact E|].
  destruct r as [res t] eqn:Er. cbn [fst snd] in *. subst res.
  destruct (advanced_returned _ _ _ _ _ _ _ _ Er)
    as (_ & S & pages' & Hopen' & P & R).
  rewrite Hopen in Hopen'. inversion Hopen'; subst pages'. auto.
Qed.

Lemma advanced_compression_succeeds_witness :
  fst (compress_pdf_advanced
         (Sample.adv_env [Sample.letter; Sample.tabloid])
         "in.pdf" None 30 1200 1600)
  = Ok (Some "in_advanced_compressed.pdf").
Proof.
  apply (advanced_compression_succeeds
           (Sample.adv_env [Sample.letter; Sample.tabloid])
           "in.pdf" None 30 1200 1600 [Sample.letter; Sample.tabloid]).
  unfold Ref.adv_cooperative. cbn.
  split; [reflexivity|]. split; [exists 4096%Z; split; [reflexivity|lia]|].
  split; [reflexivity|]. split; [reflexivity|].
  split; [repeat constructor|].
  split; [intros; eexists; reflexivity|].
  repeat split. exists 4096%Z. reflexivity.
Defined.
End AdvancedFacts.
(** * main: the checks before an operation runs *)

Lemma bind_ret {A B} (a : A) (f : A -> M B) : bind (ret a) f = f a.
Proof. unfold bind, ret. destruct (f a). reflexivity. Qed.

Section Every.
Variable P : Event -> Prop.

Lemma every_ret {A} (a : A) : every P (ret a).
Proof. constructor. Qed.

Lemma every_raise {A} e : every P (@raise A e).
Proof. constructor. Qed.

Lemma every_lift {A} (r : result A) : every P (lift r).
Proof. constructor. Qed.

Lemma every_emit ev : P ev -> every P (emit ev).
Proof. intros H. repeat constructor. exact H. Qed.

Lemma every_bind {A B} (m : M A) (f : A -> M B) :
  every P m -> (forall a, every P (f a)) -> every P (bind m f).
Proof.
  unfold every. intros Hm Hf.
  destruct (bind_trace_cases m f) as [E|(a & _ & E)]; rewrite E.
  - exact Hm.
  - apply Forall_app. split; [exact Hm|apply Hf].
Qed.

Lemma every_call {A} ev (r : result A) : P ev -> every P (call ev r).
Proof.
  intros H. unfold call. apply every_bind; [apply every_lift|].
  intros a. apply every_bind; [apply every_emit, H|].
  intros _. apply every_ret.
Qed.

Lemma every_for_loop {X St} (body : nat -> X -> St -> M St) xs :
  (forall i x s, every P (body i x s)) ->
  forall start s, every P (for_loop start xs s body).
Proof.
  intros Hb. induction xs as [|x xs IH]; intros start s.
  - apply every_ret.
  - cbn [for_loop]. apply every_bind; [apply Hb|]. intros s'. apply IH.
Qed.
End Every.

Section ExtractionEvents.
Import Extract.

Lemma extraction_print pdf_path output_folder s :
  every (Ref.extraction_event pdf_path output_folder) (print s).
Proof. apply every_emit. exact I. Qed.

(** In any environment, the filtered extraction creates no folder but the
    output folder and writes no file but the images' own. *)
Lemma extraction_events env pdf_path output_folder min_width min_height :
  every (Ref.extraction_event pdf_path output_folder)
        (extract_images_with_quality_filter env pdf_path output_folder
                                            min_width min_height).
Proof.
  unfold extract_images_with_quality_filter.
  apply every_bind.
  { destruct (exists_ env output_folder);
      [apply every_ret|apply every_call; reflexivity]. }
  intros _. apply every_bind; [apply every_call; exact I|].
  intros pdf_document. cbv zeta. apply every_bind.
  - apply every_for_loop. intros p image_list count.
    apply every_for_loop. intros i img count'.
    unfold extract_image. apply every_bind; [apply every_lift|].
    intros pix. destruct (_ && _)%bool.
    + cbv zeta. apply every_bind.
      * apply every_call. exists p, i. reflexivity.
      * intros _. apply every_bind; [apply extraction_print|].
        intros _. apply every_ret.
    + apply every_bind; [apply extraction_print|].
      intros _. apply every_ret.
  - intros count. apply every_bind; [apply every_emit; exact I|].
    intros _. apply every_ret.
Qed.

Lemma every_made_dirs pdf_path output_folder t :
  Forall (Ref.extraction_event pdf_path output_folder) t ->
  forall d, In d (made_dirs t) -> d = output_folder.
Proof.
  induction 1 as [|ev t H _ IH]; intros d Hin; [contradiction|].
  destruct ev; cbn [made_dirs] in Hin; auto.
  destruct Hin as [<-|Hin]; auto.
Qed.

Lemma every_pixmap_write pdf_path output_folder t :
  Forall (Ref.extraction_event pdf_path output_folder) t ->
  forall path,
    In path (pixmap_writes t) ->
    exists p i, path = Spec.written_path pdf_path output_folder (p, i).
Proof.
  induction 1 as [|ev t H _ IH]; intros path' Hin; [contradiction|].
  destruct ev; cbn [pixmap_writes] in Hin; auto.
  destruct Hin as [<-|Hin]; auto.
Qed.

(** The path of an image in the folder main names after the PDF. *)
Lemma written_path_in_named_folder pdf_file p i :
  let stem := pdf_name pdf_file in
  Spec.written_path pdf_file (stem +++ "_images") (p, i)
  = stem +++ "_images/" +++ stem +++ "_page" +++ Py.str (N.of_nat (p + 1))
         +++ "_img" +++ Py.str (N.of_nat (i + 1)) +++ ".png".
Proof.
  intros stem. unfold Spec.written_path, img_filename. cbn [fst snd].
  fold stem. unfold Py.join.
  assert (S1 : forall x, Py.startswith (stem +++ String "_" x) "/" = false).
  { intros x. pose proof (pdf_name_no_sep pdf_file) as N. fold stem in N.
    destruct stem as [|c stem']; [reflexivity|].
    cbn [String.append Py.startswith]. cbn [Py.contains] in N.
    apply orb_false_iff in N as [N _]. rewrite Ascii.eqb_sym, N.
    reflexivity. }
  change (stem +++ "_page" +++ Py.str (N.of_nat (p + 1)) +++ "_img"
               +++ Py.str (N.of_nat (i + 1)) +++ ".png")
    with (stem +++ String "_" ("page" +++ Py.str (N.of_nat (p + 1))
                                      +++ "_img"
                                      +++ Py.str (N.of_nat (i + 1))
                                      +++ ".png")).
  rewrite S1.
  assert (E1 : String.eqb (stem +++ "_images") "" = false).
  { destruct stem; reflexivity. }
  assert (E2 : Py.endswith (stem +++ "_images") "/" = false).
  { destruct (Py.endswith (stem +++ "_images") "/") eqn:E; [|reflexivity].
    apply endswith_true in E as (a & E).
    change (stem +++ "_images") with (stem +++ "_image" +++ "s") in E.
    rewrite <- append_assoc in E.
    apply append_last_char in E as [_ E]. discriminate. }
  rewrite E1, E2. cbn [orb]. rewrite !append_assoc. reflexivity.
Qed.
End ExtractionEvents.

Section MainFacts.
Import Main.

Lemma main_extract w args :
  command args = "extract" ->
  main w args
  = (let pdf_file := path args in
     found <- path_exists w pdf_file ;;
     if negb found
     then print ("PDF file not found: " +++ show_path pdf_file)
     else
       let pdf_file := the_path pdf_file in
       let pdf_name := fst (Py.splitext (Py.basename pdf_file)) in
       let output_dir := pdf_name +++ "_images" in
       print ("Extracting images from: " +++ pdf_file) ;;;
       print ("Output folder: " +++ output_dir) ;;;
       extracted_count <-
         Extract.extract_images_with_quality_filter
           (extract_env w) pdf_file output_dir
           (min_width args) (min_height args) ;;
       print (newline +++ "Extraction complete! "
              +++ Py.str (N.of_nat extracted_count)
              +++ " images extracted.")).
Proof. intros H. unfold main. rewrite H. reflexivity. Qed.

Lemma main_rotate w args :
  command args = "rotate" ->
  main w args
  = (let directory_path := path args in
     found <- path_exists w directory_path ;;
     if negb found
     then print ("Directory not found: " +++ show_path directory_path)
     else
       let directory_path := the_path directory_path in
       rotated_count <-
         Rotate.rotate_images_in_directory
           (rotate_env w) directory_path (direction args)
           (negb (no_overwrite args)) ;;
       print (newline +++ "Rotation complete! "
              +++ Py.str (N.of_nat rotated_count) +++ " images rotated.")).
Proof. intros H. unfold main. rewrite H. reflexivity. Qed.

Lemma main_create_pdf w args :
  command args = "create_pdf" ->
  main w args
  = (let directory_path := path args in
     found <- path_exists w directory_path ;;
     if negb found
     then print ("Directory not found: " +++ show_path directory_path)
     else
       let directory_path := the_path directory_path in
       output_pdf <-
         CreatePdf.create_pdf_from_images
           (create_env w) directory_path (output args) ;;
       if truthy output_pdf
       then print (newline +++ "PDF creation complete! Created: "
                   +++ show_path output_pdf)
       else print (newline +++ "PDF creation failed!")).
Proof. intros H. unfold main. rewrite H. reflexivity. Qed.

Lemma main_compress w args :
  command args = "compress" ->
  main w args
  = (let pdf_file := path args in
     found <- path_exists w pdf_file ;;
     if negb found
     then print ("PDF file not found: " +++ show_path pdf_file)
     else
       let pdf_file := the_path pdf_file in
       compressed_pdf <-
         Compress.compress_pdf
           (compress_env w) pdf_file (output args) (compression args) ;;
       if truthy compressed_pdf
       then print (newline +++ "PDF compression complete! Created: "
                   +++ show_path compressed_pdf)
       else print (newline +++ "PDF compression failed!")).
Proof. intros H. unfold main. rewrite H. reflexivity. Qed.

Lemma main_compress_adv w args :
  command args = "compress_adv" ->
  main w args
  = (let pdf_file := path args in
     found <- path_exists w pdf_file ;;
     if negb found
     then print ("PDF file not found: " +++ show_path pdf_file)
     else
       let pdf_file := the_path pdf_file in
       if negb ((1 <=? quality args) && (quality args <=? 100))%Z
       then print "Quality must be between 1 and 100"
       else if ((max_width args <? 200) || (max_height args <? 200))%Z
       then print "Maximum width and height must be at least 200 pixels"
       else
         compressed_pdf <-
           CompressAdv.compress_pdf_advanced
             (adv_env w) pdf_file (output args)
             (quality args) (max_width args) (max_height args) ;;
         if truthy compressed_pdf
         then print (newline
                     +++ "Advanced PDF compression complete! Created: "
                     +++ show_path compressed_pdf)
         else print (newline +++ "Advanced PDF compression failed!")).
Proof. intros H. unfold main. rewrite H. reflexivity. Qed.

(** X12. For each of the five commands that work on a path, main looks
    at the path before anything else: when the path is left out,
    [os.path.exists(None)] raises a TypeError and nothing has been
    printed or done; when the path does not exist, main prints one line
    that ends in "not found: " and the path, and does nothing else. *)
Theorem main_checks_the_path_first w args :
  In (command args) operations ->
  (path args = None ->
   main w args
   = (Raise ("stat: path should be string, bytes, os.PathLike or integer, "
             +++ "not NoneType"), []))
  /\ (forall p,
        path args = Some p -> exists_ w p = false ->
        exists line,
          main w args = (Ok tt, [Print (Text line)])
          /\ Py.endswith line ("not found: " +++ p) = true).
Proof.
  intros Hc. split.
  - intros Hp.
    destruct Hc as [Hc|[Hc|[Hc|[Hc|[Hc|[]]]]]]; symmetry in Hc;
      [ rewrite (main_extract w args Hc)
      | rewrite (main_rotate w args Hc)
      | rewrite (main_create_pdf w args Hc)
      | rewrite (main_compress w args Hc)
      | rewrite (main_compress_adv w args Hc) ];
      rewrite Hp; reflexivity.
  - intros p Hp Hex.
    destruct Hc as [Hc|[Hc|[Hc|[Hc|[Hc|[]]]]]]; symmetry in Hc;
      [ rewrite (main_extract w args Hc)
      | rewrite (main_rotate w args Hc)
      | rewrite (main_create_pdf w args Hc)
      | rewrite (main_compress w args Hc)
      | rewrite (main_compress_adv w args Hc) ];
      rewrite Hp; cbn [path_exists ret bind show_path]; rewrite Hex;
      cbn [negb print emit app]; eexists; (split; [reflexivity|]);
      (apply endswith_true;
       first [ exists "PDF file "; reflexivity
             | exists "Directory "; reflexivity ]).
Qed.

Lemma main_checks_the_path_first_witness :
  main (Cases.world false)
       (defaults "rotate" None)
  = (Raise ("stat: path should be string, bytes, os.PathLike or integer, "
            +++ "not NoneType"), []).
Proof.
  apply main_checks_the_path_first.
  - cbn. auto.
  - reflexivity.
Defined.

(** X13. For compress_adv on an existing path, main validates the
    options before it calls compress_pdf_advanced: with a quality outside
    1..100 it prints "Quality must be between 1 and 100" and does nothing
    else; otherwise, with a maximum below 200, it prints that both must
    be at least 200 and does nothing else; otherwise its run is the run
    of compress_pdf_advanced on the arguments, followed by one line. *)
Theorem main_validates_advanced_options w args p :
  command args = "compress_adv" ->
  path args = Some p -> exists_ w p = true ->
  (~ (1 <= quality args <= 100)%Z ->
   main w args = (Ok tt, [Print (Text "Quality must be between 1 and 100")]))
  /\ ((1 <= quality args <= 100)%Z ->
      (max_width args < 200)%Z \/ (max_height args < 200)%Z ->
      main w args
      = (Ok tt,
         [Print (Text ("Maximum width and height must be at least "
                       +++ "200 pixels"))]))
  /\ ((1 <= quality args <= 100)%Z ->
      (200 <= max_width args)%Z -> (200 <= max_height args)%Z ->
      exists line,
        main w args
        = (Ok tt,
           snd (CompressAdv.compress_pdf_advanced
                  (adv_env w) p (output args)
                  (quality args) (max_width args) (max_height args))
           ++ [Print (Text line)])).
Proof.
  intros Hc Hp Hex. rewrite (main_compress_adv w args Hc), Hp.
  cbn [path_exists ret bind the_path show_path]. rewrite Hex. cbn [negb].
  split; [|split].
  - intros Q.
    replace ((1 <=? quality args) && (quality args <=? 100))%Z with false
      by (symmetry; apply andb_false_iff; rewrite !Z.leb_gt; lia).
    reflexivity.
  - intros [Q1 Q2] D. apply Z.leb_le in Q1, Q2. rewrite Q1, Q2.
    cbn [andb negb].
    replace ((max_width args <? 200) || (max_height args <? 200))%Z
      with true
      by (symmetry; apply orb_true_iff; rewrite !Z.ltb_lt; exact D).
    reflexivity.
  - intros [Q1 Q2] Hw Hh.
    apply Z.leb_le in Q1, Q2. rewrite Q1, Q2. cbn [andb negb].
    apply Z.ltb_ge in Hw, Hh. rewrite Hw, Hh. cbn [orb].
    destruct (advanced_result (adv_env w) p (output args)
                (quality args) (max_width args) (max_height args))
      as (res & ta & E).
    rewrite E. cbn [bind snd].
    destruct (truthy res); eexists; reflexivity.
Qed.

Lemma main_validates_advanced_options_witness :
  exists line,
    main (Cases.world true) (defaults "compress_adv" (Some "in.pdf"))
    = (Ok tt,
       snd (CompressAdv.compress_pdf_advanced
              (Sample.adv_env [Sample.letter]) "in.pdf" None 30 1200 1600)
       ++ [Print (Text line)]).
Proof.
  destruct (main_validates_advanced_options
              (Cases.world true) (defaults "compress_adv" (Some "in.pdf"))
              "in.pdf" eq_refl eq_refl eq_refl) as (_ & _ & H).
  apply H; cbn; lia.
Defined.

(** X15. Whatever the libraries do, main's extract command creates no
    folder but [{stem}_images], where stem is the base name of the PDF
    without its extension, and writes no file but
    [{stem}_images/{stem}_page{p}_img{i}.png] for positive p and i: the
    folder is relative to the current directory, not to the PDF's. *)
Theorem main_extracts_into_named_folder w args pdf_file :
  command args = "extract" ->
  path args = Some pdf_file ->
  let stem := fst (Py.splitext (Py.basename pdf_file)) in
  let t := snd (main w args) in
  (forall d, In d (made_dirs t) -> d = stem +++ "_images")
  /\ (forall written,
        In written (pixmap_writes t) ->
        exists p i,
          written
          = stem +++ "_images/" +++ stem
                 +++ "_page" +++ Py.str (N.of_nat (p + 1))
                 +++ "_img" +++ Py.str (N.of_nat (i + 1)) +++ ".png")
  /\ Py.contains "/" stem = false.
Proof.
  intros Hc Hp stem t.
  assert (E : Forall (Ref.extraction_event pdf_file (stem +++ "_images")) t).
  { subst t. rewrite (main_extract w args Hc), Hp. cbv zeta.
    change (path_exists w (Some pdf_file)) with (ret (exists_ w pdf_file)).
    rewrite bind_ret.
    destruct (exists_ w pdf_file); cbn [negb the_path].
    - fold stem.
      apply every_bind; [apply extraction_print|]. intros _.
      apply every_bind; [apply extraction_print|]. intros _.
      apply every_bind; [apply extraction_events|]. intros n.
      apply extraction_print.
    - repeat constructor. }
  split; [|split].
  - apply (every_made_dirs pdf_file), E.
  - intros written Hin.
    destruct (every_pixmap_write pdf_file _ t E written Hin) as (p & i & ->).
    exists p, i. apply written_path_in_named_folder.
  - apply pdf_name_no_sep.
Qed.

Lemma main_extracts_into_named_folder_witness :
  In "doc_images"
     (made_dirs (snd (main (Cases.world true)
                           (defaults "extract" (Some "in/doc.pdf")))))
  /\ (forall d,
        In d (made_dirs (snd (main (Cases.world true)
                                   (defaults "extract" (Some "in/doc.pdf")))))
        -> d = "doc_images").
Proof.
  split.
  - left. reflexivity.
  - apply (main_extracts_into_named_folder _ _ "in/doc.pdf").
    + reflexivity.
    + reflexivity.
Defined.

(** X16. What the parser lets through is recognized by the operations:
    each of the four directions of the command line is a direction of
    rotate_images_in_directory, clockwise for [clockwise] and [cw] and
    anticlockwise for the other two, and each of the three levels has
    its settings in compress_pdf; so the "Invalid direction" and "Invalid
    compression level" branches are not reached from the command
    line. *)
Theorem cli_choices_are_recognized args :
  parsed args ->
  (exists angle direction_text,
      Rotate.parse_direction (direction args) = Some (angle, direction_text)
      /\ ((angle = (-90)%Z /\ direction_text = "clockwise"
           /\ (direction args = "clockwise" \/ direction args = "cw"))
          \/ (angle = 90%Z /\ direction_text = "anticlockwise"
              /\ (direction args = "anticlockwise"
                  \/ direction args = "acw"))))
  /\ (exists settings,
         Compress.lookup (compression args) Compress.compression_settings
         = Some settings
         /\ In ("clean", VBool true) settings).
Proof.
  intros (_ & Hd & Hl). split.
  - destruct Hd as [<-|[<-|[<-|[<-|[]]]]]; eexists; eexists;
      (split; [reflexivity|]);
      first [ left; repeat split; auto; fail
            | right; repeat split; auto ].
  - destruct Hl as [<-|[<-|[<-|[]]]]; eexists;
      (split; [reflexivity|]); cbn; auto 10.
Qed.

Lemma cli_choices_are_recognized_witness :
  exists settings,
    Compress.lookup "medium" Compress.compression_settings = Some settings
    /\ In ("clean", VBool true) settings.
Proof.
  apply (cli_choices_are_recognized (defaults "compress" (Some "in.pdf"))).
  unfold parsed. cbn. repeat split; auto 10.
Defined.
End MainFacts.
(** * The page pattern: which names it accepts *)

Section MatcherComplete.
Context {A : Type}.

Lemma lit_prefix_sound text : forall s m r,
  Re.lit_prefix text s = Some (m, r) ->
  s = m +++ r /\ Py.lower m = Py.lower text.
Proof.
  induction text as [|a text IH]; intros s m r H; cbn [Re.lit_prefix] in H.
  - inversion H. auto.
  - destruct s as [|b s]; [discriminate|].
    destruct (Ascii.eqb_spec (Py.lower_char a) (Py.lower_char b)) as [E|N];
      [|discriminate].
    destruct (Re.lit_prefix text s) as [[m' r']|] eqn:L; [|discriminate].
    inversion H; subst. apply IH in L as [-> L].
    cbn [String.append Py.lower]. rewrite L, E. auto.
Qed.

Lemma lit_prefix_complete text : forall m r,
  Py.lower m = Py.lower text -> Re.lit_prefix text (m +++ r) = Some (m, r).
Proof.
  induction text as [|a text IH]; intros m r H; destruct m as [|b m];
    try discriminate; cbn [Py.lower String.append Re.lit_prefix] in *.
  - reflexivity.
  - injection H as Hc Hm.
    rewrite Hc, Ascii.eqb_refl, (IH _ _ Hm). reflexivity.
Qed.

Lemma lit_prefix_split text s m r :
  Re.lit_prefix text s = Some (m, r) <->
  s = m +++ r /\ Py.lower m = Py.lower text.
Proof.
  split; [apply lit_prefix_sound|].
  intros [-> H]. apply lit_prefix_complete, H.
Qed.

Lemma star_finds c (k : string -> option A) : forall s,
  Re.star c k s <> None <->
  exists m r, s = m +++ r /\ Re.all_match c m = true /\ k r <> None.
Proof.
  induction s as [|a s IH].
  - cbn [Re.star]. split.
    + intros H. exists "", "". auto.
    + intros (m & r & E & _ & H). destruct m; [|discriminate].
      cbn [String.append] in E. subst r. exact H.
  - cbn [Re.star]. destruct (Re.cmatch c a) eqn:C.
    + destruct (Re.star c k s) as [x|] eqn:S.
      * split; [|discriminate]. intros _.
        destruct (proj1 IH) as (m & r & -> & M & K); [discriminate|].
        exists (String a m), r. cbn [String.append Re.all_match].
        rewrite C, M. auto.
      * split.
        -- intros H. exists "", (String a s). auto.
        -- intros (m & r & E & M & K). destruct m as [|b m].
           ++ cbn [String.append] in E. subst r. exact K.
           ++ cbn [String.append Re.all_match] in E, M. injection E as Ea Es; subst b s.
              apply andb_true_iff in M as [_ M].
              exfalso. apply (proj2 IH); [|reflexivity].
              exists m, r. auto.
    + split.
      * intros H. exists "", (String a s). auto.
      * intros (m & r & E & M & K). destruct m as [|b m].
        -- cbn [String.append] in E. subst r. exact K.
        -- cbn [String.append Re.all_match] in E, M. injection E as Ea Es; subst b s.
           rewrite C in M. discriminate.
Qed.

Lemma plus_finds c (k : string -> string -> option A) : forall s acc,
  Re.plus c k acc s <> None <->
  exists m r,
    s = m +++ r /\ m <> "" /\ Re.all_match c m = true
    /\ k (acc +++ m) r <> None.
Proof.
  induction s as [|a s IH]; intros acc.
  - cbn [Re.plus]. split; [congruence|].
    intros (m & r & E & N & _). destruct m; [congruence|discriminate].
  - cbn [Re.plus]. destruct (Re.cmatch c a) eqn:C.
    + cbv zeta.
      destruct (Re.plus c k (acc +++ String a "") s) as [x|] eqn:S.
      * split; [|discriminate]. intros _.
        destruct (proj1 (IH (acc +++ String a ""))) as (m & r & -> & N & M & K);
          [rewrite S; discriminate|].
        exists (String a m), r. cbn [String.append Re.all_match].
        rewrite C, M. rewrite append_snoc in K.
        split; [reflexivity|]. split; [discriminate|]. auto.
      * split.
        -- intros H. exists (String a ""), s. cbn [Re.all_match].
           rewrite C. split; [reflexivity|]. split; [discriminate|]. auto.
        -- intros (m & r & E & N & M & K). destruct m as [|b m]; [congruence|].
           cbn [String.append Re.all_match] in E, M. injection E as Ea Es; subst b s.
           apply andb_true_iff in M as [_ M].
           destruct m as [|b' m'].
           ++ exact K.
           ++ exfalso.
              apply (proj2 (IH (acc +++ String a ""))); [|exact S].
              exists (String b' m'), r. rewrite append_snoc.
              split; [reflexivity|]. split; [discriminate|]. auto.
    + split; [congruence|].
      intros (m & r & E & N & M & _). destruct m as [|b m]; [congruence|].
      cbn [String.append Re.all_match] in E, M. injection E as Ea Es; subst b s.
      rewrite C in M. discriminate.
Qed.

Lemma alt_finds (k : string -> string -> option A) s : forall alts,
  Re.alt alts k s <> None <->
  exists text m r,
    In text alts /\ Re.lit_prefix text s = Some (m, r) /\ k m r <> None.
Proof.
  induction alts as [|text alts IH].
  - cbn [Re.alt]. split; [congruence|]. intros (t & m & r & [] & _).
  - cbn [Re.alt].
    destruct (Re.lit_prefix text s) as [[m r]|] eqn:L.
    + destruct (k m r) as [x|] eqn:K.
      * split; [|discriminate]. intros _. exists text, m, r.
        split; [left; reflexivity|]. split; [exact L|]. congruence.
      * rewrite IH. split.
        -- intros (t & m' & r' & Hin & H). exists t, m', r'.
           split; [right; exact Hin|exact H].
        -- intros (t & m' & r' & [<-|Hin] & L' & K').
           ++ rewrite L in L'. inversion L'; subst. congruence.
           ++ exists t, m', r'. auto.
    + rewrite IH. split.
      * intros (t & m' & r' & Hin & H). exists t, m', r'.
        split; [right; exact Hin|exact H].
      * intros (t & m' & r' & [<-|Hin] & L' & K').
        -- congruence.
        -- exists t, m', r'. auto.
Qed.
End MatcherComplete.

(** The backtracking search finds a match exactly when the string splits
    the way the pattern says. *)
Lemma run_finds pat : forall s groups,
  Re.run pat s groups <> None <-> Ref.matches pat s.
Proof.
  induction pat as [|atom rest IH]; intros s groups.
  - cbn. split; [auto|discriminate].
  - destruct atom as [text|c|c|alts|]; cbn [Re.run Ref.matches].
    + destruct (Re.lit_prefix text s) as [[m r]|] eqn:L.
      * rewrite IH. apply lit_prefix_split in L as [-> L]. split.
        -- intros H. exists m, r. auto.
        -- intros (m' & r' & E & L' & H).
           assert (Q : Re.lit_prefix text (m +++ r) = Some (m', r')).
           { apply lit_prefix_split. auto. }
           assert (Q0 : Re.lit_prefix text (m +++ r) = Some (m, r)).
           { apply lit_prefix_split. auto. }
           rewrite Q0 in Q. inversion Q; subst. exact H.
      * split; [congruence|]. intros (m & r & E & L' & _).
        assert (Q : Re.lit_prefix text s = Some (m, r)).
        { apply lit_prefix_split. auto. }
        congruence.
    + rewrite star_finds. split.
      * intros (m & r & E & M & K). exists m, r. rewrite <- (IH r groups).
        auto.
      * intros (m & r & E & M & K). exists m, r. rewrite (IH r groups).
        auto.
    + rewrite plus_finds. split.
      * intros (m & r & E & N & M & K). exists m, r.
        apply IH in K. auto.
      * intros (m & r & E & N & M & K). exists m, r.
        rewrite IH. auto.
    + rewrite alt_finds. split.
      * intros (t & m & r & Hin & L & K). exists t, m, r.
        apply lit_prefix_split in L as [E L]. apply IH in K. auto.
      * intros (t & m & r & Hin & E & L & K). exists t, m, r.
        split; [exact Hin|]. split; [apply lit_prefix_split; auto|].
        rewrite IH. exact K.
    + destruct (Re.at_end s).
      * rewrite IH. tauto.
      * split; [congruence|]. intros [H _]. discriminate.
Qed.

Lemma lower_one_char m (x : ascii) :
  Py.is_lower x = false ->
  Py.lower m = String x "" -> m = String x "".
Proof.
  intros Hl H. destruct m as [|c m]; [discriminate|].
  destruct m; [|discriminate]. cbn [Py.lower] in H. injection H as E.
  subst x. f_equal.
  destruct c as [[] [] [] [] [] [] [] []]; try reflexivity;
    vm_compute in Hl; discriminate.
Qed.

Lemma at_end_tail s :
  Re.at_end s = true <-> s = "" \/ s = String "010" "".
Proof.
  unfold Re.at_end. rewrite orb_true_iff, !String.eqb_eq. tauto.
Qed.

Lemma any_no_newline s :
  Re.all_match Re.CAny s = true <-> Py.contains "010" s = false.
Proof.
  rewrite all_match_any. destruct (Py.contains "010" s); simpl; split;
    congruence.
Qed.

(** The page pattern, spelled out. *)
Lemma page_pattern_shape filename :
  Ref.matches CreatePdf.page_pattern filename <-> Ref.page_name filename.
Proof.
  unfold CreatePdf.page_pattern, Ref.page_name. cbn [Ref.matches]. split.
  - intros (before & r1 & -> & Hb & page & r2 & -> & Hp & digits & r3 & ->
            & Hn & Hd & u & r4 & -> & Hu & after & r5 & -> & Ha
            & dot & r6 & -> & Hdot & text & ext & tail & Hin & -> & Hx
            & Hend & _).
    apply (lower_one_char u "_") in Hu; [subst u|reflexivity].
    apply (lower_one_char dot ".") in Hdot; [subst dot|reflexivity].
    exists before, page, digits, after, ext, tail.
    split; [reflexivity|]. split; [exact Hp|]. split; [exact Hn|].
    split; [rewrite <- all_match_digits; exact Hd|].
    split; [apply any_no_newline, Hb|]. split; [apply any_no_newline, Ha|].
    split; [|apply at_end_tail, Hend].
    rewrite Hx.
    destruct Hin as [<-|[<-|[<-|[<-|[<-|[<-|[<-|[]]]]]]]]; cbn; auto 10.
  - intros (before & page & digits & after & ext & tail & -> & Hp & Hn & Hd
            & Hb & Ha & Hin & Hend).
    exists before, (page +++ digits +++ "_" +++ after +++ "." +++ ext
                         +++ tail).
    split; [reflexivity|]. split; [apply any_no_newline, Hb|].
    exists page, (digits +++ "_" +++ after +++ "." +++ ext +++ tail).
    split; [reflexivity|]. split; [exact Hp|].
    exists digits, ("_" +++ after +++ "." +++ ext +++ tail).
    split; [reflexivity|]. split; [exact Hn|].
    split; [rewrite all_match_digits; exact Hd|].
    exists "_", (after +++ "." +++ ext +++ tail).
    split; [reflexivity|]. split; [reflexivity|].
    exists after, ("." +++ ext +++ tail).
    split; [reflexivity|]. split; [apply any_no_newline, Ha|].
    exists ".", (ext +++ tail).
    split; [reflexivity|]. split; [reflexivity|].
    exists (Py.lower ext), ext, tail.
    split; [exact Hin|]. split; [reflexivity|].
    split; [|split; [apply at_end_tail, Hend|exact I]].
    destruct Hin as [E|[E|[E|[E|[E|[E|[E|[]]]]]]]]; rewrite <- E; reflexivity.
Qed.

Section AcceptedNames.
Import CreatePdf.

(** X17. create_pdf_from_images takes a file with an ASCII base name as
    a page exactly when the name follows the page numbering convention:
    some text, then [_page] in any case, one or more digits and [_], some
    text, a dot and one of png, jpg, jpeg, gif, bmp, tiff, webp in any
    case, the name being on one line (a final line feed apart).  Every
    other file with an ASCII base name is skipped with a warning. *)
Theorem accepted_page_names image_path page_images :
  let filename := Py.basename image_path in
  Ref.ascii_text filename = true ->
  ((exists page_num,
       scan_one image_path page_images
       = (Ok (page_images ++ [(page_num, image_path)]), []))
   <-> Ref.page_name filename)
  /\ (~ Ref.page_name filename ->
      scan_one image_path page_images
      = (Ok page_images,
         [Print (Text ("Warning: Skipping file "
                       +++ "(doesn't match page pattern): " +++ filename))])).
Proof.
  intros filename _.
  pose proof (run_finds page_pattern filename []) as R.
  rewrite page_pattern_shape in R. fold (Re.rmatch page_pattern filename) in R.
  unfold scan_one. fold filename.
  destruct (Re.rmatch page_pattern filename) as [m|] eqn:M.
  - destruct (page_match_int filename m M) as (n & Hn). rewrite Hn.
    split.
    + split; [intros _; apply R; discriminate|].
      intros _. exists n. reflexivity.
    + intros H. contradiction H. apply R. discriminate.
  - split.
    + split.
      * intros (n & H). cbn in H. inversion H.
      * intros H. apply R in H. contradiction H. reflexivity.
    + intros _. reflexivity.
Qed.

Lemma accepted_page_names_witness :
  exists page_num,
    scan_one "scans/doc_Page12_x.PNG" []
    = (Ok [(page_num, "scans/doc_Page12_x.PNG")], []).
Proof.
  destruct (accepted_page_names "scans/doc_Page12_x.PNG" [] eq_refl)
    as [H _].
  apply H. exists "doc", "_Page", "12", "x", "PNG", "".
  cbn. repeat split; auto; discriminate.
Defined.
End AcceptedNames.
(** * The default name of the combined PDF *)

Section DefaultOutput.
Import CreatePdf.

Lemma rstrip_sep chars s :
  existsb (Ascii.eqb "/") chars = true ->
  Py.rstrip chars (s +++ "/") = Py.rstrip chars s.
Proof.
  intros H. induction s as [|a s IH].
  - cbn. rewrite H. reflexivity.
  - cbn [String.append Py.rstrip]. rewrite IH. reflexivity.
Qed.

Lemma endswith_tail a s suf :
  Py.endswith (String a s) suf = false -> Py.endswith s suf = false.
Proof.
  rewrite endswith_cons. destruct (String.eqb (String a s) suf);
    [discriminate|auto].
Qed.

Lemma rstrip_kept s :
  s <> "" ->
  Py.endswith s "/" = false -> Py.endswith s "\" = false ->
  Py.rstrip ["/"; "\"]%char s = s.
Proof.
  induction s as [|a s IH]; intros Hn H1 H2; [congruence|].
  cbn [Py.rstrip]. destruct s as [|b s].
  - cbn [Py.rstrip existsb].
    destruct (Ascii.eqb_spec a "/") as [->|N1]; [discriminate H1|].
    destruct (Ascii.eqb_spec a "\") as [->|N2]; [discriminate H2|].
    reflexivity.
  - rewrite IH; [reflexivity|discriminate| |].
    + apply (endswith_tail a), H1.
    + apply (endswith_tail a), H2.
Qed.

Lemma endswith_sep_append parent leaf c :
  leaf <> "" ->
  Py.endswith leaf (String c "") = false ->
  Py.endswith (parent +++ leaf) (String c "") = false.
Proof.
  intros Hn H.
  destruct (Py.endswith (parent +++ leaf) (String c "")) eqn:E;
    [|reflexivity].
  apply endswith_true in E as (a & E).
  assert (L : exists l x, leaf = l +++ String x "").
  { clear H E. induction leaf as [|y leaf IH]; [congruence|].
    destruct leaf as [|z leaf].
    - exists "", y. reflexivity.
    - destruct IH as (l & x & ->); [discriminate|].
      exists (String y l), x. reflexivity. }
  destruct L as (l & x & ->).
  rewrite <- append_assoc in E. apply append_last_char in E as [_ ->].
  rewrite (endswith_append l (String c "") (String c "")) in H;
    [discriminate|apply endswith_refl].
Qed.

Lemma default_output_lower directory_path :
  ensure_pdf (default_output directory_path) = default_output directory_path.
Proof.
  unfold ensure_pdf, default_output. cbv zeta.
  rewrite lower_append, (endswith_append _ (Py.lower "_combined.pdf") ".pdf");
    reflexivity.
Qed.

(** X18. Left to itself, create_pdf_from_images names the PDF after the
    directory and puts it in the current directory: the only path it
    saves to is the last component of the directory path followed by
    [_combined.pdf]; it has no directory part, trailing slashes of the
    directory path do not change it, and for [parent/leaf] it is
    [leaf_combined.pdf]. *)
Theorem default_pdf_in_current_directory env directory_path :
  let name := default_output directory_path in
  (forall path kw,
      In (path, kw)
         (pdf_saves (snd (create_pdf_from_images env directory_path None))) ->
      path = name)
  /\ Py.contains "/" name = false
  /\ default_output (directory_path +++ "/") = name
  /\ (forall parent leaf,
        directory_path = parent +++ "/" +++ leaf ->
        leaf <> "" -> Py.contains "/" leaf = false ->
        Py.endswith leaf "\" = false ->
        name = leaf +++ "_combined.pdf").
Proof.
  intros name. split; [|split; [|split]].
  - intros path kw Hin.
    destruct (create_pdf_saves env directory_path None) as [E|E];
      rewrite E in Hin; [contradiction|].
    destruct Hin as [Hin|[]]. inversion Hin.
    apply default_output_lower.
  - subst name. unfold default_output. cbv zeta.
    rewrite contains_append, basename_no_sep. reflexivity.
  - subst name. unfold default_output. cbv zeta.
    rewrite rstrip_sep; reflexivity.
  - intros parent leaf -> Hn Hc Hb. subst name.
    unfold default_output. cbv zeta.
    assert (Hs : Py.endswith leaf "/" = false).
    { destruct (Py.endswith leaf "/") eqn:E; [|reflexivity].
      apply endswith_true in E as (a & ->).
      rewrite contains_append in Hc. apply orb_false_iff in Hc as [_ Hc].
      discriminate. }
    rewrite rstrip_kept.
    + change (parent +++ "/" +++ leaf) with (parent +++ String "/" leaf).
      rewrite basename_append_sep; [reflexivity|exact Hc].
    + destruct parent; discriminate.
    + rewrite <- append_assoc. apply endswith_sep_append; assumption.
    + rewrite <- append_assoc. apply endswith_sep_append; assumption.
Qed.
End DefaultOutput.
(** * Rotated copies: different sources, different targets *)

Section RotatedCopies.
Import Rotate.

Lemma append_inv_tail s : forall a b, a +++ s = b +++ s -> a = b.
Proof.
  induction a as [|x a IH]; intros b E.
  - destruct b as [|y b]; [reflexivity|].
    apply (f_equal String.length) in E.
    cbn [String.append String.length] in E. rewrite ?length_append in E.
    lia.
  - destruct b as [|y b].
    + apply (f_equal String.length) in E.
      cbn [String.append String.length] in E. rewrite ?length_append in E.
      lia.
    + simpl in E. injection E as -> E. f_equal. apply IH, E.
Qed.

Lemma take_append y f : Py.take (String.length y) (y +++ f) = y.
Proof.
  induction y as [|a y IH]; simpl; [destruct f; reflexivity|].
  rewrite IH. reflexivity.
Qed.

Lemma rfind_lt c s : (Py.rfind c s < Z.of_nat (String.length s))%Z.
Proof.
  induction s as [|a s IH]; [simpl; lia|].
  cbn [Py.rfind String.length]. cbv zeta.
  destruct (0 <=? Py.rfind c s)%Z; [lia|].
  destruct (Ascii.eqb a c); lia.
Qed.

Lemma rfind_append_none c y f :
  Py.contains c f = false -> Py.rfind c (y +++ f) = Py.rfind c y.
Proof.
  intros H. induction y as [|a y IH].
  - cbn [String.append Py.rfind]. apply rfind_none, H.
  - cbn [String.append Py.rfind]. rewrite IH. reflexivity.
Qed.

Lemma get_append y c f :
  String.get (String.length y) (y +++ String c f) = Some c.
Proof. induction y as [|a y IH]; [reflexivity|exact IH]. Qed.

Lemma has_non_dot_true p c : forall count i j,
  i <= j < i + count ->
  String.get j p = Some c -> c <> "."%char ->
  Py.has_non_dot p i count = true.
Proof.
  induction count as [|count IH]; intros i j Hr Hg Hc; [lia|].
  cbn [Py.has_non_dot].
  destruct (String.get i p) as [a|] eqn:G; [|reflexivity].
  destruct (Ascii.eqb_spec a ".") as [->|N]; [|reflexivity].
  destruct (Nat.eq_dec i j) as [->|Ne]; [congruence|].
  apply (IH (S i) j); [lia|exact Hg|exact Hc].
Qed.

(** A name that ends in a dot and some text without dot or slash, after
    a character that is neither, splits there. *)
Lemma splitext_known x c e :
  c <> "."%char -> c <> "/"%char ->
  Py.contains "." e = false -> Py.contains "/" e = false ->
  Py.splitext ((x +++ String c "") +++ String "." e)
  = (x +++ String c "", String "." e).
Proof.
  intros Hc1 Hc2 He1 He2. unfold Py.splitext. cbv zeta.
  rewrite (rfind_append_last "." _ e He1).
  assert (Hs : (Py.rfind "/" ((x +++ String c "") +++ String "." e)
                < Z.of_nat (String.length x))%Z).
  { rewrite append_assoc. cbn [String.append].
    rewrite rfind_append_none; [apply rfind_lt|].
    cbn [Py.contains].
    destruct (Ascii.eqb_spec c "/") as [E|_]; [contradiction|].
    rewrite He2. reflexivity. }
  pose proof (rfind_range "/" ((x +++ String c "") +++ String "." e)) as Hr.
  rewrite length_append. cbn [String.length].
  set (sep := Py.rfind "/" ((x +++ String c "") +++ String "." e)) in *.
  replace (sep <? Z.of_nat (String.length x + 1))%Z with true
    by (symmetry; apply Z.ltb_lt; lia).
  rewrite (has_non_dot_true _ c _ _ (String.length x)).
  - rewrite Nat2Z.id.
    replace (String.length x + 1) with (String.length (x +++ String c ""))
      by (rewrite length_append; reflexivity).
    rewrite take_append, drop_append. reflexivity.
  - rewrite Nat2Z.id. lia.
  - rewrite append_assoc. cbn [String.append]. apply get_append.
  - exact Hc1.
Qed.

Lemma splitext_ext_no_sep p :
  Py.contains "/" (snd (Py.splitext p)) = false.
Proof.
  unfold Py.splitext. cbv zeta.
  destruct (Py.rfind "/" p <? Py.rfind "." p)%Z eqn:L; [|reflexivity].
  destruct (Py.has_non_dot _ _ _); [|reflexivity].
  cbn [snd]. apply Z.ltb_lt in L.
  pose proof (rfind_range "/" p) as R.
  pose proof (drop_after_rfind "/" p) as D.
  remember (Z.to_nat (Py.rfind "/" p + 1)) as k eqn:Hk.
  remember (Z.to_nat (Py.rfind "." p)) as d eqn:Hd.
  assert (Hle : k <= d) by lia.
  clear - D Hle. revert p d D Hle.
  induction k as [|k IH]; intros p d D Hle.
  - cbn [Py.drop] in D.
    rewrite <- (take_drop d p), contains_append in D.
    apply orb_false_iff in D. tauto.
  - destruct d as [|d]; [lia|]. destruct p as [|a p]; [reflexivity|].
    cbn [Py.drop] in *. apply IH; [exact D|lia].
Qed.

(** The name of a rotated copy determines its source. *)
Lemma new_path_inj direction_text image_path other :
  direction_text = "clockwise" \/ direction_text = "anticlockwise" ->
  new_path image_path direction_text = new_path other direction_text ->
  image_path = other.
Proof.
  intros Hd.
  assert (Hw : forall name,
             exists x, name +++ "_rotated_" +++ direction_text
                       = x +++ String "e" "").
  { intros name. destruct Hd as [-> | ->].
    - exists (name +++ "_rotated_clockwis").
      rewrite append_assoc. reflexivity.
    - exists (name +++ "_rotated_anticlockwis").
      rewrite append_assoc. reflexivity. }
  assert (Hn : Py.contains "." ("_rotated_" +++ direction_text) = false).
  { destruct Hd as [-> | ->]; reflexivity. }
  assert (Mixed : forall p q e,
             snd (Py.splitext p) = "" ->
             Py.contains "." e = false -> Py.contains "/" e = false ->
             fst (Py.splitext p) +++ "_rotated_" +++ direction_text
             = (q +++ "_rotated_" +++ direction_text) +++ String "." e ->
             False).
  { intros p q e Hp He1 He2 E.
    pose proof (splitext_join p) as J. rewrite Hp, append_nil_r in J.
    rewrite J in E.
    assert (C : Py.contains "." p = true).
    { apply (f_equal (Py.contains ".")) in E.
      rewrite (contains_append "." p), Hn in E.
      rewrite (contains_append "." (q +++ "_rotated_" +++ direction_text))
        in E.
      cbn [Py.contains] in E. rewrite Ascii.eqb_refl in E.
      destruct (Py.contains "." p); [reflexivity|].
      cbn [orb] in E. rewrite orb_true_r in E. discriminate. }
    assert (R : (0 <= Py.rfind "." p)%Z).
    { pose proof (rfind_range "." p).
      destruct (Z.eq_dec (Py.rfind "." p) (-1)) as [N|N]; [|lia].
      apply rfind_none in N. congruence. }
    destruct (drop_rfind "." p R) as (rest & Hdrop & Hrest).
    pose proof (take_drop (Z.to_nat (Py.rfind "." p)) p) as T.
    rewrite Hdrop in T.
    set (a1 := Py.take (Z.to_nat (Py.rfind "." p)) p) in *.
    rewrite <- T in E.
    rewrite append_assoc in E.
    change (String "." rest +++ "_rotated_" +++ direction_text)
      with (String "." (rest +++ "_rotated_" +++ direction_text)) in E.
    apply append_last_occurrence in E as [E1 E2].
    - destruct (Hw q) as (x & Hx).
      assert (S1 : Py.splitext p = (a1, String "." rest)).
      { rewrite <- T, E1, Hx. apply splitext_known.
        - discriminate.
        - discriminate.
        - exact Hrest.
        - rewrite <- E2 in He2. rewrite contains_append in He2.
          apply orb_false_iff in He2. tauto. }
      rewrite S1 in Hp. discriminate.
    - rewrite contains_append, Hrest, Hn. reflexivity.
    - exact He1. }
  rewrite !new_path_split. intros E.
  pose proof (splitext_join image_path) as J1.
  pose proof (splitext_join other) as J2.
  pose proof (splitext_ext_no_sep image_path) as N1.
  pose proof (splitext_ext_no_sep other) as N2.
  destruct (splitext_ext_shape image_path) as [E1|(e1 & E1 & D1)];
    destruct (splitext_ext_shape other) as [E2|(e2 & E2 & D2)];
    rewrite E1, E2 in E; rewrite E1 in J1, N1; rewrite E2 in J2, N2.
  - rewrite !append_nil_r in E. rewrite <- !append_assoc in E.
    rewrite !append_nil_r in J1, J2.
    rewrite <- J1, <- J2.
    rewrite !append_assoc in E.
    apply (append_inv_tail ("_rotated_" +++ direction_text)), E.
  - exfalso. rewrite append_nil_r in E.
    apply (Mixed image_path (fst (Py.splitext other)) e2 E1 D2).
    + cbn [Py.contains] in N2. apply orb_false_iff in N2. tauto.
    + rewrite <- !append_assoc in *. exact E.
  - exfalso. rewrite append_nil_r in E. symmetry in E.
    apply (Mixed other (fst (Py.splitext image_path)) e1 E2 D1).
    + cbn [Py.contains] in N1. apply orb_false_iff in N1. tauto.
    + rewrite <- !append_assoc in *. exact E.
  - rewrite <- J1, <- J2.
    rewrite <- !append_assoc in E.
    apply append_last_occurrence in E as [Ea Eb]; [|exact D1|exact D2].
    rewrite !append_assoc in Ea.
    apply (append_inv_tail ("_rotated_" +++ direction_text)) in Ea.
    rewrite Ea, Eb. reflexivity.
Qed.

(** X19. With [overwrite=False], two different images never get the
    same rotated copy, since the name of the copy determines the source;
    so when the scan lists no file twice, rotate_images_in_directory
    writes no file twice: no rotated copy replaces another. *)
Theorem rotated_copies_do_not_collide env directory_path direction angle
        direction_text :
  exists_ env directory_path = true ->
  parse_direction direction = Some (angle, direction_text) ->
  NoDup (find_image_files (glob env) directory_path) ->
  NoDup (map fst
             (image_writes
                (snd (rotate_images_in_directory env directory_path
                                                 direction false))))
  /\ (forall image_path other,
        new_path image_path direction_text = new_path other direction_text ->
        image_path = other).
Proof.
  intros Hex Hd Hnd.
  assert (Inj : forall p q,
             new_path p direction_text = new_path q direction_text -> p = q).
  { intros p q. apply new_path_inj.
    destruct (parse_direction_text direction angle direction_text Hd)
      as [[_ ->]|[_ ->]]; auto. }
  split; [|exact Inj].
  destruct (rotate_run env directory_path direction false angle
                       direction_text Hex Hd) as [_ Hw].
  rewrite Hw, map_map. cbn [fst Ref.target].
  apply Finite.Injective_map_NoDup.
  - exact Inj.
  - apply NoDup_filter, Hnd.
Qed.

Lemma rotated_copies_do_not_collide_witness :
  NoDup (map fst
             (image_writes
                (snd (rotate_images_in_directory Sample.rotate_env "pics"
                                                 "cw" false)))).
Proof.
  apply (rotated_copies_do_not_collide Sample.rotate_env "pics" "cw"
                                       (-90) "clockwise").
  - reflexivity.
  - reflexivity.
  - repeat constructor; cbn; intuition discriminate.
Defined.
End RotatedCopies.
(** * The generated output name is not the input *)

Section SparesTheInput.

Lemma every_try (P : Event -> Prop) {A} (m : M A) (h : string -> M A) :
  every P m -> (forall e, every P (h e)) -> every P (try_except m h).
Proof.
  unfold every, try_except. intros Hm Hh.
  destruct m as [[a|e] t]; [exact Hm|].
  specialize (Hh e). destruct (h e) as [r t']. cbn [snd] in *.
  apply Forall_app. auto.
Qed.

Lemma every_print (P : Event -> Prop) s :
  (forall m, P (Print m)) -> every P (print s).
Proof. intros H. apply every_emit, H. Qed.

(** The only file compress_pdf_advanced may save is its output. *)
Lemma advanced_saves_output env input_pdf output_pdf q mw mh :
  every (fun ev =>
           match ev with
           | SavePdf path _ =>
               path = Compress.output_path input_pdf output_pdf
                                           "_advanced_compressed"
           | _ => True
           end)
        (CompressAdv.compress_pdf_advanced env input_pdf output_pdf q mw mh).
Proof.
  unfold CompressAdv.compress_pdf_advanced.
  destruct (negb _).
  { apply every_bind; [apply every_emit; exact I|].
    intros _. apply every_ret. }
  cbv zeta. apply every_try.
  - apply every_bind; [apply every_lift|]. intros size.
    apply every_bind; [apply every_emit; exact I|]. intros _.
    apply every_bind; [apply every_emit; exact I|]. intros _.
    apply every_bind; [apply every_call; exact I|]. intros pages.
    apply every_bind; [apply every_call; exact I|]. intros _.
    apply every_bind; [apply every_emit; exact I|]. intros _.
    apply every_bind.
    { apply every_for_loop. intros i page s.
      unfold CompressAdv.process_page, CompressAdv.pil_call. cbv zeta.
      apply every_bind.
      { unfold CompressAdv.scale_factor, CompressAdv.div.
        apply every_bind.
        { destruct (CompressAdv.gt _ _); [|apply every_ret].
          destruct (Qeq_bool _ _); [apply every_raise|apply every_ret]. }
        intros sx. apply every_bind.
        { destruct (CompressAdv.gt _ _); [|apply every_ret].
          destruct (Qeq_bool _ _); [apply every_raise|apply every_ret]. }
        intros sy. apply every_ret. }
      intros scale. apply every_bind; [apply every_call; exact I|].
      intros img. apply every_bind.
      { destruct (Py.str_in _ _);
          [apply every_call; exact I|apply every_ret]. }
      intros _. apply every_bind.
      { destruct (q <? 50)%Z; [|apply every_ret].
        apply every_bind; [apply every_call; exact I|].
        intros _. apply every_call. exact I. }
      intros _. apply every_bind.
      { destruct (q <? 40)%Z;
          [apply every_call; exact I|apply every_ret]. }
      intros _. apply every_bind; [apply every_call; exact I|].
      intros _. apply every_bind; [apply every_call; exact I|].
      intros _. apply every_bind; [apply every_call; exact I|].
      intros _. apply every_emit. exact I. }
    intros _. apply every_bind; [apply every_call; reflexivity|].
    intros _. apply every_bind; [apply every_emit; exact I|].
    intros _. apply every_bind; [apply every_emit; exact I|].
    intros _. apply every_bind; [apply every_lift|].
    intros csize. apply every_bind.
    { unfold Compress.ratio.
      destruct (_ =? _)%Z; [apply every_raise|apply every_ret]. }
    intros msg. apply every_bind; [apply every_emit; exact I|].
    intros _. apply every_bind; [apply every_emit; exact I|].
    intros _. apply every_bind; [apply every_emit; exact I|].
    intros _. apply every_ret.
  - intros e. apply every_bind; [apply every_emit; exact I|].
    intros _. apply every_ret.
Qed.

Lemma every_save (out : string) t :
  Forall (fun ev => match ev with
                    | SavePdf path _ => path = out
                    | _ => True
                    end) t ->
  forall path kw, In (path, kw) (pdf_saves t) -> path = out.
Proof.
  induction 1 as [|ev t H _ IH]; intros path' kw Hin; [contradiction|].
  destruct ev; cbn [pdf_saves] in Hin; eauto.
  destruct Hin as [E|Hin]; [|eauto]. congruence.
Qed.

Lemma generated_output_longer input_pdf suffix :
  suffix <> "" ->
  String.length input_pdf
  < String.length (Compress.output_path input_pdf None suffix).
Proof.
  intros Hs. unfold Compress.output_path, ensure_pdf.
  rewrite generated_name_split.
  assert (L : String.length input_pdf
              < String.length (fst (Py.splitext input_pdf) +++ suffix
                               +++ snd (Py.splitext input_pdf))).
  { rewrite <- (splitext_join input_pdf) at 1.
    rewrite !length_append. destruct suffix; [congruence|]. simpl. lia. }
  destruct (Py.endswith _ _); [exact L|].
  rewrite length_append. lia.
Qed.

(** X20. Left to generate the output name, neither compression
    overwrites its input: the generated name is longer than the input
    path, and it is the only path compress_pdf and compress_pdf_advanced
    may save to. *)
Theorem generated_output_spares_the_input env adv_env input_pdf level q mw
        mh :
  (forall path kw,
      In (path, kw)
         (pdf_saves (snd (Compress.compress_pdf env input_pdf None level))) ->
      path <> input_pdf)
  /\ (forall path kw,
        In (path, kw)
           (pdf_saves
              (snd (CompressAdv.compress_pdf_advanced adv_env input_pdf None
                                                      q mw mh))) ->
        path <> input_pdf)
  /\ String.length input_pdf
     < String.length (Compress.output_path input_pdf None "_compressed")
  /\ String.length input_pdf
     < String.length
         (Compress.output_path input_pdf None "_advanced_compressed").
Proof.
  assert (L1 : String.length input_pdf
               < String.length
                   (Compress.output_path input_pdf None "_compressed")).
  { apply generated_output_longer. discriminate. }
  assert (L2 : String.length input_pdf
               < String.length
                   (Compress.output_path input_pdf None
                                         "_advanced_compressed")).
  { apply generated_output_longer. discriminate. }
  split; [|split; [|split]].
  - intros path kw Hin E.
    apply compress_pdf_save_path in Hin. subst path.
    rewrite E in L1. lia.
  - intros path kw Hin E.
    apply (every_save _ _ (advanced_saves_output adv_env input_pdf None
                                                 q mw mh)) in Hin.
    subst path. rewrite E in L2. lia.
  - exact L1.
  - exact L2.
Qed.
End SparesTheInput.
